(** * CEMDownloader: the per-polygon WCS pipeline of [poligono_wcs.py]

    A shallow embedding of the module [poligono_wcs.py] of the QGIS plugin:
    the resolution table, the GetCoverage query builder with its fixed-point
    float formatting, the streaming fetcher, and the batch loop that produces
    one clipped GeoTIFF per polygon.

    Python values are modelled as follows.
    - [int]   : [Z].
    - [float] : the kernel's binary64 [float] (IEEE 754, as CPython's).
    - [str]   : [list ascii], the UTF-8 bytes of the text.
    - exceptions : a value of [exn] carried by the [Raise] side of a result.
    - the QGIS / Qt / OS collaborators : the fields of a [Collab] record,
      acting on an opaque world. *)

From Stdlib Require Import ZArith NArith Lia List Ascii String Floats.
From stdpp Require Import base option list gmap strings.

Import ListNotations.
Local Open Scope Z_scope.

(** ** Text *)

Definition str := list ascii.

(** A Python string literal. *)
Definition lit (s : string) : str := list_ascii_of_string s.

(** [sep.join(parts)] *)
Fixpoint join (sep : str) (parts : list str) : str :=
  match parts with
  | [] => []
  | [p] => p
  | p :: ps => p ++ sep ++ join sep ps
  end.

(** ** Decimal rendering of integers *)

(** The character ["0123456789"[n mod 10]]. *)
Definition digit_char (n : N) : ascii := ascii_of_N (48 + n mod 10).

Definition is_digit (c : ascii) : bool :=
  let k := N_of_ascii c in ((48 <=? k) && (k <=? 57))%N.

(** The [w] low-order decimal digits of [n], most significant first. *)
Fixpoint fixed_digits (w : nat) (n : N) : str :=
  match w with
  | O => []
  | S w' => fixed_digits w' (n / 10) ++ [digit_char n]
  end.

(** Number of decimal digits of [n] (1 for 0); [fuel] bounds the binary size. *)
Fixpoint count_digits (fuel : nat) (n : N) : nat :=
  match fuel with
  | O => 1%nat
  | S fuel' => if (n <? 10)%N then 1%nat else S (count_digits fuel' (n / 10))
  end.

Definition num_digits (n : N) : nat := count_digits (N.size_nat n) n.

(** [str(n)] for a natural number [n]. *)
Definition str_of_N (n : N) : str := fixed_digits (num_digits n) n.

(** [str(i)] and [f"{i}"] for an [int]. *)
Definition str_of_int (i : Z) : str :=
  if i <? 0 then lit "-" ++ str_of_N (Z.abs_N i) else str_of_N (Z.abs_N i).

(** [f"{i:0{w}d}"]: sign-aware zero padding to a minimum width [w]. *)
Definition format_0wd (w : nat) (i : Z) : str :=
  let n := Z.abs_N i in
  if i <? 0
  then lit "-" ++ fixed_digits (Nat.max (w - 1) (num_digits n)) n
  else fixed_digits (Nat.max w (num_digits n)) n.

(** Value of a digit string (left inverse of the renderings above). *)
Definition digits_value (s : str) : N :=
  fold_left (fun acc c => (10 * acc + (N_of_ascii c - 48))%N) s 0%N.

(** ** Exceptions and results *)

(** The classes that matter to [except Exception]: [NonException] stands for
    the [BaseException] subclasses outside [Exception] ([KeyboardInterrupt],
    [SystemExit], [GeneratorExit]). *)
Inductive exn_class :=
  | ValueError | RuntimeError | OSError | OtherException | NonException.

Record exn := mk_exn { exn_cls : exn_class; exn_msg : str }.

(** [isinstance(e, Exception)] *)
Definition is_Exception (e : exn) : bool :=
  match exn_cls e with NonException => false | _ => true end.

Inductive result (A : Type) :=
  | Ok (a : A)
  | Raise (e : exn).
Arguments Ok {A} a.
Arguments Raise {A} e.

(** ** Configuration *)

Definition WCS_BASE : str := lit "https://gaia.inegi.org.mx/geoserver/wcs".
Definition WCS_COVERAGE_ID : str := lit "cem30_workespace:cem3_r15".
Definition NODATA_VALUE : Z := -9999.
Definition VALID_RES : list Z := [15; 30; 60; 90; 120].

(** ** ResolutionMapper *)

(** The dict literal of [meters_to_deg_step], arcseconds per pixel. *)
Definition table : gmap Z float :=
  {[ 15 := 0.5%float; 30 := 1.0%float; 60 := 2.0%float;
     90 := 3.0%float; 120 := 4.0%float ]}.

Definition invalid_resolution_step : exn :=
  mk_exn ValueError (lit "Resolución inválida (usa 15,30,60,90,120).").

Definition meters_to_deg_step (res_m : Z) : result float :=
  match table !! res_m with
  | None => Raise invalid_resolution_step
  | Some arcsec => Ok (arcsec / 3600.0)%float
  end.

(** ** Fixed-point rendering of floats *)

(** [round(num / den)] to the nearest integer, ties to the even one: the
    rounding of CPython's correctly rounded float formatting. *)
Definition round_half_even (num den : N) : N :=
  let q := (num / den)%N in
  let r := (num mod den)%N in
  match (2 * r ?= den)%N with
  | Lt => q
  | Gt => (q + 1)%N
  | Eq => if N.even q then q else (q + 1)%N
  end.

(** [|x| * 10^d] rounded to an integer, for the finite float [m * 2^e]. *)
Definition scaled_magnitude (d : nat) (m : positive) (e : Z) : N :=
  let num := (Npos m * 10 ^ N.of_nat d)%N in
  match e with
  | Zneg p => round_half_even num (2 ^ Npos p)
  | _ => (num * 2 ^ Z.to_N e)%N
  end.

(** Integer digits, then the point and [d] fraction digits when [d > 0]. *)
Definition fixed_point (d : nat) (n : N) : str :=
  str_of_N (n / 10 ^ N.of_nat d) ++
  match d with
  | O => []
  | _ => lit "." ++ fixed_digits d n
  end.

Definition sign_text (s : bool) : str := if s then lit "-" else [].

(** [f"{x:.{d}f}"] for a float [x]. *)
Definition format_f (d : nat) (x : float) : str :=
  match Prim2SF x with
  | S754_nan => lit "nan"
  | S754_infinity s => sign_text s ++ lit "inf"
  | S754_zero s => sign_text s ++ fixed_point d 0
  | S754_finite s m e => sign_text s ++ fixed_point d (scaled_magnitude d m e)
  end.

(** [float(n)] for an [int] within the double range. *)
Definition float_of_int (n : Z) : float :=
  SF2Prim (binary_normalize prec emax n 0 false).

(** [int(x)] for a finite float: truncation toward zero. *)
Definition int_of_float (x : float) : Z :=
  match Prim2SF x with
  | S754_finite s m e =>
      let a := match e with
               | Zneg p => Zpos m / 2 ^ Zpos p
               | _ => Zpos m * 2 ^ e
               end in
      if s then - a else a
  | _ => 0
  end.



(** [human_size]: a byte count as text, in steps of 1024. *)
Fixpoint human_size_loop (units : list str) (f : float) : str :=
  match units with
  | u :: rest =>
      if (f <? 1024.0)%float then format_f 1 f ++ lit " " ++ u
      else human_size_loop rest (f / 1024.0)%float
  | [] => format_f 1 f ++ lit " PB"
  end.

Definition human_size (n : Z) : str :=
  human_size_loop [lit "B"; lit "KB"; lit "MB"; lit "GB"; lit "TB"] (float_of_int n).

(** ** CoverageRequestBuilder *)

(** A [QUrl] with the items of its [QUrlQuery], in insertion order. *)
Record QUrl := mk_QUrl { url_base : str; url_query : list (str * str) }.

(** [q.addQueryItem(k, v)] *)
Definition addQueryItem (k v : str) (q : list (str * str)) : list (str * str) :=
  q ++ [(k, v)].

(** [u.toString()]: none of the characters the builder emits is re-encoded. *)
Definition toString (u : QUrl) : str :=
  url_base u ++
  match url_query u with
  | [] => []
  | q => lit "?" ++ join (lit "&") (map (fun kv => kv.1 ++ lit "=" ++ kv.2) q)
  end.

Definition bbox_t := (float * float * float * float)%type.

Definition build_wcs_getcoverage_url (bbox4326 : bbox_t) (res_m : Z) : result QUrl :=
  let '(minx, miny, maxx, maxy) := bbox4326 in
  match meters_to_deg_step res_m with
  | Raise e => Raise e
  | Ok step =>
      let q := [] in
      let q := addQueryItem (lit "request") (lit "GetCoverage") q in
      let q := addQueryItem (lit "service") (lit "WCS") q in
      let q := addQueryItem (lit "version") (lit "1.0.0") q in
      let q := addQueryItem (lit "coverage") WCS_COVERAGE_ID q in
      let q := addQueryItem (lit "crs") (lit "EPSG:4326") q in
      let q := addQueryItem (lit "bbox")
                 (format_f 8 minx ++ lit "," ++ format_f 8 miny ++ lit "," ++
                  format_f 8 maxx ++ lit "," ++ format_f 8 maxy) q in
      let q := addQueryItem (lit "resx") (format_f 7 step) q in
      let q := addQueryItem (lit "resy") (format_f 7 step) q in
      let q := addQueryItem (lit "format") (lit "GeoTIFF") q in
      Ok (mk_QUrl WCS_BASE q)
  end.

(** ** Paths ([pathlib], POSIX flavour) *)

(** A pure path: its root ([""], ["/"] or ["//"]) and its components. *)
Record Path := mk_Path { anchor : str; parts : list str }.

Definition slash : ascii := "/"%char.

(** [s.split(c)] *)
Fixpoint split_on (c : ascii) (s : str) : list str :=
  match s with
  | [] => [[]]
  | a :: t =>
      if Ascii.eqb a c then [] :: split_on c t
      else match split_on c t with
           | p :: ps => (a :: p) :: ps
           | [] => [[a]]
           end
  end.

(** One leading slash is the root, exactly two are kept, more collapse to one. *)
Definition path_root (s : str) : str :=
  match s with
  | a :: b :: c :: _ =>
      if Ascii.eqb a slash then
        if Ascii.eqb b slash then
          if Ascii.eqb c slash then lit "/" else lit "//"
        else lit "/"
      else []
  | [a; b] =>
      if Ascii.eqb a slash then if Ascii.eqb b slash then lit "//" else lit "/"
      else []
  | [a] => if Ascii.eqb a slash then lit "/" else []
  | [] => []
  end.

(** A component survives parsing unless it is empty or a single dot. *)
Definition keeps_part (p : str) : bool :=
  match p with
  | [] => false
  | [c] => negb (Ascii.eqb c ".")
  | _ => true
  end.

(** [Path(s)] *)
Definition Path_of (s : str) : Path :=
  mk_Path (path_root s) (List.filter keeps_part (split_on slash s)).

(** [p / s]: an absolute right operand replaces the left one. *)
Definition path_div (p : Path) (s : str) : Path :=
  let q := Path_of s in
  match anchor q with
  | [] => mk_Path (anchor p) (parts p ++ parts q)
  | _ => q
  end.

(** [str(p)] *)
Definition path_str (p : Path) : str :=
  match anchor p, parts p with
  | [], [] => lit "."
  | a, ps => a ++ join (lit "/") ps
  end.

(** ** The collaborators: QGIS, Qt, GDAL and the operating system *)

Definition bytes := list Byte.byte.

(** A file written through Python's [open]. *)
Record File := mk_File { content : bytes; closed : bool }.

(** What a [QNetworkReply] delivers while the event loop runs, and the error
    it reports once finished ([0] is [QNetworkReply.NoError]; the code tests
    the truth value of [reply.error()], an integer enumeration). *)
Inductive reply_signal :=
  | readyRead (chunk : bytes)
  | downloadProgress (br bt : Z).

Record Reply := mk_Reply {
  signals : list reply_signal;
  error : Z;
  errorString : str
}.

(** The two shapes [writeAsVectorFormatV2] returns across QGIS versions:
    a bare code, or a tuple headed by the code. *)
Inductive writer_return :=
  | WCode (code : Z)
  | WTuple (code : Z) (rest : list str).

(** [QgsVectorFileWriter.NoError] *)
Definition NoError : Z := 0.

(** The parameter dict of [gdal:cliprasterbymasklayer]. *)
Record clip_params := mk_clip_params {
  INPUT : str;
  MASK : str;
  CROP_TO_CUTLINE : bool;
  KEEP_RESOLUTION : bool;
  NODATA : Z;
  ALPHA_BAND : bool;
  OUTPUT : str
}.

Record QgsFeature (Geometry : Type) := mk_QgsFeature { geometry : Geometry }.
Arguments mk_QgsFeature {Geometry} _.
Arguments geometry {Geometry} _.

Record QgsVectorLayer (Geometry CRS : Type) := mk_QgsVectorLayer {
  name : str;
  crs : CRS;
  getFeatures : list (QgsFeature Geometry)
}.
Arguments mk_QgsVectorLayer {Geometry CRS} _ _ _.
Arguments name {Geometry CRS} _.
Arguments crs {Geometry CRS} _.
Arguments getFeatures {Geometry CRS} _.

(** Every external call, recorded in call order. *)
Inductive io_event :=
  | IoTempLocation
  | IoMkdir (path : str)
  | IoExplode (layer_name : str)
  | IoTransform
  | IoWriteVector (path : str)
  | IoGet (url : str)
  | IoOpen (path : str)
  | IoClip (params : clip_params)
  | IoRasterLayer (path : str)
  | IoRender (path : str).

(** The external operations the module consumes.  Each acts on an opaque
    world; the fallible ones return a raised exception instead of a value. *)
Class Collab (Geometry CRS World : Type) := {
  (** [QStandardPaths.writableLocation(QStandardPaths.TempLocation)] *)
  writableLocation : World -> str;
  (** [Path.mkdir(parents=True, exist_ok=True)] *)
  mkdir : str -> World -> result unit * World;
  (** [processing.run("native:multiparttosingleparts", ...)["OUTPUT"]] *)
  multiparttosingleparts :
    QgsVectorLayer Geometry CRS -> World -> result (QgsVectorLayer Geometry CRS) * World;
  (** a copy of the geometry transformed from the given CRS to EPSG:4326 *)
  transform : Geometry -> CRS -> World -> result Geometry * World;
  (** [g.boundingBox()] as [(xMinimum, yMinimum, xMaximum, yMaximum)] *)
  boundingBox : Geometry -> bbox_t;
  (** [QgsVectorFileWriter.writeAsVectorFormatV2] of the one-feature layer *)
  writeAsVectorFormatV2 : Geometry -> str -> World -> result writer_return * World;
  (** [QgsNetworkAccessManager.instance().get(req)], run to [finished] *)
  nam_get : QUrl -> World -> Reply * World;
  (** [open(path, "wb")] *)
  open_wb : str -> World -> result unit * World;
  (** [processing.run("gdal:cliprasterbymasklayer", params)] *)
  cliprasterbymasklayer : clip_params -> World -> result unit * World;
  (** [QgsRasterLayer(path, stem, "gdal").isValid()] *)
  raster_isValid : str -> World -> result bool * World;
  (** statistics, gray renderer, [addMapLayer] and repaint *)
  render_gray_and_add : str -> World -> result unit * World
}.

(** ** Program state *)

(** The widgets the batch writes to. *)
Record UI := mk_UI {
  log : list str;
  status : str;
  progress_range : Z * Z;
  progress_value : Z
}.

Record State (World : Type) := mk_State {
  world : World;
  files : gmap str File;
  trace : list io_event;
  ui : UI
}.
Arguments mk_State {World} _ _ _ _.
Arguments world {World} _.
Arguments files {World} _.
Arguments trace {World} _.
Arguments ui {World} _.

Definition ui_append (msg : str) (u : UI) : UI :=
  mk_UI (log u ++ [msg]) (status u) (progress_range u) (progress_value u).
Definition ui_setText (msg : str) (u : UI) : UI :=
  mk_UI (log u) msg (progress_range u) (progress_value u).
Definition ui_setRange (lo hi : Z) (u : UI) : UI :=
  mk_UI (log u) (status u) (lo, hi) (progress_value u).
Definition ui_setValue (v : Z) (u : UI) : UI :=
  mk_UI (log u) (status u) (progress_range u) v.

(** Computations: state passing with exceptions; the effects made before a
    raise persist. *)
Definition M (World A : Type) : Type := State World -> result A * State World.

Definition ret {World A : Type} (a : A) : M World A := fun s => (Ok a, s).

Definition raise {World A : Type} (e : exn) : M World A := fun s => (Raise e, s).

Definition bind {World A B : Type} (m : M World A) (k : A -> M World B) : M World B :=
  fun s =>
    match m s with
    | (Ok a, s') => k a s'
    | (Raise e, s') => (Raise e, s')
    end.

Notation "x <~ m ;; k" := (bind m (fun x => k))
  (at level 100, m at next level, right associativity).
Notation "m ;;; k" := (bind m (fun _ => k))
  (at level 100, right associativity).

(** A pure result becomes a computation. *)
Definition lift {World A : Type} (r : result A) : M World A := fun s => (r, s).

(** A call of a collaborator, recorded in the trace. *)
Definition call {World A : Type} (ev : io_event) (f : World -> result A * World) : M World A :=
  fun s =>
    let '(r, w) := f (world s) in
    (r, mk_State w (files s) (trace s ++ [ev]) (ui s)).

Definition on_ui {World : Type} (f : UI -> UI) : M World unit :=
  fun s => (Ok tt, mk_State (world s) (files s) (trace s) (f (ui s))).

Definition on_files {World : Type} (f : gmap str File -> gmap str File) : M World unit :=
  fun s => (Ok tt, mk_State (world s) (f (files s)) (trace s) (ui s)).

Definition when {World : Type} (b : bool) (m : M World unit) : M World unit :=
  if b then m else ret tt.

(** [try: body / except Exception as e: handler(e) / finally: final] *)
Definition try_except_finally {World : Type}
    (body : M World unit) (handler : exn -> M World unit) (final : M World unit)
    : M World unit :=
  fun s =>
    match body s with
    | (Ok _, s1) => final s1
    | (Raise e, s1) =>
        let '(r, s2) := if is_Exception e then handler e s1 else (Raise e, s1) in
        match r, final s2 with
        | Raise e', (Ok _, s3) => (Raise e', s3)
        | _, out => out
        end
    end.

(** [for i, f in enumerate(feats, start=i): body(i, f)] *)
Fixpoint for_each {World A : Type} (i : Z) (feats : list A) (body : Z -> A -> M World unit)
    : M World unit :=
  match feats with
  | [] => ret tt
  | f :: rest => body i f ;;; for_each (i + 1) rest body
  end.

(** [widget.append(msg)]; following the cursor changes no text. *)
Definition log_append {World : Type} (msg : str) : M World unit := on_ui (ui_append msg).

(** ** The module's operations *)

Section Pipeline.
Context {Geometry CRS World : Type} {collab : Collab Geometry CRS World}.

(** [plugin_temp_dir]: the plugin's own directory under the OS temp root. *)
Definition plugin_temp_dir : M World Path :=
  loc <~ call IoTempLocation (fun w => (Ok (writableLocation w), w)) ;;
  let base := Path_of loc in
  let d := path_div base (lit "CEM_QGIS_Temp") in
  call (IoMkdir (path_str d)) (mkdir (path_str d)) ;;;
  ret d.

(** [f.write(chunk)] and [f.close()] on the file opened at [p]. *)
Definition file_write (p : str) (chunk : bytes) : M World unit :=
  on_files (alter (fun f => mk_File (content f ++ chunk) (closed f)) p).

Definition file_close (p : str) : M World unit :=
  on_files (alter (fun f => mk_File (content f) true) p).

(** [loop.exec_()]: the slots run on each signal until [finished].  The
    progress callback is presentation code: it acts on the widgets only. *)
Fixpoint event_loop (p : str) (progress_cb : option (Z -> Z -> UI -> UI))
    (sigs : list reply_signal) (received : Z) : M World Z :=
  match sigs with
  | [] => ret received
  | readyRead chunk :: rest =>
      file_write p chunk ;;;
      event_loop p progress_cb rest (received + Z.of_nat (length chunk))
  | downloadProgress br bt :: rest =>
      match progress_cb with
      | Some cb => on_ui (cb br bt)
      | None => ret tt
      end ;;;
      event_loop p progress_cb rest received
  end.

Definition http_get_to_file_progress (url : QUrl) (out_path : Path)
    (progress_cb : option (Z -> Z -> UI -> UI)) : M World unit :=
  let p := path_str out_path in
  reply <~ call (IoGet (toString url))
             (fun w => let '(r, w') := nam_get url w in (Ok r, w')) ;;
  let received := 0 in
  call (IoOpen p) (open_wb p) ;;;
  on_files (insert p (mk_File [] false)) ;;;
  _ <~ event_loop p progress_cb (signals reply) received ;;
  file_close p ;;;
  if negb (error reply =? 0) then
    let err := errorString reply in
    raise (mk_exn RuntimeError (lit "Error de red: " ++ err))
  else ret tt.

Definition add_raster_gray_with_stats (path : Path) : M World bool :=
  let p := path_str path in
  valid <~ call (IoRasterLayer p) (raster_isValid p) ;;
  if negb valid then ret false
  else call (IoRender p) (render_gray_and_add p) ;;; ret true.

Definition _explode_to_singleparts (layer : QgsVectorLayer Geometry CRS)
    : M World (QgsVectorLayer Geometry CRS) :=
  call (IoExplode (name layer)) (multiparttosingleparts layer).

Definition _write_single_polygon_geojson_4326 (geom : Geometry) (src_crs : CRS)
    (out_path : Path) : M World unit :=
  geom_4326 <~ call IoTransform (transform geom src_crs) ;;
  result <~ call (IoWriteVector (path_str out_path))
              (writeAsVectorFormatV2 geom_4326 (path_str out_path)) ;;
  let err_code := match result with WCode c => c | WTuple c _ => c end in
  if negb (err_code =? NoError) then
    let err_msg := match result with WTuple _ (m :: _) => m | _ => [] end in
    raise (mk_exn RuntimeError (lit "No se pudo exportar máscara GeoJSON: " ++ err_msg))
  else ret tt.

Definition _bbox_4326_from_geom (geom : Geometry) (src_crs : CRS) : M World bbox_t :=
  g <~ call IoTransform (transform geom src_crs) ;;
  ret (boundingBox g).

(** The prefix ["[{i}/{total}]"] of the per-polygon messages. *)
Definition tag (i total : Z) : str :=
  lit "[" ++ str_of_int i ++ lit "/" ++ str_of_int total ++ lit "]".

(** The closure [_cb] handed to the fetcher. *)
Definition _cb (status_label : bool) (i total : Z) (br bt : Z) (u : UI) : UI :=
  if status_label then
    if bt <=? 0 then
      ui_setText (tag i total ++ lit " Descargando… " ++ human_size br) u
    else
      let pct := int_of_float
                   (float_of_int br * 100.0 / float_of_int (Z.max 1 bt))%float in
      ui_setText (tag i total ++ lit " Descargando… " ++ str_of_int pct ++ lit "% (" ++
                  human_size br ++ lit "/" ++ human_size bt ++ lit ")") u
  else u.

Definition invalid_resolution : exn :=
  mk_exn ValueError (lit "Resolución inválida. Usa 15,30,60,90 o 120 m.").

Section Batch.
Variable layer : QgsVectorLayer Geometry CRS.
Variable res_m : Z.
Variables status_label progressbar : bool.

(** The three scratch files of polygon [i]. *)
Definition tif_raw_path (tmp_root : Path) (i : Z) : Path :=
  path_div tmp_root (lit "wcs_raw_poly_" ++ format_0wd 4 i ++ lit ".tif").

Definition mask_geojson_path (tmp_root : Path) (i : Z) : Path :=
  path_div tmp_root (lit "mask_poly_" ++ format_0wd 4 i ++ lit ".geojson").

Definition out_tif_path (tmp_root : Path) (i : Z) : Path :=
  path_div tmp_root
    (name layer ++ lit "__poly" ++ format_0wd 4 i ++ lit "__cem_" ++
     str_of_int res_m ++ lit "m_clip.tif").

(** The body of the [try] block for polygon [i] of [total]. *)
Definition polygon_pipeline (single : QgsVectorLayer Geometry CRS)
    (tmp_root : Path) (total i : Z) (f : QgsFeature Geometry) : M World unit :=
  let geom := geometry f in
  r <~ _bbox_4326_from_geom geom (crs single) ;;
  let '(minx, miny, maxx, maxy) := r in
  step_deg <~ lift (meters_to_deg_step res_m) ;;
  let pad := step_deg in
  let bbox := (minx - pad, miny - pad, maxx + pad, maxy + pad)%float in
  url <~ lift (build_wcs_getcoverage_url bbox res_m) ;;
  log_append (tag i total ++ lit " WCS GetCoverage: " ++ toString url) ;;;
  let tif_raw := tif_raw_path tmp_root i in
  let mask_geojson := mask_geojson_path tmp_root i in
  let out_tif := out_tif_path tmp_root i in
  _write_single_polygon_geojson_4326 geom (crs single) mask_geojson ;;;
  when status_label
    (on_ui (ui_setText (tag i total ++ lit " Descargando WCS " ++
                        str_of_int res_m ++ lit " m…"))) ;;;
  http_get_to_file_progress url tif_raw (Some (_cb status_label i total)) ;;;
  when status_label
    (on_ui (ui_setText (tag i total ++ lit " Recortando (gdal:cliprasterbymasklayer)…"))) ;;;
  let params := mk_clip_params (path_str tif_raw) (path_str mask_geojson)
                  true true NODATA_VALUE true (path_str out_tif) in
  call (IoClip params) (cliprasterbymasklayer params) ;;;
  ok <~ add_raster_gray_with_stats out_tif ;;
  if ok then log_append (tag i total ++ lit " OK → " ++ path_str out_tif)
  else log_append (tag i total ++ lit " Archivo inválido (no cargado): " ++
                   path_str out_tif).

(** The line the [except] clause logs for polygon [i]. *)
Definition error_line (total i : Z) (e : exn) : str :=
  tag i total ++ lit " ERROR: " ++ exn_msg e.

(** One iteration: the [try], its [except Exception] and its [finally]. *)
Definition polygon_step (single : QgsVectorLayer Geometry CRS)
    (tmp_root : Path) (total i : Z) (f : QgsFeature Geometry) : M World unit :=
  try_except_finally
    (polygon_pipeline single tmp_root total i f)
    (fun e => log_append (error_line total i e))
    (when progressbar (on_ui (ui_setValue i))).

(** The status set-up and the scratch directory, before the loop. *)
Definition batch_setup (total : Z) : M World Path :=
  when (status_label && progressbar)
    (on_ui (ui_setText (lit "Preparando " ++ str_of_int total ++ lit " polígonos…")) ;;;
     on_ui (ui_setRange 0 total) ;;;
     on_ui (ui_setValue 0)) ;;;
  d <~ plugin_temp_dir ;;
  let tmp_root :=
    path_div d (lit "wcs_" ++ name layer ++ lit "_" ++ str_of_int res_m ++ lit "m") in
  call (IoMkdir (path_str tmp_root)) (mkdir (path_str tmp_root)) ;;;
  ret tmp_root.

Definition batch_loop (single : QgsVectorLayer Geometry CRS)
    (tmp_root : Path) (total : Z) : M World unit :=
  for_each 1 (getFeatures single) (polygon_step single tmp_root total).

(** The messages after the loop. *)
Definition batch_finish : M World unit :=
  when (status_label && progressbar)
    (on_ui (ui_setText (lit
       "Listo. Se generó un TIFF por polígono en TEMP. Guarda copias para conservarlos."))) ;;;
  log_append (lit "Listo. Resultado en TEMP (un TIFF por polígono).").

Definition download_poligono_wcs_split_per_polygon : M World unit :=
  if negb (bool_decide (res_m ∈ VALID_RES)) then raise invalid_resolution
  else
    single <~ _explode_to_singleparts layer ;;
    let feats := getFeatures single in
    let total := Z.of_nat (length feats) in
    if total =? 0 then log_append (lit "La capa no contiene polígonos.")
    else
      tmp_root <~ batch_setup total ;;
      batch_loop single tmp_root total ;;;
      batch_finish.

(** The polygons whose pipeline raised, with the exception, in loop order. *)
Fixpoint failures (single : QgsVectorLayer Geometry CRS) (tmp_root : Path)
    (total i : Z) (feats : list (QgsFeature Geometry)) (s : State World)
    : list (Z * exn) :=
  match feats with
  | [] => []
  | f :: rest =>
      let later :=
        failures single tmp_root total (i + 1) rest
          (polygon_step single tmp_root total i f s).2 in
      match (polygon_pipeline single tmp_root total i f s).1 with
      | Raise e => (i, e) :: later
      | Ok _ => later
      end
  end.
End Batch.
End Pipeline.

(** ** Observations on runs *)

(** The bytes a reply delivers through its [readyRead] signals, in order. *)
Fixpoint received_bytes (sigs : list reply_signal) : bytes :=
  match sigs with
  | [] => []
  | readyRead chunk :: rest => chunk ++ received_bytes rest
  | downloadProgress _ _ :: rest => received_bytes rest
  end.

(** A collaborator that, when it raises, raises an instance of [Exception]. *)
Definition only_Exception {World A : Type} (f : World -> result A * World) : Prop :=
  forall w e w', f w = (Raise e, w') -> is_Exception e = true.

(** The collaborators called inside the loop raise nothing outside
    [Exception] (no [KeyboardInterrupt], no [SystemExit]). *)
Definition raises_only_Exception {Geometry CRS World : Type}
    {collab : Collab Geometry CRS World} : Prop :=
  (forall g c, only_Exception (transform g c)) /\
  (forall g p, only_Exception (writeAsVectorFormatV2 g p)) /\
  (forall p, only_Exception (open_wb p)) /\
  (forall ps, only_Exception (cliprasterbymasklayer ps)) /\
  (forall p, only_Exception (raster_isValid p)) /\
  (forall p, only_Exception (render_gray_and_add p)).

(** A computation that raises only instances of [Exception]. *)
Definition safe {World A : Type} (m : M World A) : Prop :=
  forall s e s', m s = (Raise e, s') -> is_Exception e = true.

(** The log and the trace are append-only. *)
Definition ext {World : Type} (s s' : State World) : Prop :=
  log (ui s) `prefix_of` log (ui s') /\ trace s `prefix_of` trace s'.

Definition extends {World A : Type} (m : M World A) : Prop :=
  forall s, ext s (m s).2.

Definition keeps_log (f : UI -> UI) : Prop := forall u, log (f u) = log u.

(** A computation all of whose recorded external calls satisfy [P]. *)
Definition trace_adds {World A : Type} (P : io_event -> Prop) (m : M World A) : Prop :=
  forall s, exists added, trace (m s).2 = trace s ++ added /\ Forall P added.

(** An event that, if it is a network request, requests the URL [u]. *)
Definition requests_only (u : str) (ev : io_event) : Prop :=
  forall v, ev = IoGet v -> v = u.


Definition slash_free (t : str) : bool :=
  forallb (fun c => negb (Ascii.eqb c slash)) t.

(** What the batch reports once the loop is over: the last log line and the
    status text. *)
Definition completion_report {World : Type} (s : State World) : option str * str :=
  (last (log (ui s)), status (ui s)).

(** ** A small concrete world, for running the model *)

Module Demo.
(** Geometries are numbered, a negative one cannot be reprojected; the
    world counts the network requests, and the second one fails. *)
Definition cell (g : Z) : bbox_t :=
  (float_of_int g, float_of_int g, float_of_int (g + 1), float_of_int (g + 1)).

Definition reply_of (n : nat) : Reply :=
  if (n =? 1)%nat
  then mk_Reply [downloadProgress 1 4; readyRead [Byte.x49]] 3 (lit "Host not found")
  else mk_Reply [downloadProgress 2 4; readyRead [Byte.x49; Byte.x49];
                 downloadProgress 4 4; readyRead [Byte.x2a; Byte.x00]] 0 [].

#[export] Instance collab : Collab Z unit nat := {|
  writableLocation _ := lit "/tmp";
  mkdir _ w := (Ok tt, w);
  multiparttosingleparts l w := (Ok l, w);
  transform g _ w :=
    if g <? 0 then (Raise (mk_exn OtherException (lit "cannot transform")), w)
    else (Ok g, w);
  boundingBox := cell;
  writeAsVectorFormatV2 _ _ w := (Ok (WTuple NoError []), w);
  nam_get _ w := (reply_of w, S w);
  open_wb _ w := (Ok tt, w);
  cliprasterbymasklayer _ w := (Ok tt, w);
  raster_isValid _ w := (Ok true, w);
  render_gray_and_add _ w := (Ok tt, w)
|}.

Definition start : State nat := mk_State 0%nat ∅ [] (mk_UI [] [] (0, 0) 0).

Definition layer_of (gs : list Z) : QgsVectorLayer Z unit :=
  mk_QgsVectorLayer (lit "parcels") tt (map mk_QgsFeature gs).

Definition tmp_root : Path := Path_of (lit "/tmp/CEM_QGIS_Temp/wcs_parcels_30m").
End Demo.

(** *** Runs in the demo world *)

Module DemoRuns.
Import Demo.

(** The batch over the geometries [gs] at 30 m, both widgets present. *)
Definition run (gs : list Z) : result unit * State nat :=
  download_poligono_wcs_split_per_polygon (layer_of gs) 30 true true start.

(** The state in which that batch enters its loop. *)
Definition loop_entry (gs : list Z) : State nat :=
  (bind (_explode_to_singleparts (layer_of gs))
     (fun _ => batch_setup (layer_of gs) 30 true true (Z.of_nat (length gs)))
     start).2.

(** The polygons of that batch whose pipeline raised. *)
Definition failed (gs : list Z) : list (Z * exn) :=
  failures (layer_of gs) 30 true true (layer_of gs) tmp_root
    (Z.of_nat (length gs)) 1 (getFeatures (layer_of gs)) (loop_entry gs).
End DemoRuns.

(** The claim that the report made on completion states the number of
    succeeded polygons, the number of failed ones and the failed indices with
    their detail: some reading of the report recovers them for every run. *)
Definition completion_report_states_outcome : Prop :=
  exists decode : option str * str -> nat * nat * list (Z * str),
    forall gs : list Z,
      decode (completion_report (DemoRuns.run gs).2)
      = ((length gs - length (DemoRuns.failed gs))%nat,
         length (DemoRuns.failed gs),
         map (fun ke => (ke.1, exn_msg ke.2)) (DemoRuns.failed gs)).



(** ** The order of the external calls of one polygon *)

(** The calls the pipeline of polygon [i] makes when nothing fails: two
    reprojections (bounding box, mask), the mask export, the request, the
    opening of the raw file, the clip, the raster load and its styling. *)
Definition polygon_protocol {Geometry CRS : Type} (layer : QgsVectorLayer Geometry CRS)
    (res_m : Z) (tmp_root : Path) (i : Z) (url : str) : list io_event :=
  let tif_raw := path_str (tif_raw_path tmp_root i) in
  let mask_geojson := path_str (mask_geojson_path tmp_root i) in
  let out_tif := path_str (out_tif_path layer res_m tmp_root i) in
  [ IoTransform; IoTransform; IoWriteVector mask_geojson; IoGet url; IoOpen tif_raw;
    IoClip (mk_clip_params tif_raw mask_geojson true true NODATA_VALUE true out_tif);
    IoRasterLayer out_tif; IoRender out_tif ].

Definition is_get (ev : io_event) : bool :=
  match ev with IoGet _ => true | _ => false end.

(** Number of network requests among recorded calls. *)
Definition count_gets (evs : list io_event) : nat := length (List.filter is_get evs).

(** The progress reports of a reply, in order. *)
Fixpoint progress_reports (sigs : list reply_signal) : list (Z * Z) :=
  match sigs with
  | [] => []
  | readyRead _ :: rest => progress_reports rest
  | downloadProgress br bt :: rest => (br, bt) :: progress_reports rest
  end.

(** The code and the message [_write_single_polygon_geojson_4326] reads off
    what the writer returned. *)
Definition writer_code (r : writer_return) : Z :=
  match r with WCode c => c | WTuple c _ => c end.

Definition writer_message (r : writer_return) : str :=
  match r with WTuple _ (m :: _) => m | _ => [] end.

(** The three verdict lines a polygon can end with. *)
Definition ok_line {Geometry CRS : Type} (layer : QgsVectorLayer Geometry CRS)
    (res_m : Z) (tmp_root : Path) (total i : Z) : str :=
  tag i total ++ lit " OK → " ++ path_str (out_tif_path layer res_m tmp_root i).

Definition invalid_line {Geometry CRS : Type} (layer : QgsVectorLayer Geometry CRS)
    (res_m : Z) (tmp_root : Path) (total i : Z) : str :=
  tag i total ++ lit " Archivo inválido (no cargado): " ++
  path_str (out_tif_path layer res_m tmp_root i).

(** *** A demo world with switchable faults *)

Module Faulty.
Record faults := mk_faults {
  bad_mask : bool;      (* the mask export reports an error *)
  bad_open : bool;      (* the raw file cannot be opened *)
  bad_raster : bool;    (* the clipped raster does not load *)
  interrupted : bool    (* the clip is interrupted from the keyboard *)
}.

Definition none : faults := mk_faults false false false false.

Definition collab (fl : faults) : Collab Z unit nat := {|
  writableLocation _ := lit "/tmp";
  mkdir _ w := (Ok tt, w);
  multiparttosingleparts l w := (Ok l, w);
  transform g _ w :=
    if g <? 0 then (Raise (mk_exn OtherException (lit "cannot transform")), w)
    else (Ok g, w);
  boundingBox := Demo.cell;
  writeAsVectorFormatV2 _ _ w :=
    (Ok (if bad_mask fl then WTuple 2 [lit "No space left on device"]
         else WCode NoError), w);
  nam_get _ w := (Demo.reply_of w, S w);
  open_wb _ w :=
    (if bad_open fl then Raise (mk_exn OSError (lit "Permission denied")) else Ok tt, w);
  cliprasterbymasklayer _ w :=
    (if interrupted fl then Raise (mk_exn NonException (lit "KeyboardInterrupt"))
     else Ok tt, w);
  raster_isValid _ w := (Ok (negb (bad_raster fl)), w);
  render_gray_and_add _ w := (Ok tt, w)
|}.
End Faulty.

(** *** Predicates on computations, for the order of calls and the widgets *)

(** On a normal return the computation has made exactly the calls [done];
    when it raises it has made the first ones of them. *)
Definition makes_calls {World A : Type} (done : list io_event) (m : M World A) : Prop :=
  forall s,
    match m s with
    | (Ok _, s') => trace s' = trace s ++ done
    | (Raise _, s') => exists calls, trace s' = trace s ++ calls /\ calls `prefix_of` done
    end.

(** Whatever happens, the calls made are the first ones of [proto]. *)
Definition stays_within {World A : Type} (proto : list io_event) (m : M World A) : Prop :=
  forall s, exists calls, trace (m s).2 = trace s ++ calls /\ calls `prefix_of` proto.

(** A normal return leaves one of the lines [L] at the end of the log. *)
Definition ends_with {World A : Type} (L : list str) (m : M World A) : Prop :=
  forall s a s', m s = (Ok a, s') -> exists l, last (log (ui s')) = Some l /\ l ∈ L.

(** The widgets before and after the computation are related by [R]. *)
Definition ui_related {World A : Type} (R : UI -> UI -> Prop) (m : M World A) : Prop :=
  forall s, R (ui s) (ui (m s).2).

Definition same_status (u u' : UI) : Prop := status u' = status u.

Definition same_progress (u u' : UI) : Prop :=
  progress_value u' = progress_value u /\ progress_range u' = progress_range u.

Definition same_range (u u' : UI) : Prop := progress_range u' = progress_range u.

(** * The state downloader of [estado_descarga.py]

    Its [plugin_temp_dir], [log_append], [human_size],
    [http_get_to_file_progress] and [add_raster_gray_with_stats] are the same
    code as in [poligono_wcs.py]; the definitions above stand for both. *)

(** A collaborator call that is not recorded in the trace. *)
Definition untraced {World A : Type} (f : World -> result A * World) : M World A :=
  fun s =>
    let '(r, w) := f (world s) in
    (r, mk_State w (files s) (trace s) (ui s)).

(** The ZIP archive and the directory tree. *)
Class ZipCollab (World : Type) := {
  (** [zipfile.ZipFile(zip_path, "r").extractall(out_dir)] *)
  extractall : str -> str -> World -> result unit * World;
  (** [os.walk(root)]: each directory with its file names, in walk order *)
  os_walk : str -> World -> list (str * list str)
}.

Module Estado.

Definition BASE_URL : str :=
  lit "https://www.inegi.org.mx/app/geo2/elevacionesmex/DownloadFile.do".
Definition BUILD_TAG : str := lit "20170619".
Definition RES_LIST : list Z := [15; 30; 60; 90; 120].

(** [c.lower()] for the letters A to Z; the extensions tested below are
    ASCII, and no other character lowers to one of their letters. *)
Definition lower_char (c : ascii) : ascii :=
  let k := N_of_ascii c in
  if ((65 <=? k) && (k <=? 90))%N then ascii_of_N (k + 32) else c.

Definition lower (s : str) : str := map lower_char s.

(** [s.rfind(c)] *)
Fixpoint rfind (c : ascii) (s : str) : option nat :=
  match s with
  | [] => None
  | a :: t =>
      match rfind c t with
      | Some j => Some (S j)
      | None => if Ascii.eqb a c then Some 0%nat else None
      end
  end.

(** [PurePath.name]: the last component. *)
Definition path_name (p : Path) : str :=
  match last (parts p) with Some n => n | None => [] end.

(** [PurePath.suffix] (pathlib of Python up to 3.13): the text from the last
    dot of the name, unless that dot is the first or the last character. *)
Definition path_suffix (p : Path) : str :=
  let name := path_name p in
  match rfind "." name with
  | Some i => if (0 <? i)%nat && (i <? length name - 1)%nat then drop i name else []
  | None => []
  end.

Definition exts : list str := [lit ".tif"; lit ".tiff"; lit ".bil"; lit ".img"].

(** [Path(fn).suffix.lower() in exts] *)
Definition is_raster_name (fn : str) : bool :=
  bool_decide (lower (path_suffix (Path_of fn)) ∈ exts).

(** The list [guess_raster_files] builds from what [os.walk] yields. *)
Definition raster_paths (walk : list (str * list str)) : list Path :=
  flat_map (fun rf => map (fun fn => path_div (Path_of rf.1) fn)
                        (List.filter is_raster_name rf.2)) walk.

(** The file name requested from INEGI. *)
Definition estado_fname (cve_edo : str) (res_m : Z) : str :=
  if res_m =? 15
  then lit "CEM_V3_" ++ BUILD_TAG ++ lit "_R" ++ str_of_int res_m ++ lit "_E" ++
       cve_edo ++ lit "_TIF.zip"
  else lit "CEM_V3_" ++ BUILD_TAG ++ lit "_R" ++ str_of_int res_m ++ lit "_E" ++
       cve_edo ++ lit ".zip".

Definition build_estado_url (entidad cve_edo : str) (res_m : Z) : QUrl :=
  let fname := estado_fname cve_edo res_m in
  let q := [] in
  let q := addQueryItem (lit "file") fname q in
  let q := addQueryItem (lit "res") (str_of_int res_m) q in
  let q := addQueryItem (lit "entidad") entidad q in
  mk_QUrl BASE_URL q.

(** The closure [_cb] of [download_estado_with_progress]. *)
Definition _cb (br bt : Z) (u : UI) : UI :=
  if bt <=? 0 then
    ui_setText (lit "Descargando… " ++ human_size br) (ui_setRange 0 0 u)
  else
    let u := ui_setRange 0 100 u in
    let pct := int_of_float (float_of_int br * 100.0 / float_of_int (Z.max 1 bt))%float in
    let u := ui_setValue pct u in
    ui_setText (lit "Descargando… " ++ str_of_int pct ++ lit "%  (" ++
                human_size br ++ lit "/" ++ human_size bt ++ lit ")") u.

Section Download.
Context {Geometry CRS World : Type} {collab : Collab Geometry CRS World}
        {zips : ZipCollab World}.
(** [url.toString()], Qt's rendering of a URL whose items are arbitrary text. *)
Variable url_text : QUrl -> str.

Definition unzip_all (zip_path out_dir : Path) : M World unit :=
  untraced (extractall (path_str zip_path) (path_str out_dir)).

Definition guess_raster_files (root : Path) : M World (list Path) :=
  fun s => (Ok (raster_paths (os_walk (path_str root) (world s))), s).

(** The lines logged for a raster, loaded or not. *)
Definition added_line (rpath : Path) : str :=
  lit "Agregado al proyecto (Gris monobanda): " ++ path_str rpath.

Definition not_loaded_line (rpath : Path) : str :=
  lit "Archivo inválido (no cargado): " ++ path_str rpath.

(** One turn of the loop over the rasters found. *)
Definition add_one_raster (i : Z) (rpath : Path) : M World unit :=
  ok <~ add_raster_gray_with_stats rpath ;;
  (if ok then log_append (added_line rpath) else log_append (not_loaded_line rpath)) ;;;
  on_ui (ui_setValue i).

Definition done_text : str := lit "Listo. Recuerda: los archivos están en carpeta TEMP.".

(** The directory of a state download inside the plugin's directory [d], and
    the archive saved in it. *)
Definition estado_dir (d : Path) (cve : str) (res_m : Z) : Path :=
  path_div d (lit "estado_" ++ cve ++ lit "_" ++ str_of_int res_m ++ lit "m").

Definition estado_zip (d : Path) (cve : str) (res_m : Z) : Path :=
  path_div (estado_dir d cve res_m) (lit "cem_estado.zip").

(** The body of the [try] block. *)
Definition estado_pipeline (entidad cve : str) (res_m : Z) : M World unit :=
  let url := build_estado_url entidad cve res_m in
  log_append (lit "URL: " ++ url_text url) ;;;
  d <~ plugin_temp_dir ;;
  let tmp_dir := estado_dir d cve res_m in
  call (IoMkdir (path_str tmp_dir)) (mkdir (path_str tmp_dir)) ;;;
  let zip_path := estado_zip d cve res_m in
  on_ui (ui_setText (lit "Conectando a INEGI…")) ;;;
  on_ui (ui_setRange 0 0) ;;;
  on_ui (ui_setValue 0) ;;;
  log_append (lit "Descargando ZIP a: " ++ path_str zip_path) ;;;
  http_get_to_file_progress url zip_path (Some _cb) ;;;
  on_ui (ui_setRange 0 100) ;;;
  on_ui (ui_setValue 100) ;;;
  on_ui (ui_setText (lit "Descarga completa. Descomprimiendo…")) ;;;
  log_append (lit "Descomprimiendo…") ;;;
  unzip_all zip_path tmp_dir ;;;
  on_ui (ui_setText (lit "Buscando rásters en el ZIP…")) ;;;
  rasters <~ guess_raster_files tmp_dir ;;
  match rasters with
  | [] =>
      on_ui (ui_setText (lit "No se encontraron rásters en el ZIP.")) ;;;
      log_append (lit "No se encontraron rásters dentro del ZIP.")
  | _ =>
      on_ui (ui_setText (lit "Agregando rásters al proyecto…")) ;;;
      on_ui (ui_setRange 0 (Z.of_nat (length rasters))) ;;;
      on_ui (ui_setValue 0) ;;;
      for_each 1 rasters add_one_raster ;;;
      on_ui (ui_setText done_text) ;;;
      log_append done_text
  end.

(** The [except Exception] clause. *)
Definition estado_handler (e : exn) : M World unit :=
  on_ui (ui_setRange 0 100) ;;;
  on_ui (ui_setValue 0) ;;;
  on_ui (ui_setText (lit "Error.")) ;;;
  log_append (lit "ERROR: " ++ exn_msg e).

Definition download_estado_with_progress (entidad cve : str) (res_m : Z) : M World unit :=
  try_except_finally (estado_pipeline entidad cve res_m) estado_handler (ret tt).

(** The collaborators called inside the [try] block raise nothing outside
    [Exception]. *)
Definition raises_only_Exception : Prop :=
  (forall p, only_Exception (mkdir p)) /\
  (forall p, only_Exception (open_wb p)) /\
  (forall z o, only_Exception (extractall z o)) /\
  (forall p, only_Exception (raster_isValid p)) /\
  (forall p, only_Exception (render_gray_and_add p)).
End Download.

(** The line logged for a raster, by the answer of the loader. *)
Definition raster_line (rpath : Path) (ok : bool) : str :=
  if ok then added_line rpath else not_loaded_line rpath.

(** The three ways a state download can end, as the widgets show them. *)
Inductive verdict (u : UI) : Prop :=
  | NoRasters :
      last (log u) = Some (lit "No se encontraron rásters dentro del ZIP.") ->
      status u = lit "No se encontraron rásters en el ZIP." ->
      verdict u
  | Done :
      last (log u) = Some done_text -> status u = done_text -> verdict u
  | Failed (e : exn) :
      last (log u) = Some (lit "ERROR: " ++ exn_msg e) ->
      status u = lit "Error." ->
      progress_range u = (0, 100) ->
      progress_value u = 0 ->
      verdict u.
End Estado.

(** On a normal return the widgets satisfy [P]. *)
Definition leaves {World A : Type} (P : UI -> Prop) (m : M World A) : Prop :=
  forall s a s', m s = (Ok a, s') -> P (ui s').

(** A demo archive: two rasters, a sidecar file and a hidden file. *)
Module DemoZip.
#[export] Instance zips : ZipCollab nat := {|
  extractall _ _ w := (Ok tt, w);
  os_walk root _ :=
    [ (root, [lit "leeme.txt"; lit ".tif"]);
      (root ++ lit "/datos", [lit "cem_r15.TIF"; lit "cem_r15.tif.aux.xml"; lit "cem.bil"]) ]
|}.

Definition rasters : list Path :=
  [Path_of (lit "/tmp/e/cem_r15.TIF"); Path_of (lit "/tmp/e/cem.bil")].
End DemoZip.

(** * Properties *)

(** ** The demo world satisfies the assumptions *)

Lemma demo_raises_only_Exception : raises_only_Exception (collab:=Demo.collab).
Proof.
  repeat split; unfold only_Exception; intros;
    match goal with E : _ = (Raise _, _) |- _ => cbn in E; try discriminate E end.
  match goal with E : (if ?b then _ else _) = _ |- _ =>
    destruct b; [|discriminate E]; now injection E as <- _
  end.
Qed.

Lemma pair_with_fst {A B : Type} (p : A * B) (a : A) : p.1 = a -> p = (a, p.2).
Proof. destruct p. cbn. now intros ->. Qed.

Lemma demo_valid_resolution : 30 ∈ VALID_RES.
Proof. unfold VALID_RES. rewrite !elem_of_cons. auto. Qed.

(** ** Decimal digits *)

Lemma N_of_digit_char (n : N) : N_of_ascii (digit_char n) = (48 + n mod 10)%N.
Proof.
  unfold digit_char. apply N_ascii_embedding.
  pose proof (N.mod_upper_bound n 10 ltac:(lia)) as Hr.
  set (r := (n mod 10)%N) in *. clearbody r. lia.
Qed.

Lemma is_digit_digit_char (n : N) : is_digit (digit_char n) = true.
Proof.
  unfold is_digit. rewrite N_of_digit_char.
  pose proof (N.mod_upper_bound n 10 ltac:(lia)) as Hr.
  set (r := (n mod 10)%N) in *. clearbody r.
  apply andb_true_intro; split; apply N.leb_le; lia.
Qed.

Lemma length_fixed_digits (w : nat) (n : N) : length (fixed_digits w n) = w.
Proof.
  revert n; induction w as [|w IH]; intros n; simpl; [reflexivity|].
  rewrite length_app, IH. simpl. lia.
Qed.

Lemma forallb_fixed_digits (w : nat) (n : N) :
  forallb is_digit (fixed_digits w n) = true.
Proof.
  revert n; induction w as [|w IH]; intros n; simpl; [reflexivity|].
  rewrite forallb_app, IH. simpl. now rewrite is_digit_digit_char.
Qed.

Lemma digits_value_snoc (s : str) (c : ascii) :
  digits_value (s ++ [c]) = (10 * digits_value s + (N_of_ascii c - 48))%N.
Proof. unfold digits_value. now rewrite fold_left_app. Qed.

Lemma digits_value_fixed_digits (w : nat) (n : N) :
  digits_value (fixed_digits w n) = (n mod 10 ^ N.of_nat w)%N.
Proof.
  revert n; induction w as [|w IH]; intros n.
  - simpl. now rewrite N.mod_1_r.
  - cbn [fixed_digits]. rewrite digits_value_snoc, IH, N_of_digit_char.
    rewrite Nat2N.inj_succ, N.pow_succ_r'.
    rewrite (N.add_comm 48), N.add_sub.
    rewrite N.Div0.mod_mul_r. apply N.add_comm.
Qed.

Lemma count_digits_pos (fuel : nat) (n : N) : (1 <= count_digits fuel n)%nat.
Proof. destruct fuel; simpl; [lia|]. destruct (n <? 10)%N; lia. Qed.

Lemma count_digits_bound (fuel : nat) (n : N) :
  (n < 2 ^ N.of_nat fuel)%N -> (n < 10 ^ N.of_nat (count_digits fuel n))%N.
Proof.
  revert n; induction fuel as [|fuel IH]; intros n Hn.
  - simpl in *. lia.
  - cbn [count_digits]. destruct (N.ltb_spec n 10) as [Hlt|Hge]; [simpl; lia|].
    rewrite Nat2N.inj_succ, N.pow_succ_r' in Hn.
    rewrite Nat2N.inj_succ, N.pow_succ_r'.
    pose proof (N.div_mod n 10 ltac:(lia)) as Hdm.
    pose proof (N.mod_upper_bound n 10 ltac:(lia)) as Hr.
    set (q := (n / 10)%N) in *. set (r := (n mod 10)%N) in *.
    clearbody q r.
    assert (q < 2 ^ N.of_nat fuel)%N as Hdiv by lia.
    specialize (IH _ Hdiv). lia.
Qed.

Lemma size_nat_size (n : N) : N.of_nat (N.size_nat n) = N.size n.
Proof.
  destruct n as [|p]; [reflexivity|]. cbn [N.size_nat N.size].
  induction p as [p IH|p IH|]; cbn [Pos.size_nat Pos.size]; try reflexivity;
    rewrite Nat2N.inj_succ, IH; reflexivity.
Qed.

Lemma num_digits_bound (n : N) : (n < 10 ^ N.of_nat (num_digits n))%N.
Proof.
  apply count_digits_bound. rewrite size_nat_size. apply N.size_gt.
Qed.

Lemma num_digits_pos (n : N) : (1 <= num_digits n)%nat.
Proof. apply count_digits_pos. Qed.

Lemma digits_value_fixed_wide (w : nat) (n : N) :
  (num_digits n <= w)%nat -> digits_value (fixed_digits w n) = n.
Proof.
  intros Hw. rewrite digits_value_fixed_digits. apply N.mod_small.
  eapply N.lt_le_trans; [apply num_digits_bound|].
  apply N.pow_le_mono_r; lia.
Qed.



Lemma fixed_digits_last (w : nat) (n : N) :
  fixed_digits (S w) n = fixed_digits w (n / 10) ++ [digit_char n].
Proof. reflexivity. Qed.

Lemma format_0wd_digits_nonneg (w : nat) (i : Z) :
  0 <= i -> forallb is_digit (format_0wd w i) = true.
Proof.
  intros Hi. unfold format_0wd.
  destruct (Z.ltb_spec i 0); [lia|]. apply forallb_fixed_digits.
Qed.

(** Zero padding never merges two integers: the rendering [f"{i:0{w}d}"]
    determines [i]. *)
Lemma format_0wd_inj (w : nat) (i j : Z) :
  (1 <= w)%nat -> format_0wd w i = format_0wd w j -> i = j.
Proof.
  intros Hw. unfold format_0wd.
  assert (Hneg : forall k (n m : N),
             lit "-" ++ fixed_digits k n <> fixed_digits (Nat.max w (num_digits m)) m).
  { intros k n m E.
    pose proof (forallb_fixed_digits (Nat.max w (num_digits m)) m) as Hd.
    rewrite <- E in Hd. discriminate Hd. }
  destruct (Z.ltb_spec i 0) as [Hi|Hi], (Z.ltb_spec j 0) as [Hj|Hj]; intros E.
  - apply (app_inv_head (lit "-")) in E.
    apply (f_equal digits_value) in E.
    rewrite !digits_value_fixed_wide in E by lia. lia.
  - now apply Hneg in E.
  - symmetry in E. now apply Hneg in E.
  - apply (f_equal digits_value) in E.
    rewrite !digits_value_fixed_wide in E by lia. lia.
Qed.

(** ** Fixed-point text *)





(** ** ResolutionMapper *)

Lemma elem_of_VALID_RES (res_m : Z) :
  res_m ∈ VALID_RES <->
  res_m = 15 \/ res_m = 30 \/ res_m = 60 \/ res_m = 90 \/ res_m = 120.
Proof.
  unfold VALID_RES. rewrite !elem_of_cons, elem_of_nil. tauto.
Qed.

Lemma table_lookup_valid (res_m : Z) :
  res_m ∈ VALID_RES -> is_Some (table !! res_m).
Proof.
  intros H. apply elem_of_VALID_RES in H.
  destruct H as [-> | [-> | [-> | [-> | ->]]]]; vm_compute; eauto.
Qed.

Lemma table_lookup_invalid (res_m : Z) :
  res_m ∉ VALID_RES -> table !! res_m = None.
Proof.
  intros H. rewrite elem_of_VALID_RES in H. unfold table.
  rewrite !lookup_insert_ne by lia.
  apply lookup_singleton_ne. lia.
Qed.

(** C3. [meters_to_deg_step] returns 0.5/3600 for 15, 1/3600 for 30, 2/3600
    for 60, 3/3600 for 90 and 4/3600 for 120 (binary64 quotients), and raises
    the invalid-resolution [ValueError] for every other input. *)
Theorem meters_to_deg_step_spec (res_m : Z) :
  meters_to_deg_step 15 = Ok (0.5 / 3600)%float /\
  meters_to_deg_step 30 = Ok (1.0 / 3600)%float /\
  meters_to_deg_step 60 = Ok (2.0 / 3600)%float /\
  meters_to_deg_step 90 = Ok (3.0 / 3600)%float /\
  meters_to_deg_step 120 = Ok (4.0 / 3600)%float /\
  (res_m ∉ VALID_RES -> meters_to_deg_step res_m = Raise invalid_resolution_step).
Proof.
  repeat split; try reflexivity.
  intros H. unfold meters_to_deg_step. now rewrite table_lookup_invalid.
Qed.

Lemma meters_to_deg_step_spec_witness :
  (45 ∉ VALID_RES) /\ meters_to_deg_step 45 = Raise invalid_resolution_step.
Proof.
  assert (H : 45 ∉ VALID_RES).
  { rewrite elem_of_VALID_RES. lia. }
  split; [exact H|].
  exact (proj2 (proj2 (proj2 (proj2 (proj2 (meters_to_deg_step_spec 45))))) H).
Defined.

Lemma meters_to_deg_step_valid (res_m : Z) :
  res_m ∈ VALID_RES -> exists step, meters_to_deg_step res_m = Ok step.
Proof.
  intros H. unfold meters_to_deg_step.
  destruct (table_lookup_valid res_m H) as [a ->]. eauto.
Qed.

Lemma build_url_valid (bbox : bbox_t) (res_m : Z) :
  res_m ∈ VALID_RES -> exists url, build_wcs_getcoverage_url bbox res_m = Ok url.
Proof.
  intros H. unfold build_wcs_getcoverage_url.
  destruct bbox as [[[minx miny] maxx] maxy].
  destruct (meters_to_deg_step_valid res_m H) as [step ->]. eauto.
Qed.

(** C9. Once the entry check [res_m in VALID_RES] has passed, the two calls
    of [meters_to_deg_step] made for each polygon, the direct one and the one
    inside [build_wcs_getcoverage_url], return a value and never raise. *)
Theorem step_lookup_cannot_fail_in_loop (res_m : Z) (bbox : bbox_t) :
  res_m ∈ VALID_RES ->
  (exists step, meters_to_deg_step res_m = Ok step) /\
  (exists url, build_wcs_getcoverage_url bbox res_m = Ok url) /\
  meters_to_deg_step res_m <> Raise invalid_resolution_step.
Proof.
  intros H. split; [|split].
  - now apply meters_to_deg_step_valid.
  - now apply build_url_valid.
  - destruct (meters_to_deg_step_valid res_m H) as [step ->]. discriminate.
Qed.

Lemma step_lookup_cannot_fail_in_loop_witness :
  (exists step, meters_to_deg_step 30 = Ok step) /\
  (exists url, build_wcs_getcoverage_url (1, 2, 3, 4)%float 30 = Ok url) /\
  meters_to_deg_step 30 <> Raise invalid_resolution_step.
Proof.
  apply (step_lookup_cannot_fail_in_loop 30 (1, 2, 3, 4)%float).
  apply elem_of_VALID_RES. lia.
Defined.

(** ** CoverageRequestBuilder *)





(** ** Scratch paths *)

Lemma slash_free_app (a b : str) :
  slash_free (a ++ b) = slash_free a && slash_free b.
Proof. apply forallb_app. Qed.

Lemma digits_slash_free (t : str) : forallb is_digit t = true -> slash_free t = true.
Proof.
  induction t as [|c t IH]; simpl; [reflexivity|].
  intros H. apply andb_prop in H as [Hc Ht]. rewrite (IH Ht), andb_true_r.
  destruct (Ascii.eqb_spec c slash) as [->|]; [discriminate Hc|reflexivity].
Qed.

Lemma fixed_digits_slash_free (w : nat) (n : N) : slash_free (fixed_digits w n) = true.
Proof. apply digits_slash_free, forallb_fixed_digits. Qed.

Lemma format_0wd_slash_free (w : nat) (i : Z) : slash_free (format_0wd w i) = true.
Proof.
  unfold format_0wd. destruct (i <? 0).
  - rewrite slash_free_app, fixed_digits_slash_free. reflexivity.
  - apply fixed_digits_slash_free.
Qed.

Lemma str_of_int_slash_free (i : Z) : slash_free (str_of_int i) = true.
Proof.
  unfold str_of_int, str_of_N. destruct (i <? 0).
  - rewrite slash_free_app, fixed_digits_slash_free. reflexivity.
  - apply fixed_digits_slash_free.
Qed.

Lemma split_on_free (t : str) : slash_free t = true -> split_on slash t = [t].
Proof.
  induction t as [|c t IH]; simpl; [reflexivity|].
  intros H. apply andb_prop in H as [Hc Ht]. apply negb_true_iff in Hc.
  now rewrite Hc, (IH Ht).
Qed.

Lemma split_on_app_free (l t : str) :
  slash_free t = true ->
  exists ps p, split_on slash l = ps ++ [p] /\ split_on slash (l ++ t) = ps ++ [p ++ t].
Proof.
  intros Ht. induction l as [|a l (ps & p & E1 & E2)].
  - exists [], []. simpl. now rewrite split_on_free.
  - cbn [split_on app]. destruct (Ascii.eqb a slash).
    + exists ([] :: ps), p. now rewrite E1, E2.
    + rewrite E1, E2. destruct ps as [|q ps]; simpl.
      * now exists [], (a :: p).
      * now exists ((a :: q) :: ps), p.
Qed.

Lemma path_root_app_free (l t1 t2 : str) :
  slash_free t1 = true -> slash_free t2 = true -> t1 <> [] -> t2 <> [] ->
  path_root (l ++ t1) = path_root (l ++ t2).
Proof.
  intros H1 H2 N1 N2.
  destruct t1 as [|x1 t1]; [contradiction|]. destruct t2 as [|x2 t2]; [contradiction|].
  simpl in H1, H2. apply andb_prop in H1 as [H1 _]. apply andb_prop in H2 as [H2 _].
  apply negb_true_iff in H1, H2.
  destruct l as [|a [|b [|c l]]]; cbn [app path_root].
  - destruct t1 as [|? [|? ?]], t2 as [|? [|? ?]]; now rewrite ?H1, ?H2.
  - destruct t1 as [|? ?], t2 as [|? ?]; rewrite ?H1, ?H2; now destruct (Ascii.eqb a slash).
  - now rewrite H1, H2.
  - reflexivity.
Qed.

Lemma join_snoc (sep : str) (ps : list str) (x : str) :
  join sep (ps ++ [x]) =
  match ps with [] => [] | _ => join sep ps ++ sep end ++ x.
Proof.
  induction ps as [|p ps IH]; [reflexivity|].
  destruct ps as [|q ps].
  - simpl. now rewrite <- app_assoc.
  - change (join sep ((p :: q :: ps) ++ [x]))
      with (p ++ sep ++ join sep ((q :: ps) ++ [x])).
    rewrite IH. change (join sep (p :: q :: ps)) with (p ++ sep ++ join sep (q :: ps)).
    now rewrite <- !app_assoc.
Qed.

Lemma path_str_snoc (a : str) (ps : list str) (x : str) :
  path_str (mk_Path a (ps ++ [x])) =
  (a ++ match ps with [] => [] | _ => join (lit "/") ps ++ lit "/" end) ++ x.
Proof.
  unfold path_str. cbn [anchor parts].
  rewrite <- app_assoc, <- join_snoc.
  destruct a; [|reflexivity]. destruct ps; reflexivity.
Qed.

Lemma keeps_part_long (p : str) : (2 <= length p)%nat -> keeps_part p = true.
Proof. destruct p as [|a [|b p]]; simpl; intros; try reflexivity; lia. Qed.

(** The text of [tmp_root / (l ++ t)] ends with [t], after a prefix that does
    not depend on [t], for every slash-free [t] of two characters or more. *)
Lemma path_str_div_tail (tmp_root : Path) (l : str) :
  exists Q, forall t,
    slash_free t = true -> (2 <= length t)%nat ->
    path_str (path_div tmp_root (l ++ t)) = Q ++ t.
Proof.
  destruct (split_on_app_free l (lit "xx") eq_refl) as (ps & p & Hl & _).
  set (F := List.filter keeps_part ps).
  exists (match path_root (l ++ (lit "xx")) with
          | [] => (anchor tmp_root ++
                   match parts tmp_root ++ F with
                   | [] => []
                   | qs => join (lit "/") qs ++ lit "/"
                   end) ++ p
          | r => (r ++ match F with [] => [] | qs => join (lit "/") qs ++ lit "/" end) ++ p
          end).
  intros t Ht Hlen.
  destruct (split_on_app_free l t Ht) as (ps' & p' & Hl' & Hlt).
  rewrite Hl in Hl'. apply app_inj_tail in Hl' as [<- <-].
  unfold path_div, Path_of. cbn [anchor parts].
  rewrite Hlt, List.filter_app.
  assert (Hkeep : List.filter keeps_part [p ++ t] = [p ++ t]).
  { cbn [List.filter]. rewrite keeps_part_long; [reflexivity|].
    rewrite length_app. lia. }
  rewrite Hkeep. fold F.
  assert (Hne : t <> []) by (intros ->; simpl in Hlen; lia).
  assert (Hxx : lit "xx" <> []) by (intros E; discriminate E).
  rewrite (path_root_app_free l t (lit "xx") Ht eq_refl Hne Hxx).
  destruct (path_root (l ++ (lit "xx"))) as [|r0 r].
  - rewrite (app_assoc (parts tmp_root)), path_str_snoc. cbn [anchor].
    rewrite <- (app_assoc _ p t). now destruct (parts tmp_root ++ F).
  - rewrite path_str_snoc. rewrite <- (app_assoc _ p t). now destruct F.
Qed.

Lemma format_0wd_last (w : nat) (i : Z) :
  (1 <= w)%nat -> exists Y, format_0wd w i = Y ++ [digit_char (Z.abs_N i)].
Proof.
  intros Hw. unfold format_0wd. pose proof (num_digits_pos (Z.abs_N i)) as Hn.
  destruct (i <? 0).
  - destruct (Nat.max (w - 1) (num_digits (Z.abs_N i))) as [|m] eqn:E; [lia|].
    rewrite fixed_digits_last. eexists. now rewrite app_assoc.
  - destruct (Nat.max w (num_digits (Z.abs_N i))) as [|m] eqn:E; [lia|].
    rewrite fixed_digits_last. eauto.
Qed.

Lemma tif_raw_shape (tmp_root : Path) :
  exists Q, forall k,
    path_str (tif_raw_path tmp_root k) =
    Q ++ lit "wcs_raw_poly_" ++ format_0wd 4 k ++ lit ".tif".
Proof.
  destruct (path_str_div_tail tmp_root []) as [Q HQ]. exists Q. intros k.
  apply (HQ (lit "wcs_raw_poly_" ++ format_0wd 4 k ++ lit ".tif")).
  - now rewrite !slash_free_app, format_0wd_slash_free.
  - rewrite length_app. simpl. lia.
Qed.

Lemma mask_geojson_shape (tmp_root : Path) :
  exists Q, forall k,
    path_str (mask_geojson_path tmp_root k) =
    Q ++ lit "mask_poly_" ++ format_0wd 4 k ++ lit ".geojson".
Proof.
  destruct (path_str_div_tail tmp_root []) as [Q HQ]. exists Q. intros k.
  apply (HQ (lit "mask_poly_" ++ format_0wd 4 k ++ lit ".geojson")).
  - now rewrite !slash_free_app, format_0wd_slash_free.
  - rewrite length_app. simpl. lia.
Qed.

Lemma out_tif_shape {Geometry CRS : Type} (layer : QgsVectorLayer Geometry CRS)
    (res_m : Z) (tmp_root : Path) :
  exists Q, forall k,
    path_str (out_tif_path layer res_m tmp_root k) =
    Q ++ lit "__poly" ++ format_0wd 4 k ++ lit "__cem_" ++ str_of_int res_m ++
    lit "m_clip.tif".
Proof.
  destruct (path_str_div_tail tmp_root (name layer)) as [Q HQ]. exists Q. intros k.
  apply (HQ (lit "__poly" ++ format_0wd 4 k ++ lit "__cem_" ++ str_of_int res_m ++
             lit "m_clip.tif")).
  - now rewrite !slash_free_app, format_0wd_slash_free, str_of_int_slash_free.
  - rewrite length_app. simpl. lia.
Qed.

(** Two texts that end in different five-character suffixes differ. *)
Lemma suffix_clash (x y s1 s2 : str) :
  length s1 = length s2 -> s1 <> s2 -> x ++ s1 <> y ++ s2.
Proof. intros Hlen Hne E. apply app_inj_2 in E as [_ E]; auto. Qed.

Lemma digit_char_not_p (n : N) : digit_char n <> "p"%char.
Proof. intros E. pose proof (is_digit_digit_char n) as H. rewrite E in H. discriminate H. Qed.

(** Exposes the last five characters of each side of a path disequality. *)
Ltac split_suffixes :=
  change (lit ".geojson") with (lit ".ge" ++ lit "ojson");
  change (lit "m_clip.tif") with (lit "m_cli" ++ lit "p.tif");
  rewrite <- ?app_assoc;
  repeat match goal with
         | |- context [[digit_char ?n] ++ lit ".tif"] =>
             let s := fresh "s" in
             set (s := [digit_char n] ++ lit ".tif")
         | |- context [lit "ojson"] =>
             let s := fresh "s" in set (s := lit "ojson")
         | |- context [lit "p.tif"] =>
             let s := fresh "s" in set (s := lit "p.tif")
         end;
  rewrite ?app_assoc;
  repeat match goal with s := _ |- _ => subst s end.

(** C10. Within one batch (one layer, one resolution, one scratch directory)
    the raw raster path, the mask path and the clipped output path of index
    [i] are all different from the three paths of any other index [j]. *)
Theorem scratch_paths_never_collide {Geometry CRS : Type}
    (layer : QgsVectorLayer Geometry CRS) (res_m : Z) (tmp_root : Path) (i j : Z) :
  i <> j ->
  let artifacts k :=
    [ path_str (tif_raw_path tmp_root k);
      path_str (mask_geojson_path tmp_root k);
      path_str (out_tif_path layer res_m tmp_root k) ] in
  forall p q, p ∈ artifacts i -> q ∈ artifacts j -> p <> q.
Proof.
  intros Hij artifacts p q Hp Hq.
  destruct (tif_raw_shape tmp_root) as [Qr Hr].
  destruct (mask_geojson_shape tmp_root) as [Qm Hm].
  destruct (out_tif_shape layer res_m tmp_root) as [Qo Ho].
  destruct (format_0wd_last 4 i ltac:(lia)) as [Yi Ei].
  destruct (format_0wd_last 4 j ltac:(lia)) as [Yj Ej].
  assert (Hinj : format_0wd 4 i <> format_0wd 4 j).
  { intros E. apply Hij. apply (format_0wd_inj 4); [lia|exact E]. }
  unfold artifacts in Hp, Hq. rewrite Hr, Hm, Ho in Hp, Hq.
  rewrite !elem_of_cons, elem_of_nil in Hp, Hq.
  destruct Hp as [-> | [-> | [-> | []]]], Hq as [-> | [-> | [-> | []]]].
  - intros E. apply app_inv_head, app_inv_head, app_inv_tail in E. contradiction.
  - rewrite Ei. split_suffixes. apply suffix_clash; [reflexivity|].
    intros E. cbn in E. congruence.
  - rewrite Ei. split_suffixes. apply suffix_clash; [reflexivity|].
    intros E. injection E as E. now apply digit_char_not_p in E.
  - apply not_eq_sym. rewrite Ej. split_suffixes. apply suffix_clash; [reflexivity|].
    intros E. cbn in E. congruence.
  - intros E. apply app_inv_head, app_inv_head, app_inv_tail in E. contradiction.
  - split_suffixes. apply suffix_clash; [reflexivity|discriminate].
  - apply not_eq_sym. rewrite Ej. split_suffixes. apply suffix_clash; [reflexivity|].
    intros E. injection E as E. now apply digit_char_not_p in E.
  - split_suffixes. apply suffix_clash; [reflexivity|discriminate].
  - intros E. apply app_inv_head, app_inv_head in E.
    rewrite !app_assoc in E. apply app_inv_tail, app_inv_tail, app_inv_tail in E.
    contradiction.
Qed.

Lemma scratch_paths_never_collide_witness :
  1 <> 2 /\
  forall p q,
    p ∈ [ path_str (tif_raw_path Demo.tmp_root 1);
          path_str (mask_geojson_path Demo.tmp_root 1);
          path_str (out_tif_path (Demo.layer_of [5; 7]) 30 Demo.tmp_root 1) ] ->
    q ∈ [ path_str (tif_raw_path Demo.tmp_root 2);
          path_str (mask_geojson_path Demo.tmp_root 2);
          path_str (out_tif_path (Demo.layer_of [5; 7]) 30 Demo.tmp_root 2) ] ->
    p <> q.
Proof.
  assert (H : 1 <> 2) by lia. split; [exact H|].
  exact (scratch_paths_never_collide (Demo.layer_of [5; 7]) 30 Demo.tmp_root 1 2 H).
Defined.

(** ** Reasoning about computations *)

Section Reasoning.
Context {World : Type}.
Implicit Types s : State World.

Lemma bind_Ok {A B : Type} (m : M World A) (k : A -> M World B) s a s1 :
  m s = (Ok a, s1) -> bind m k s = k a s1.
Proof. unfold bind. now intros ->. Qed.

Lemma bind_Raise {A B : Type} (m : M World A) (k : A -> M World B) s e s1 :
  m s = (Raise e, s1) -> bind m k s = (Raise e, s1).
Proof. unfold bind. now intros ->. Qed.

Lemma ext_refl s : ext s s.
Proof. split; reflexivity. Qed.

Lemma ext_trans s1 s2 s3 : ext s1 s2 -> ext s2 s3 -> ext s1 s3.
Proof. intros [? ?] [? ?]. split; etrans; eauto. Qed.

(** *** The log and the trace only grow *)

Lemma extends_ret {A : Type} (a : A) : extends (ret (World:=World) a).
Proof. intros s. apply ext_refl. Qed.

Lemma extends_raise {A : Type} (e : exn) : extends (raise (World:=World) (A:=A) e).
Proof. intros s. apply ext_refl. Qed.

Lemma extends_lift {A : Type} (r : result A) : extends (lift (World:=World) r).
Proof. intros s. apply ext_refl. Qed.

Lemma extends_bind {A B : Type} (m : M World A) (k : A -> M World B) :
  extends m -> (forall a, extends (k a)) -> extends (bind m k).
Proof.
  intros Hm Hk s. unfold bind. specialize (Hm s).
  destruct (m s) as [[a|e] s1]; [|exact Hm].
  eapply ext_trans; [exact Hm|apply Hk].
Qed.

Lemma extends_call {A : Type} (ev : io_event) (f : World -> result A * World) :
  extends (call ev f).
Proof.
  intros s. unfold call. destruct (f (world s)) as [r w]. split; cbn.
  - reflexivity.
  - now apply prefix_app_r.
Qed.

Lemma extends_on_ui (f : UI -> UI) :
  (forall u, log u `prefix_of` log (f u)) -> extends (on_ui (World:=World) f).
Proof. intros Hf s. split; cbn; [apply Hf|reflexivity]. Qed.

Lemma extends_on_files (f : gmap str File -> gmap str File) :
  extends (on_files (World:=World) f).
Proof. intros s. split; cbn; reflexivity. Qed.

Lemma extends_when (b : bool) (m : M World unit) : extends m -> extends (when b m).
Proof. intros Hm. destruct b; [exact Hm|apply extends_ret]. Qed.

Lemma extends_log_append (msg : str) : extends (log_append (World:=World) msg).
Proof. apply extends_on_ui. intros u. cbn. now apply prefix_app_r. Qed.

Lemma extends_try (body : M World unit) (handler : exn -> M World unit)
    (final : M World unit) :
  extends body -> (forall e, extends (handler e)) -> extends final ->
  extends (try_except_finally body handler final).
Proof.
  intros Hb Hh Hf s. unfold try_except_finally. specialize (Hb s).
  destruct (body s) as [[[]|e] s1]; cbn in Hb.
  - eapply ext_trans; [exact Hb|apply Hf].
  - assert (Hmid : ext s1 (if is_Exception e then handler e s1 else (Raise e, s1)).2).
    { destruct (is_Exception e); [apply Hh|apply ext_refl]. }
    destruct (if is_Exception e then handler e s1 else (Raise e, s1)) as [r s2].
    cbn in Hmid. pose proof (Hf s2) as Hfin.
    assert (ext s (final s2).2) by eauto using ext_trans.
    destruct r, (final s2) as [[[]|?] ?]; assumption.
Qed.

Lemma extends_for_each {A : Type} (body : Z -> A -> M World unit) (feats : list A) :
  (forall i f, extends (body i f)) -> forall i, extends (for_each i feats body).
Proof.
  intros Hb. induction feats as [|f feats IH]; intros i; cbn [for_each].
  - apply extends_ret.
  - apply extends_bind; [apply Hb|intros _; apply IH].
Qed.

(** *** Raising only instances of [Exception] *)

Lemma safe_ret {A : Type} (a : A) : safe (ret (World:=World) a).
Proof. intros s e s' E. discriminate E. Qed.

Lemma safe_raise {A : Type} (e : exn) :
  is_Exception e = true -> safe (raise (World:=World) (A:=A) e).
Proof. intros He s e' s' E. now injection E as <- _. Qed.

Lemma safe_lift {A : Type} (r : result A) :
  (forall e, r = Raise e -> is_Exception e = true) -> safe (lift (World:=World) r).
Proof. intros Hr s e s' E. injection E as E _. now apply Hr. Qed.

Lemma safe_bind {A B : Type} (m : M World A) (k : A -> M World B) :
  safe m -> (forall a, safe (k a)) -> safe (bind m k).
Proof.
  intros Hm Hk s e s' E. unfold bind in E.
  destruct (m s) as [[a|e1] s1] eqn:Em.
  - eapply Hk, E.
  - injection E as <- <-. eapply Hm, Em.
Qed.

Lemma safe_call {A : Type} (ev : io_event) (f : World -> result A * World) :
  only_Exception f -> safe (call ev f).
Proof.
  intros Hf s e s' E. unfold call in E.
  destruct (f (world s)) as [r w] eqn:Ef. injection E as -> _. eapply Hf, Ef.
Qed.

Lemma safe_on_ui (f : UI -> UI) : safe (on_ui (World:=World) f).
Proof. intros s e s' E. discriminate E. Qed.

Lemma safe_on_files (f : gmap str File -> gmap str File) : safe (on_files (World:=World) f).
Proof. intros s e s' E. discriminate E. Qed.

Lemma safe_when (b : bool) (m : M World unit) : safe m -> safe (when b m).
Proof. intros Hm. destruct b; [exact Hm|apply safe_ret]. Qed.

Lemma safe_log_append (msg : str) : safe (log_append (World:=World) msg).
Proof. apply safe_on_ui. Qed.

(** *** Loops *)

Lemma for_each_app {A : Type} (body : Z -> A -> M World unit) (l1 l2 : list A) i s :
  for_each i (l1 ++ l2) body s =
  match for_each i l1 body s with
  | (Ok _, s1) => for_each (i + Z.of_nat (length l1)) l2 body s1
  | (Raise e, s1) => (Raise e, s1)
  end.
Proof.
  revert i s. induction l1 as [|f l1 IH]; intros i s; cbn [app for_each length].
  - cbn. now rewrite Z.add_0_r.
  - unfold bind. destruct (body i f s) as [[[]|e] s1]; [|reflexivity].
    rewrite IH. now replace (i + 1 + Z.of_nat (length l1))
      with (i + Z.of_nat (S (length l1))) by lia.
Qed.
End Reasoning.

Create HintDb ext_db.
#[global] Hint Resolve extends_ret extends_raise extends_lift extends_call
  extends_on_files extends_log_append : ext_db.

Create HintDb safe_db.
#[global] Hint Resolve safe_ret safe_on_ui safe_on_files safe_log_append : safe_db.

(** One step of a proof that a composite computation is append-only. *)
Ltac ext_step :=
  match goal with
  | |- extends (bind _ _) => apply extends_bind; [|intros ?]
  | |- extends (when _ _) => apply extends_when
  | |- extends (on_ui _) => apply extends_on_ui; intros ?; cbn; reflexivity
  | |- extends (if ?b then _ else _) => destruct b
  | |- extends (match ?x with _ => _ end) => destruct x
  | |- extends _ => solve [auto with ext_db]
  end.

(** One step of a proof that a composite computation raises only
    instances of [Exception]. *)
Ltac safe_step :=
  match goal with
  | |- safe (bind _ _) => apply safe_bind; [|intros ?]
  | |- safe (when _ _) => apply safe_when
  | |- safe (call _ _) => apply safe_call
  | |- safe (raise _) => apply safe_raise; reflexivity
  | |- safe (if ?b then _ else _) => destruct b
  | |- safe (match ?x with _ => _ end) => destruct x
  | |- safe _ => solve [auto with safe_db]
  end.

(** ** The operations are append-only, and raise only what they are given *)

Section PipelineFacts.
Context {Geometry CRS World : Type} {collab : Collab Geometry CRS World}.
Implicit Types s : State World.

Lemma _cb_keeps_log (status_label : bool) (i total br bt : Z) :
  keeps_log (_cb status_label i total br bt).
Proof. intros u. unfold _cb. destruct status_label, (bt <=? 0); reflexivity. Qed.

Lemma extends_event_loop (p : str) (cb : option (Z -> Z -> UI -> UI))
    (sigs : list reply_signal) (received : Z) :
  (forall f br bt, cb = Some f -> keeps_log (f br bt)) ->
  extends (event_loop (World:=World) p cb sigs received).
Proof.
  intros Hcb. revert received.
  induction sigs as [|[chunk|br bt] sigs IH]; intros received; cbn [event_loop].
  - apply extends_ret.
  - apply extends_bind; [apply extends_on_files|intros _; apply IH].
  - apply extends_bind; [|intros _; apply IH].
    destruct cb as [f|]; [|apply extends_ret].
    apply extends_on_ui. intros u. now rewrite (Hcb f br bt eq_refl u).
Qed.

Lemma extends_http_get_to_file_progress (url : QUrl) (out_path : Path)
    (cb : option (Z -> Z -> UI -> UI)) :
  (forall f br bt, cb = Some f -> keeps_log (f br bt)) ->
  extends (http_get_to_file_progress url out_path cb).
Proof.
  intros Hcb. unfold http_get_to_file_progress, file_close.
  repeat first [apply extends_event_loop; exact Hcb | ext_step].
Qed.

Lemma extends_plugin_temp_dir : extends plugin_temp_dir.
Proof. unfold plugin_temp_dir. repeat ext_step. Qed.

Lemma extends_add_raster_gray_with_stats (path : Path) :
  extends (add_raster_gray_with_stats path).
Proof. unfold add_raster_gray_with_stats. repeat ext_step. Qed.

Lemma extends_write_mask (geom : Geometry) (src_crs : CRS) (out_path : Path) :
  extends (_write_single_polygon_geojson_4326 geom src_crs out_path).
Proof. unfold _write_single_polygon_geojson_4326. repeat ext_step. Qed.

Lemma extends_bbox (geom : Geometry) (src_crs : CRS) :
  extends (_bbox_4326_from_geom geom src_crs).
Proof. unfold _bbox_4326_from_geom. repeat ext_step. Qed.

Section Batch.
Variable layer : QgsVectorLayer Geometry CRS.
Variable res_m : Z.
Variables status_label progressbar : bool.
Variable single : QgsVectorLayer Geometry CRS.
Variable tmp_root : Path.
Variable total : Z.

Lemma extends_polygon_pipeline (i : Z) (f : QgsFeature Geometry) :
  extends (polygon_pipeline layer res_m status_label single tmp_root total i f).
Proof.
  unfold polygon_pipeline.
  repeat first
    [ apply extends_bbox | apply extends_write_mask
    | apply extends_add_raster_gray_with_stats
    | apply extends_http_get_to_file_progress;
      intros ? ? ? [= <-]; apply _cb_keeps_log
    | ext_step ].
Qed.

Lemma extends_polygon_step (i : Z) (f : QgsFeature Geometry) :
  extends (polygon_step layer res_m status_label progressbar single tmp_root total i f).
Proof.
  unfold polygon_step. apply extends_try.
  - apply extends_polygon_pipeline.
  - intros e. apply extends_log_append.
  - repeat ext_step.
Qed.

Lemma extends_batch_loop :
  extends (batch_loop layer res_m status_label progressbar single tmp_root total).
Proof. apply extends_for_each. apply extends_polygon_step. Qed.

Lemma extends_batch_setup : extends (batch_setup layer res_m status_label progressbar total).
Proof. unfold batch_setup. repeat first [apply extends_plugin_temp_dir | ext_step]. Qed.

Lemma extends_batch_finish :
  extends (batch_finish (World:=World) status_label progressbar).
Proof. unfold batch_finish. repeat ext_step. Qed.

(** *** Under well-behaved collaborators the pipeline raises only
    instances of [Exception] *)

Hypothesis Hcollab : raises_only_Exception.

Lemma safe_event_loop (p : str) (cb : option (Z -> Z -> UI -> UI))
    (sigs : list reply_signal) (received : Z) :
  safe (event_loop (World:=World) p cb sigs received).
Proof.
  revert received.
  induction sigs as [|[chunk|br bt] sigs IH]; intros received; cbn [event_loop].
  - apply safe_ret.
  - apply safe_bind; [apply safe_on_files|intros _; apply IH].
  - apply safe_bind; [|intros _; apply IH].
    destruct cb; auto with safe_db.
Qed.

Lemma safe_meters_to_deg_step (e : exn) :
  meters_to_deg_step res_m = Raise e -> is_Exception e = true.
Proof.
  unfold meters_to_deg_step. destruct (table !! res_m); [discriminate|].
  now intros [= <-].
Qed.

Lemma safe_build_url (bbox : bbox_t) (e : exn) :
  build_wcs_getcoverage_url bbox res_m = Raise e -> is_Exception e = true.
Proof.
  unfold build_wcs_getcoverage_url. destruct bbox as [[[? ?] ?] ?].
  destruct (meters_to_deg_step res_m) eqn:E; [discriminate|].
  intros [= <-]. eapply safe_meters_to_deg_step, E.
Qed.

Lemma safe_polygon_pipeline (i : Z) (f : QgsFeature Geometry) :
  safe (polygon_pipeline layer res_m status_label single tmp_root total i f).
Proof.
  destruct Hcollab as (Htr & Hwr & Hop & Hclip & Hvalid & Hrender).
  unfold polygon_pipeline, _bbox_4326_from_geom, _write_single_polygon_geojson_4326,
    http_get_to_file_progress, add_raster_gray_with_stats, file_close.
  repeat first
    [ apply safe_event_loop
    | apply safe_lift; first [apply safe_meters_to_deg_step | apply safe_build_url]
    | safe_step
    | apply Htr | apply Hwr | apply Hop | apply Hclip | apply Hvalid | apply Hrender
    | (intros w e w' E; destruct (nam_get _ w); discriminate E) ].
Qed.
End Batch.
End PipelineFacts.

(** ** BatchOrchestrator: the checks before the loop *)

Section BatchEntry.
Context {Geometry CRS World : Type} {collab : Collab Geometry CRS World}.
Implicit Types s : State World.
Variable layer : QgsVectorLayer Geometry CRS.
Variable res_m : Z.
Variables status_label progressbar : bool.

Lemma extends_after_explode (single : QgsVectorLayer Geometry CRS) :
  extends
    (let feats := getFeatures single in
     let total := Z.of_nat (length feats) in
     if total =? 0 then log_append (World:=World) (lit "La capa no contiene polígonos.")
     else
       tmp_root <~ batch_setup layer res_m status_label progressbar total ;;
       batch_loop layer res_m status_label progressbar single tmp_root total ;;;
       batch_finish status_label progressbar).
Proof.
  cbv zeta.
  repeat first
    [ apply extends_batch_setup | apply extends_batch_loop
    | apply extends_batch_finish | ext_step ].
Qed.

(** C2. A resolution outside {15, 30, 60, 90, 120} makes the batch entry
    point raise the invalid-resolution [ValueError] at once, leaving the
    whole state as it was: no collaborator is called, no file is written,
    nothing is logged.  For a resolution in the set the check passes and
    the first external call, the explosion to single parts, is made. *)
Theorem invalid_resolution_fails_before_any_io s :
  (res_m ∉ VALID_RES ->
   download_poligono_wcs_split_per_polygon layer res_m status_label progressbar s
   = (Raise invalid_resolution, s)) /\
  (res_m ∈ VALID_RES ->
   exists later,
     trace (download_poligono_wcs_split_per_polygon
              layer res_m status_label progressbar s).2
     = trace s ++ IoExplode (name layer) :: later).
Proof.
  unfold download_poligono_wcs_split_per_polygon. split; intros Hres.
  - now rewrite bool_decide_false.
  - rewrite bool_decide_true by assumption. cbn [negb].
    unfold bind at 1. unfold _explode_to_singleparts, call.
    destruct (multiparttosingleparts layer (world s)) as [[single|e] w].
    + destruct (extends_after_explode single
                  (mk_State w (files s) (trace s ++ [IoExplode (name layer)]) (ui s)))
        as [_ [later Hlater]].
      cbv zeta in Hlater. exists later.
      rewrite Hlater. cbn [trace]. now rewrite <- app_assoc.
    + exists []. reflexivity.
Qed.

(** C6. When the explosion to single parts yields no polygon, the batch
    logs the no-polygons message and returns normally; the explosion is the
    only external call made, and no file is touched. *)
Theorem empty_layer_is_a_success s (single : QgsVectorLayer Geometry CRS) s1 :
  res_m ∈ VALID_RES ->
  _explode_to_singleparts layer s = (Ok single, s1) ->
  getFeatures single = [] ->
  exists s',
    download_poligono_wcs_split_per_polygon layer res_m status_label progressbar s
    = (Ok tt, s') /\
    log (ui s') = log (ui s) ++ [lit "La capa no contiene polígonos."] /\
    trace s' = trace s ++ [IoExplode (name layer)] /\
    files s' = files s /\
    world s' = world s1 /\
    status (ui s') = status (ui s) /\
    progress_value (ui s') = progress_value (ui s).
Proof.
  intros Hres Hexp Hnil.
  unfold download_poligono_wcs_split_per_polygon.
  rewrite bool_decide_true by assumption. cbn [negb].
  rewrite (bind_Ok _ _ _ _ _ Hexp). rewrite Hnil. cbn.
  eexists; split; [reflexivity|].
  unfold _explode_to_singleparts, call in Hexp.
  destruct (multiparttosingleparts layer (world s)) as [r w].
  injection Hexp as -> <-. cbn. repeat split; reflexivity.
Qed.
End BatchEntry.

(** ** StreamingFetcher *)

Section Fetcher.
Context {Geometry CRS World : Type} {collab : Collab Geometry CRS World}.
Implicit Types s : State World.

Lemma event_loop_writes (p : str) (cb : option (Z -> Z -> UI -> UI))
    (sigs : list reply_signal) (received : Z) s (c : bytes) (cl : bool) :
  files s !! p = Some (mk_File c cl) ->
  exists n s',
    event_loop p cb sigs received s = (Ok n, s') /\
    files s' !! p = Some (mk_File (c ++ received_bytes sigs) cl) /\
    (forall q, q <> p -> files s' !! q = files s !! q) /\
    world s' = world s /\ trace s' = trace s.
Proof.
  revert received s c.
  induction sigs as [|[chunk|br bt] sigs IH]; intros received s c Hp;
    cbn [event_loop received_bytes].
  - exists received, s. rewrite app_nil_r. auto.
  - unfold bind, file_write, on_files.
    edestruct (IH (received + Z.of_nat (length chunk))
                 (mk_State (world s)
                    (alter (fun f => mk_File (content f ++ chunk) (closed f)) p (files s))
                    (trace s) (ui s)) (c ++ chunk))
      as (n & s' & Hrun & Hfile & Hother & Hw & Ht).
    { cbn [files]. rewrite lookup_alter_eq, Hp. reflexivity. }
    exists n, s'. rewrite Hrun, Hfile, <- app_assoc. repeat split; auto.
    intros q Hq. rewrite (Hother q Hq). cbn [files]. now apply lookup_alter_ne.
  - unfold bind.
    set (s1 := (match cb with Some f => on_ui (f br bt) | None => ret tt end s).2).
    assert (Hs1 : match cb with Some f => on_ui (f br bt) | None => ret tt end s
                  = (Ok tt, s1) /\ files s1 = files s /\ world s1 = world s /\
                    trace s1 = trace s).
    { unfold s1. destruct cb; cbn; auto. }
    destruct Hs1 as (-> & Hf1 & Hw1 & Ht1).
    destruct (IH received s1 c) as (n & s' & Hrun & Hfile & Hother & Hw & Ht).
    { now rewrite Hf1. }
    exists n, s'. rewrite Hrun, Hfile. repeat split; auto; try congruence.
    intros q Hq. rewrite (Hother q Hq). now rewrite Hf1.
Qed.

(** C8. Once the request is issued and the destination file opened, the
    fetcher raises the network error exactly when the finished reply
    reports an error, and returns normally exactly when it reports none.
    Either way the destination file is closed and holds the bytes received;
    no file is deleted and no other file is changed. *)
Theorem fetch_raises_iff_reply_reports_error (url : QUrl) (out_path : Path)
    (cb : option (Z -> Z -> UI -> UI)) s (reply : Reply) (w1 w2 : World) :
  nam_get url (world s) = (reply, w1) ->
  open_wb (path_str out_path) w1 = (Ok tt, w2) ->
  exists r s',
    http_get_to_file_progress url out_path cb s = (r, s') /\
    (error reply <> 0 <->
     r = Raise (mk_exn RuntimeError (lit "Error de red: " ++ errorString reply))) /\
    (error reply = 0 <-> r = Ok tt) /\
    files s' !! path_str out_path
      = Some (mk_File (received_bytes (signals reply)) true) /\
    (forall q, q <> path_str out_path -> files s' !! q = files s !! q) /\
    trace s' = trace s ++ [IoGet (toString url); IoOpen (path_str out_path)].
Proof.
  intros Hget Hopen. unfold http_get_to_file_progress.
  set (p := path_str out_path) in *.
  unfold bind at 1. unfold call at 1. rewrite Hget.
  unfold bind at 1. unfold call at 1. cbn [world]. rewrite Hopen.
  unfold bind at 1. unfold on_files at 1. cbn [world files trace ui].
  set (s1 := mk_State w2 (<[p:=mk_File [] false]> (files s))
               ((trace s ++ [IoGet (toString url)]) ++ [IoOpen p]) (ui s)).
  destruct (event_loop_writes p cb (signals reply) 0 s1 [] false)
    as (n & s2 & Hrun & Hfile & Hother & Hw & Ht).
  { apply lookup_insert_eq. }
  unfold bind at 1. rewrite Hrun.
  unfold bind, file_close, on_files.
  exists (if negb (error reply =? 0)
          then Raise (mk_exn RuntimeError (lit "Error de red: " ++ errorString reply))
          else Ok tt).
  eexists. split.
  { destruct (negb (error reply =? 0)); reflexivity. }
  cbn [files trace]. split; [|split; [|split; [|split]]].
  - destruct (Z.eqb_spec (error reply) 0) as [E|E]; cbn [negb]; split;
      intros; congruence.
  - destruct (Z.eqb_spec (error reply) 0) as [E|E]; cbn [negb]; split;
      intros; congruence.
  - rewrite lookup_alter_eq, Hfile. reflexivity.
  - intros q Hq. rewrite lookup_alter_ne by congruence. rewrite (Hother q Hq).
    unfold s1. cbn [files]. now apply lookup_insert_ne.
  - rewrite Ht. unfold s1. cbn [trace]. now rewrite <- app_assoc.
Qed.
End Fetcher.

Lemma fetch_raises_iff_reply_reports_error_witness :
  exists r s',
    http_get_to_file_progress (collab:=Demo.collab) (mk_QUrl WCS_BASE [])
      (tif_raw_path Demo.tmp_root 2) None (mk_State 1%nat ∅ [] (mk_UI [] [] (0, 0) 0))
    = (r, s') /\
    (error (Demo.reply_of 1) <> 0 <->
     r = Raise (mk_exn RuntimeError
                  (lit "Error de red: " ++ errorString (Demo.reply_of 1)))) /\
    (error (Demo.reply_of 1) = 0 <-> r = Ok tt) /\
    files s' !! path_str (tif_raw_path Demo.tmp_root 2)
      = Some (mk_File (received_bytes (signals (Demo.reply_of 1))) true) /\
    (forall q, q <> path_str (tif_raw_path Demo.tmp_root 2) ->
               files s' !! q = (∅ : gmap str File) !! q) /\
    trace s' = [] ++ [IoGet (toString (mk_QUrl WCS_BASE []));
                      IoOpen (path_str (tif_raw_path Demo.tmp_root 2))].
Proof.
  exact (fetch_raises_iff_reply_reports_error (collab:=Demo.collab)
           (mk_QUrl WCS_BASE []) (tif_raw_path Demo.tmp_root 2) None
           (mk_State 1%nat ∅ [] (mk_UI [] [] (0, 0) 0))
           (Demo.reply_of 1) 2%nat 2%nat eq_refl eq_refl).
Defined.

(** ** BatchOrchestrator: the per-polygon loop *)

Section TraceFacts.
Context {World : Type}.
Variable P : io_event -> Prop.

Lemma adds_ret {A : Type} (a : A) : trace_adds P (ret (World:=World) a).
Proof. intros s. exists []. now rewrite app_nil_r. Qed.

Lemma adds_raise {A : Type} (e : exn) : trace_adds P (raise (World:=World) (A:=A) e).
Proof. intros s. exists []. now rewrite app_nil_r. Qed.

Lemma adds_on_ui (f : UI -> UI) : trace_adds P (on_ui (World:=World) f).
Proof. intros s. exists []. cbn. now rewrite app_nil_r. Qed.

Lemma adds_on_files (f : gmap str File -> gmap str File) :
  trace_adds P (on_files (World:=World) f).
Proof. intros s. exists []. cbn. now rewrite app_nil_r. Qed.

Lemma adds_call {A : Type} (ev : io_event) (f : World -> result A * World) :
  P ev -> trace_adds P (call ev f).
Proof.
  intros Hev s. exists [ev]. unfold call. destruct (f (world s)). cbn. auto.
Qed.

Lemma adds_bind {A B : Type} (m : M World A) (k : A -> M World B) :
  trace_adds P m -> (forall a, trace_adds P (k a)) -> trace_adds P (bind m k).
Proof.
  intros Hm Hk s. unfold bind. destruct (Hm s) as (l1 & E1 & F1).
  destruct (m s) as [[a|e] s1]; cbn in E1; [|eauto].
  destruct (Hk a s1) as (l2 & E2 & F2). exists (l1 ++ l2).
  rewrite E2, E1, <- app_assoc. split; [reflexivity|]. now apply Forall_app.
Qed.

Lemma adds_when (b : bool) (m : M World unit) : trace_adds P m -> trace_adds P (when b m).
Proof. intros Hm. destruct b; [exact Hm|apply adds_ret]. Qed.

Lemma adds_event_loop (p : str) (cb : option (Z -> Z -> UI -> UI))
    (sigs : list reply_signal) (received : Z) :
  trace_adds P (event_loop (World:=World) p cb sigs received).
Proof.
  revert received.
  induction sigs as [|[chunk|br bt] sigs IH]; intros received; cbn [event_loop].
  - apply adds_ret.
  - apply adds_bind; [apply adds_on_files|intros _; apply IH].
  - apply adds_bind; [|intros _; apply IH].
    destruct cb; [apply adds_on_ui|apply adds_ret].
Qed.
End TraceFacts.

(** One step of a proof about the external calls a computation records. *)
Ltac adds_step :=
  match goal with
  | |- trace_adds _ (bind _ _) => apply adds_bind; [|intros ?]
  | |- trace_adds _ (when _ _) => apply adds_when
  | |- trace_adds _ (call _ _) => apply adds_call
  | |- trace_adds _ (event_loop _ _ _ _) => apply adds_event_loop
  | |- trace_adds _ (ret _) => apply adds_ret
  | |- trace_adds _ (raise _) => apply adds_raise
  | |- trace_adds _ (on_ui _) => apply adds_on_ui
  | |- trace_adds _ (log_append _) => apply adds_on_ui
  | |- trace_adds _ (on_files _) => apply adds_on_files
  | |- trace_adds _ (if ?b then _ else _) => destruct b
  | |- trace_adds _ (match ?x with _ => _ end) => destruct x
  | |- requests_only _ (IoGet _) => intros ? [= <-]; reflexivity
  | |- requests_only _ _ => intros ? ?; discriminate
  end.

Section Loop.
Context {Geometry CRS World : Type} {collab : Collab Geometry CRS World}.
Implicit Types s : State World.
Variable layer : QgsVectorLayer Geometry CRS.
Variable res_m : Z.
Variables status_label progressbar : bool.

(** C5. For a polygon processed at a valid resolution, the box handed to
    the query builder is the reprojected bounding box of the geometry moved
    outward by one angular step on each of its four sides: the URL logged
    for the polygon, and the only URL it requests, is the one built from
    (minx - step, miny - step, maxx + step, maxy + step). *)
Theorem bbox_is_padded_by_one_step (single : QgsVectorLayer Geometry CRS)
    (tmp_root : Path) (total i : Z) (f : QgsFeature Geometry) s
    (minx miny maxx maxy : float) s1 :
  res_m ∈ VALID_RES ->
  _bbox_4326_from_geom (geometry f) (crs single) s = (Ok (minx, miny, maxx, maxy), s1) ->
  exists step url later calls,
    meters_to_deg_step res_m = Ok step /\
    build_wcs_getcoverage_url
      (minx - step, miny - step, maxx + step, maxy + step)%float res_m = Ok url /\
    log (ui (polygon_pipeline layer res_m status_label single tmp_root total i f s).2)
    = log (ui s) ++ (tag i total ++ lit " WCS GetCoverage: " ++ toString url) :: later /\
    trace (polygon_pipeline layer res_m status_label single tmp_root total i f s).2
    = trace s1 ++ calls /\
    Forall (requests_only (toString url)) calls.
Proof.
  intros Hres Hbbox.
  destruct (meters_to_deg_step_valid res_m Hres) as [step Hstep].
  destruct (build_url_valid (minx - step, miny - step, maxx + step, maxy + step)%float
              res_m Hres) as [url Hurl].
  exists step, url.
  assert (Hlog : log (ui s1) = log (ui s)).
  { unfold _bbox_4326_from_geom, bind, call in Hbbox.
    destruct (transform _ _ _) as [[g|e] w]; [|discriminate].
    now injection Hbbox as _ <-. }
  eassert (Hrun : polygon_pipeline layer res_m status_label single tmp_root total i f s
                  = _).
  { unfold polygon_pipeline. rewrite (bind_Ok _ _ _ _ _ Hbbox). cbv iota beta.
    unfold bind at 1. unfold lift at 1. rewrite Hstep.
    unfold bind at 1. unfold lift at 1. rewrite Hurl.
    unfold bind at 1. unfold log_append at 1, on_ui at 1. reflexivity. }
  rewrite Hrun. clear Hrun.
  match goal with |- context [(?m ?s0).2] =>
    assert (Hext : extends m); [|assert (Hadds : trace_adds (requests_only (toString url)) m)];
    [ | | destruct (Hext s0) as [[later Hlater] _];
          destruct (Hadds s0) as (calls & Hcalls & Hall) ]
  end.
  - unfold _write_single_polygon_geojson_4326.
    repeat first
      [ apply extends_add_raster_gray_with_stats
      | apply extends_http_get_to_file_progress;
        intros ? ? ? [= <-]; apply _cb_keeps_log
      | ext_step ].
  - unfold _write_single_polygon_geojson_4326, http_get_to_file_progress,
      add_raster_gray_with_stats, file_close.
    repeat adds_step.
  - exists later, calls. rewrite Hlater, Hcalls. cbn [ui log trace ui_append].
    rewrite Hlog, <- app_assoc. auto.
Qed.
End Loop.

Lemma bbox_is_padded_by_one_step_witness :
  30 ∈ VALID_RES /\
  _bbox_4326_from_geom (collab:=Demo.collab) (geometry (mk_QgsFeature 5))
    (crs (Demo.layer_of [5])) Demo.start
  = (Ok (5, 5, 6, 6)%float, mk_State 0%nat ∅ [IoTransform] (ui Demo.start)) /\
  exists step url later calls,
    meters_to_deg_step 30 = Ok step /\
    build_wcs_getcoverage_url (5 - step, 5 - step, 6 + step, 6 + step)%float 30 = Ok url /\
    log (ui (polygon_pipeline (collab:=Demo.collab) (Demo.layer_of [5]) 30 true
               (Demo.layer_of [5]) Demo.tmp_root 1 1 (mk_QgsFeature 5) Demo.start).2)
    = log (ui Demo.start) ++ (tag 1 1 ++ lit " WCS GetCoverage: " ++ toString url) :: later /\
    trace (polygon_pipeline (collab:=Demo.collab) (Demo.layer_of [5]) 30 true
             (Demo.layer_of [5]) Demo.tmp_root 1 1 (mk_QgsFeature 5) Demo.start).2
    = [IoTransform] ++ calls /\
    Forall (requests_only (toString url)) calls.
Proof.
  split; [exact demo_valid_resolution|]. split; [reflexivity|].
  exact (bbox_is_padded_by_one_step (collab:=Demo.collab) (Demo.layer_of [5]) 30 true
           (Demo.layer_of [5]) Demo.tmp_root 1 1 (mk_QgsFeature 5) Demo.start 5 5 6 6 _
           demo_valid_resolution eq_refl).
Defined.

Section Isolation.
Context {Geometry CRS World : Type} {collab : Collab Geometry CRS World}.
Implicit Types s : State World.
Variable layer : QgsVectorLayer Geometry CRS.
Variable res_m : Z.
Variables status_label progressbar : bool.
Variable single : QgsVectorLayer Geometry CRS.
Variable tmp_root : Path.
Variable total : Z.
Hypothesis Hcollab : raises_only_Exception.

Local Abbreviation pipeline := (polygon_pipeline layer res_m status_label single tmp_root total).
Local Abbreviation step := (polygon_step layer res_m status_label progressbar single tmp_root total).

(** An iteration always ends normally; when its pipeline raised, the last
    line it logged is the error line of its index. *)
Lemma polygon_step_outcome (i : Z) (f : QgsFeature Geometry) s :
  exists s',
    step i f s = (Ok tt, s') /\
    log (ui s') =
    log (ui (pipeline i f s).2) ++
    match (pipeline i f s).1 with
    | Raise e => [error_line total i e]
    | Ok _ => []
    end.
Proof.
  unfold polygon_step, try_except_finally.
  pose proof (safe_polygon_pipeline layer res_m status_label single tmp_root total
                Hcollab i f s) as Hsafe.
  destruct (pipeline i f s) as [[[]|e] s1].
  - destruct progressbar; cbn; eexists; (split; [reflexivity|]); cbn;
      now rewrite app_nil_r.
  - rewrite (Hsafe e s1 eq_refl).
    destruct progressbar; cbn; eexists; (split; [reflexivity|]); reflexivity.
Qed.

Lemma loop_runs_to_its_end (feats : list (QgsFeature Geometry)) (i : Z) s :
  exists s', for_each i feats step s = (Ok tt, s').
Proof.
  revert i s. induction feats as [|f feats IH]; intros i s; cbn [for_each].
  - now exists s.
  - destruct (polygon_step_outcome i f s) as (s1 & Hs1 & _).
    rewrite (bind_Ok _ _ _ _ _ Hs1). apply IH.
Qed.

Lemma failures_logged_in_order (feats : list (QgsFeature Geometry)) (i : Z) s :
  exists L,
    log (ui (for_each i feats step s).2) = log (ui s) ++ L /\
    map (fun ke => error_line total ke.1 ke.2)
      (failures layer res_m status_label progressbar single tmp_root total i feats s)
    `sublist_of` L.
Proof.
  revert i s. induction feats as [|f feats IH]; intros i s; cbn [for_each failures].
  - exists []. cbn. now rewrite app_nil_r.
  - destruct (polygon_step_outcome i f s) as (s1 & Hs1 & Hlog).
    rewrite (bind_Ok _ _ _ _ _ Hs1). rewrite Hs1. cbn [snd].
    destruct (IH (i + 1) s1) as (L & HL & Hsub).
    destruct (extends_polygon_pipeline layer res_m status_label single tmp_root total
                i f s) as [[A HA] _].
    rewrite HL, Hlog, HA.
    destruct (pipeline i f s).1 as [[]|e].
    + exists (A ++ L). rewrite app_nil_r, <- app_assoc. split; [reflexivity|].
      now apply sublist_inserts_l.
    + exists (A ++ error_line total i e :: L). split.
      * now rewrite <- !app_assoc.
      * cbn [map fst snd]. apply sublist_inserts_l. now apply sublist_skip.
Qed.
End Isolation.

(** The error line, character by character. *)
Lemma error_line_text (total i : Z) (e : exn) :
  error_line total i e =
  lit "[" ++ str_of_int i ++ lit "/" ++ str_of_int total ++ lit "] ERROR: " ++ exn_msg e.
Proof. unfold error_line, tag. rewrite <- !app_assoc. reflexivity. Qed.

Section BatchTheorems.
Context {Geometry CRS World : Type} {collab : Collab Geometry CRS World}.
Implicit Types s : State World.
Variable layer : QgsVectorLayer Geometry CRS.
Variable res_m : Z.
Variables status_label progressbar : bool.

Local Abbreviation pipeline := (polygon_pipeline layer res_m status_label).
Local Abbreviation step := (polygon_step layer res_m status_label progressbar).
Local Abbreviation download :=
  (download_poligono_wcs_split_per_polygon layer res_m status_label progressbar).

Lemma download_from_loop_entry s (single : QgsVectorLayer Geometry CRS) s1
    (tmp_root : Path) s2 s3 :
  res_m ∈ VALID_RES ->
  _explode_to_singleparts layer s = (Ok single, s1) ->
  getFeatures single <> [] ->
  batch_setup layer res_m status_label progressbar
    (Z.of_nat (length (getFeatures single))) s1 = (Ok tmp_root, s2) ->
  batch_loop layer res_m status_label progressbar single tmp_root
    (Z.of_nat (length (getFeatures single))) s2 = (Ok tt, s3) ->
  download s = batch_finish status_label progressbar s3.
Proof.
  intros Hres Hexp Hne Hsetup Hloop.
  unfold download_poligono_wcs_split_per_polygon.
  rewrite bool_decide_true by assumption. cbn [negb].
  rewrite (bind_Ok _ _ _ _ _ Hexp). cbv zeta.
  destruct (Z.eqb_spec (Z.of_nat (length (getFeatures single))) 0) as [E|_].
  { destruct (getFeatures single); [contradiction|discriminate E]. }
  rewrite (bind_Ok _ _ _ _ _ Hsetup). now rewrite (bind_Ok _ _ _ _ _ Hloop).
Qed.

Lemma batch_finish_outcome s :
  exists s',
    batch_finish status_label progressbar s = (Ok tt, s') /\
    log (ui s') = log (ui s) ++ [lit "Listo. Resultado en TEMP (un TIFF por polígono)."] /\
    status (ui s') =
      (if status_label && progressbar
       then lit "Listo. Se generó un TIFF por polígono en TEMP. Guarda copias para conservarlos."
       else status (ui s)).
Proof.
  unfold batch_finish. destruct (status_label && progressbar);
    cbn; eexists; split; try reflexivity; auto.
Qed.

(** C1. Provided the collaborators raise nothing outside [Exception], and
    once the batch has reached its loop over N polygons, no exception leaves
    the loop and the batch returns normally.  For every index K from 1 to N:
    the polygons before K have all been processed when K is reached; the
    iteration of K ends normally whatever its pipeline did; the loop then
    processes every polygon after K up to N; and if the pipeline of K raised
    an exception, the line "[K/N] ERROR: detail" is the last line logged by
    that iteration and is still in the log when the batch returns. *)
Theorem one_failure_never_aborts_the_batch s (single : QgsVectorLayer Geometry CRS) s1
    (tmp_root : Path) s2 :
  let feats := getFeatures single in
  let total := Z.of_nat (length feats) in
  raises_only_Exception ->
  res_m ∈ VALID_RES ->
  _explode_to_singleparts layer s = (Ok single, s1) ->
  feats <> [] ->
  batch_setup layer res_m status_label progressbar total s1 = (Ok tmp_root, s2) ->
  exists s_loop s_end,
    batch_loop layer res_m status_label progressbar single tmp_root total s2
    = (Ok tt, s_loop) /\
    download s = (Ok tt, s_end) /\
    forall (K : nat) (f : QgsFeature Geometry),
      feats !! K = Some f ->
      let i := Z.of_nat K + 1 in
      exists sK sK',
        for_each 1 (take K feats) (step single tmp_root total) s2 = (Ok tt, sK) /\
        step single tmp_root total i f sK = (Ok tt, sK') /\
        for_each (i + 1) (drop (S K) feats) (step single tmp_root total) sK'
        = (Ok tt, s_loop) /\
        forall e sK1,
          pipeline single tmp_root total i f sK = (Raise e, sK1) ->
          log (ui sK') =
            log (ui sK1) ++
            [lit "[" ++ str_of_int i ++ lit "/" ++ str_of_int total ++
             lit "] ERROR: " ++ exn_msg e] /\
          (lit "[" ++ str_of_int i ++ lit "/" ++ str_of_int total ++
           lit "] ERROR: " ++ exn_msg e) ∈ log (ui s_end).
Proof.
  intros feats total Hcollab Hres Hexp Hne Hsetup.
  destruct (loop_runs_to_its_end layer res_m status_label progressbar single tmp_root
              total Hcollab feats 1 s2) as [s_loop Hloop].
  destruct (batch_finish_outcome s_loop) as (s_end & Hfin & Hlogfin & _).
  exists s_loop, s_end. split; [exact Hloop|]. split.
  { rewrite (download_from_loop_entry s single s1 tmp_root s2 s_loop); auto. }
  intros K f HK i.
  destruct (loop_runs_to_its_end layer res_m status_label progressbar single tmp_root
              total Hcollab (take K feats) 1 s2) as [sK HsK].
  destruct (polygon_step_outcome layer res_m status_label progressbar single tmp_root
              total Hcollab i f sK) as (sK' & HsK' & Hlog).
  assert (Hrest : for_each (i + 1) (drop (S K) feats) (step single tmp_root total) sK'
                  = (Ok tt, s_loop)).
  { pose proof Hloop as Hsplit. fold feats in Hsplit.
    rewrite <- (take_drop_middle feats K f HK) in Hsplit.
    rewrite for_each_app, HsK in Hsplit. cbn [for_each] in Hsplit.
    rewrite length_take_le in Hsplit
      by (apply lookup_lt_Some in HK; lia).
    replace (1 + Z.of_nat K) with i in Hsplit by (unfold i; lia).
    now rewrite (bind_Ok _ _ _ _ _ HsK') in Hsplit. }
  exists sK, sK'. split; [exact HsK|]. split; [exact HsK'|]. split; [exact Hrest|].
  intros e sK1 Hraise. rewrite Hraise in Hlog. cbn [fst snd] in Hlog.
  rewrite <- !error_line_text.
  split; [exact Hlog|].
  assert (Hpre : log (ui sK') `prefix_of` log (ui s_loop)).
  { pose proof (extends_for_each (step single tmp_root total) (drop (S K) feats)
                  (extends_polygon_step layer res_m status_label progressbar
                     single tmp_root total) (i + 1) sK') as [Hp _].
    now rewrite Hrest in Hp. }
  destruct Hpre as [later Hlater].
  rewrite Hlogfin, Hlater, Hlog.
  apply elem_of_app; left. apply elem_of_app; left. apply elem_of_app; right.
  now apply list_elem_of_singleton.
Qed.

(** C7, as the code has it.  When the batch completes, what it reports is
    one fixed line appended to the log (and, with both widgets present, one
    fixed status text); neither depends on what happened to the polygons,
    so no count is stated.  The failed polygons are reported by the lines
    "[i/N] ERROR: detail" logged during the loop: they occur in the log in
    index order, before the completion line. *)
Theorem completion_message_is_fixed_and_failures_are_logged_in_order
    s (single : QgsVectorLayer Geometry CRS) s1 (tmp_root : Path) s2 :
  let feats := getFeatures single in
  let total := Z.of_nat (length feats) in
  raises_only_Exception ->
  res_m ∈ VALID_RES ->
  _explode_to_singleparts layer s = (Ok single, s1) ->
  feats <> [] ->
  batch_setup layer res_m status_label progressbar total s1 = (Ok tmp_root, s2) ->
  exists s_end during,
    download s = (Ok tt, s_end) /\
    log (ui s_end) =
      log (ui s2) ++ during ++ [lit "Listo. Resultado en TEMP (un TIFF por polígono)."] /\
    map (fun ke => error_line total ke.1 ke.2)
      (failures layer res_m status_label progressbar single tmp_root total 1 feats s2)
    `sublist_of` during /\
    (status_label && progressbar = true ->
     status (ui s_end) =
     lit "Listo. Se generó un TIFF por polígono en TEMP. Guarda copias para conservarlos.") /\
    fst (completion_report s_end)
    = Some (lit "Listo. Resultado en TEMP (un TIFF por polígono).").
Proof.
  intros feats total Hcollab Hres Hexp Hne Hsetup.
  destruct (loop_runs_to_its_end layer res_m status_label progressbar single tmp_root
              total Hcollab feats 1 s2) as [s_loop Hloop].
  destruct (batch_finish_outcome s_loop) as (s_end & Hfin & Hlogfin & Hstatus).
  destruct (failures_logged_in_order layer res_m status_label progressbar single
              tmp_root total Hcollab feats 1 s2) as (during & Hduring & Hsub).
  rewrite Hloop in Hduring. cbn [snd] in Hduring.
  exists s_end, during. split.
  { rewrite (download_from_loop_entry s single s1 tmp_root s2 s_loop); auto. }
  split; [now rewrite Hlogfin, Hduring, <- app_assoc|].
  split; [exact Hsub|]. split.
  - intros Hboth. now rewrite Hstatus, Hboth.
  - unfold completion_report. cbn [fst]. rewrite Hlogfin. apply last_snoc.
Qed.
End BatchTheorems.

Lemma invalid_resolution_fails_before_any_io_witness :
  (45 ∉ VALID_RES) /\ 30 ∈ VALID_RES /\
  download_poligono_wcs_split_per_polygon (collab:=Demo.collab)
    (Demo.layer_of [5; 7]) 45 true true Demo.start
  = (Raise invalid_resolution, Demo.start) /\
  exists later,
    trace (download_poligono_wcs_split_per_polygon (collab:=Demo.collab)
             (Demo.layer_of [5; 7]) 30 true true Demo.start).2
    = trace Demo.start ++ IoExplode (name (Demo.layer_of [5; 7])) :: later.
Proof.
  assert (H45 : 45 ∉ VALID_RES) by (rewrite elem_of_VALID_RES; lia).
  split; [exact H45|]. split; [exact demo_valid_resolution|]. split.
  - exact (proj1 (invalid_resolution_fails_before_any_io (collab:=Demo.collab)
                    (Demo.layer_of [5; 7]) 45 true true Demo.start) H45).
  - exact (proj2 (invalid_resolution_fails_before_any_io (collab:=Demo.collab)
                    (Demo.layer_of [5; 7]) 30 true true Demo.start)
             demo_valid_resolution).
Defined.

Lemma empty_layer_is_a_success_witness :
  exists s',
    download_poligono_wcs_split_per_polygon (collab:=Demo.collab)
      (Demo.layer_of []) 30 true true Demo.start = (Ok tt, s') /\
    log (ui s') = log (ui Demo.start) ++ [lit "La capa no contiene polígonos."] /\
    trace s' = trace Demo.start ++ [IoExplode (name (Demo.layer_of []))] /\
    files s' = files Demo.start /\
    world s' = 0%nat /\
    status (ui s') = status (ui Demo.start) /\
    progress_value (ui s') = progress_value (ui Demo.start).
Proof.
  exact (empty_layer_is_a_success (collab:=Demo.collab) (Demo.layer_of []) 30 true true
           Demo.start (Demo.layer_of [])
           (mk_State 0%nat ∅ [IoExplode (lit "parcels")] (ui Demo.start))
           demo_valid_resolution eq_refl eq_refl).
Defined.

Lemma one_failure_never_aborts_the_batch_witness :
  raises_only_Exception (collab:=Demo.collab) /\
  exists s_end,
    DemoRuns.run [5; 7; 9] = (Ok tt, s_end) /\
    lit "[2/3] ERROR: Error de red: Host not found" ∈ log (ui s_end).
Proof.
  split; [exact demo_raises_only_Exception|].
  assert (Hexp : _explode_to_singleparts (collab:=Demo.collab)
                   (Demo.layer_of [5; 7; 9]) Demo.start
                 = (Ok (Demo.layer_of [5; 7; 9]),
                    mk_State 0%nat ∅ [IoExplode (lit "parcels")] (ui Demo.start)))
    by reflexivity.
  assert (Hsetup : batch_setup (collab:=Demo.collab) (Demo.layer_of [5; 7; 9]) 30 true true
                     (Z.of_nat (length (getFeatures (Demo.layer_of [5; 7; 9]))))
                     (mk_State 0%nat ∅ [IoExplode (lit "parcels")] (ui Demo.start))
                   = (Ok Demo.tmp_root, DemoRuns.loop_entry [5; 7; 9]))
    by (vm_compute; reflexivity).
  destruct (one_failure_never_aborts_the_batch (collab:=Demo.collab)
              (Demo.layer_of [5; 7; 9]) 30 true true Demo.start
              (Demo.layer_of [5; 7; 9]) _ Demo.tmp_root (DemoRuns.loop_entry [5; 7; 9])
              demo_raises_only_Exception demo_valid_resolution Hexp
              ltac:(discriminate) Hsetup)
    as (s_loop & s_end & _ & Hrun & HK).
  exists s_end. split; [exact Hrun|].
  destruct (HK 1%nat (mk_QgsFeature 7) eq_refl) as (sK & sK' & HsK & _ & _ & Herr).
  apply (f_equal snd) in HsK. cbn [snd] in HsK. subst sK.
  refine (proj2 (Herr (mk_exn RuntimeError (lit "Error de red: Host not found")) _
                   (pair_with_fst _ _ _))).
  vm_compute. reflexivity.
Defined.

(** C7, as stated, fails: a batch whose only polygon succeeds and a batch
    whose only polygon fails end with the same report, so the report states
    neither counts nor failed indices. *)
Lemma completion_report_states_no_outcome : ~ completion_report_states_outcome.
Proof.
  intros [decode H].
  pose proof (H [5]) as Hgood. pose proof (H [-7]) as Hbad.
  vm_compute in Hgood, Hbad. rewrite Hgood in Hbad. discriminate Hbad.
Qed.

Lemma completion_message_is_fixed_and_failures_are_logged_in_order_witness :
  raises_only_Exception (collab:=Demo.collab) /\
  exists s_end during,
    DemoRuns.run [5; -7] = (Ok tt, s_end) /\
    log (ui s_end) =
      log (ui (DemoRuns.loop_entry [5; -7])) ++ during ++
      [lit "Listo. Resultado en TEMP (un TIFF por polígono)."] /\
    map (fun ke => error_line 2 ke.1 ke.2) (DemoRuns.failed [5; -7])
    `sublist_of` during /\
    (true && true = true ->
     status (ui s_end) =
     lit "Listo. Se generó un TIFF por polígono en TEMP. Guarda copias para conservarlos.") /\
    fst (completion_report s_end)
    = Some (lit "Listo. Resultado en TEMP (un TIFF por polígono).").
Proof.
  split; [exact demo_raises_only_Exception|].
  assert (Hexp : _explode_to_singleparts (collab:=Demo.collab)
                   (Demo.layer_of [5; -7]) Demo.start
                 = (Ok (Demo.layer_of [5; -7]),
                    mk_State 0%nat ∅ [IoExplode (lit "parcels")] (ui Demo.start)))
    by reflexivity.
  assert (Hsetup : batch_setup (collab:=Demo.collab) (Demo.layer_of [5; -7]) 30 true true
                     (Z.of_nat (length (getFeatures (Demo.layer_of [5; -7]))))
                     (mk_State 0%nat ∅ [IoExplode (lit "parcels")] (ui Demo.start))
                   = (Ok Demo.tmp_root, DemoRuns.loop_entry [5; -7]))
    by (vm_compute; reflexivity).
  exact (completion_message_is_fixed_and_failures_are_logged_in_order
           (collab:=Demo.collab) (Demo.layer_of [5; -7]) 30 true true Demo.start
           (Demo.layer_of [5; -7]) _ Demo.tmp_root (DemoRuns.loop_entry [5; -7])
           demo_raises_only_Exception demo_valid_resolution Hexp
           ltac:(discriminate) Hsetup).
Defined.

(** * Further properties of [poligono_wcs.py] *)

(** ** MaskWriter *)

Section MaskWriter.
Context {Geometry CRS World : Type} {collab : Collab Geometry CRS World}.
Implicit Types s : State World.

Lemma write_mask_run (geom : Geometry) (src_crs : CRS) (out_path : Path) s
    (g : Geometry) (w1 : World) (ret : writer_return) (w2 : World) :
  transform geom src_crs (world s) = (Ok g, w1) ->
  writeAsVectorFormatV2 g (path_str out_path) w1 = (Ok ret, w2) ->
  _write_single_polygon_geojson_4326 geom src_crs out_path s =
  (if writer_code ret =? NoError then Ok tt
   else Raise (mk_exn RuntimeError
                 (lit "No se pudo exportar máscara GeoJSON: " ++ writer_message ret)),
   mk_State w2 (files s) (trace s ++ [IoTransform; IoWriteVector (path_str out_path)])
     (ui s)).
Proof.
  intros Htr Hwr. unfold _write_single_polygon_geojson_4326, bind, call.
  rewrite Htr. cbn [world files trace ui]. rewrite Hwr.
  rewrite <- app_assoc. cbn [app].
  unfold writer_code, writer_message.
  destruct ret as [c|c [|m rest]]; destruct (c =? NoError); reflexivity.
Qed.

(** X1. Once the geometry is reprojected and the writer has returned, the
    mask writer raises exactly when the returned code is not [NoError]; the
    exception is a [RuntimeError] carrying the writer's message (the second
    component of a tuple, nothing for a bare code or a one-element tuple).
    It makes two external calls and touches neither the widgets nor the
    fetched files. *)
Theorem mask_export_error_is_raised_with_its_message
    (geom : Geometry) (src_crs : CRS) (out_path : Path) s
    (g : Geometry) (w1 : World) (ret : writer_return) (w2 : World) :
  transform geom src_crs (world s) = (Ok g, w1) ->
  writeAsVectorFormatV2 g (path_str out_path) w1 = (Ok ret, w2) ->
  exists r s',
    _write_single_polygon_geojson_4326 geom src_crs out_path s = (r, s') /\
    (writer_code ret = NoError <-> r = Ok tt) /\
    (writer_code ret <> NoError <->
     r = Raise (mk_exn RuntimeError
                  (lit "No se pudo exportar máscara GeoJSON: " ++ writer_message ret))) /\
    trace s' = trace s ++ [IoTransform; IoWriteVector (path_str out_path)] /\
    ui s' = ui s /\ files s' = files s /\ world s' = w2.
Proof.
  intros Htr Hwr. rewrite (write_mask_run _ _ _ _ _ _ _ _ Htr Hwr).
  eexists _, _. split; [reflexivity|]. cbn [trace ui files world].
  destruct (Z.eqb_spec (writer_code ret) NoError) as [E|E];
    repeat split; intros; congruence.
Qed.
End MaskWriter.

Lemma mask_export_error_is_raised_with_its_message_witness :
  exists r s',
    _write_single_polygon_geojson_4326
      (collab:=Faulty.collab (Faulty.mk_faults true false false false))
      5 tt (mask_geojson_path Demo.tmp_root 1) Demo.start = (r, s') /\
    (2 = NoError <-> r = Ok tt) /\
    (2 <> NoError <->
     r = Raise (mk_exn RuntimeError
                  (lit "No se pudo exportar máscara GeoJSON: " ++
                   lit "No space left on device"))) /\
    trace s' = [] ++ [IoTransform;
                      IoWriteVector (path_str (mask_geojson_path Demo.tmp_root 1))] /\
    ui s' = ui Demo.start /\ files s' = ∅ /\ world s' = 0%nat.
Proof.
  exact (mask_export_error_is_raised_with_its_message
           (collab:=Faulty.collab (Faulty.mk_faults true false false false))
           5 tt (mask_geojson_path Demo.tmp_root 1) Demo.start 5 0%nat
           (WTuple 2 [lit "No space left on device"]) 0%nat eq_refl eq_refl).
Defined.

(** ** StreamingFetcher: the destination and the progress callback *)

Section FetcherMore.
Context {Geometry CRS World : Type} {collab : Collab Geometry CRS World}.
Implicit Types s : State World.

(** X2. When the destination file cannot be opened, the fetcher raises the
    error of [open] after the request has been issued: nothing is written,
    no file entry is created, and the progress callback is never called. *)
Theorem fetch_fails_when_the_file_cannot_be_opened (url : QUrl) (out_path : Path)
    (cb : option (Z -> Z -> UI -> UI)) s (reply : Reply) (w1 : World)
    (e : exn) (w2 : World) :
  nam_get url (world s) = (reply, w1) ->
  open_wb (path_str out_path) w1 = (Raise e, w2) ->
  http_get_to_file_progress url out_path cb s =
  (Raise e,
   mk_State w2 (files s)
     (trace s ++ [IoGet (toString url); IoOpen (path_str out_path)]) (ui s)).
Proof.
  intros Hget Hopen. unfold http_get_to_file_progress, bind, call.
  rewrite Hget. cbn [world files trace ui]. rewrite Hopen.
  now rewrite <- app_assoc.
Qed.

Lemma event_loop_ui (p : str) (cb : option (Z -> Z -> UI -> UI))
    (sigs : list reply_signal) (received : Z) s :
  ui (event_loop p cb sigs received s).2 =
  match cb with
  | Some f => fold_left (fun u r => f r.1 r.2 u) (progress_reports sigs) (ui s)
  | None => ui s
  end.
Proof.
  revert received s.
  induction sigs as [|[chunk|br bt] sigs IH]; intros received s;
    cbn [event_loop progress_reports fold_left].
  - now destruct cb.
  - unfold bind, file_write, on_files. rewrite IH. reflexivity.
  - unfold bind. destruct cb as [f|]; cbn; rewrite IH; reflexivity.
Qed.

Lemma event_loop_returns (p : str) (cb : option (Z -> Z -> UI -> UI))
    (sigs : list reply_signal) (received : Z) s :
  exists n s',
    event_loop p cb sigs received s = (Ok n, s') /\
    world s' = world s /\ trace s' = trace s.
Proof.
  revert received s.
  induction sigs as [|[chunk|br bt] sigs IH]; intros received s; cbn [event_loop].
  - now exists received, s.
  - unfold bind, file_write, on_files.
    destruct (IH (received + Z.of_nat (length chunk))
                (mk_State (world s)
                   (alter (fun f => mk_File (content f ++ chunk) (closed f)) p (files s))
                   (trace s) (ui s))) as (n & s' & -> & Hw & Ht).
    now exists n, s'.
  - unfold bind. destruct cb as [f|]; cbn.
    + destruct (IH received (mk_State (world s) (files s) (trace s) (f br bt (ui s))))
        as (n & s' & -> & Hw & Ht). now exists n, s'.
    + apply IH.
Qed.

(** X3. While the transfer runs, the progress callback is called once for
    each progress report of the reply, in the order of the reports and with
    their two numbers; the widgets are otherwise left alone, and without a
    callback they do not change at all. *)
Theorem fetch_calls_the_callback_once_per_progress_report (url : QUrl) (out_path : Path)
    (cb : option (Z -> Z -> UI -> UI)) s (reply : Reply) (w1 w2 : World) :
  nam_get url (world s) = (reply, w1) ->
  open_wb (path_str out_path) w1 = (Ok tt, w2) ->
  ui (http_get_to_file_progress url out_path cb s).2 =
  match cb with
  | Some f => fold_left (fun u r => f r.1 r.2 u) (progress_reports (signals reply)) (ui s)
  | None => ui s
  end.
Proof.
  intros Hget Hopen. unfold http_get_to_file_progress.
  unfold bind at 1. unfold call at 1. rewrite Hget.
  unfold bind at 1. unfold call at 1. cbn [world]. rewrite Hopen.
  unfold bind at 1. unfold on_files at 1. cbn [world files trace ui].
  unfold bind at 1.
  match goal with |- context [event_loop ?p ?c ?sg ?r ?s0] =>
    pose proof (event_loop_ui p c sg r s0) as Hui;
    destruct (event_loop_returns p c sg r s0) as (n & s' & Hrun & _ & _)
  end.
  rewrite Hrun in *. cbn [snd ui] in Hui.
  unfold bind, file_close, on_files.
  destruct (negb (error reply =? 0)); cbn [snd ui]; exact Hui.
Qed.
End FetcherMore.

Lemma fetch_fails_when_the_file_cannot_be_opened_witness :
  http_get_to_file_progress
    (collab:=Faulty.collab (Faulty.mk_faults false true false false))
    (mk_QUrl WCS_BASE []) (tif_raw_path Demo.tmp_root 1) None Demo.start =
  (Raise (mk_exn OSError (lit "Permission denied")),
   mk_State 1%nat ∅
     ([] ++ [IoGet (toString (mk_QUrl WCS_BASE []));
             IoOpen (path_str (tif_raw_path Demo.tmp_root 1))])
     (ui Demo.start)).
Proof.
  exact (fetch_fails_when_the_file_cannot_be_opened
           (collab:=Faulty.collab (Faulty.mk_faults false true false false))
           (mk_QUrl WCS_BASE []) (tif_raw_path Demo.tmp_root 1) None Demo.start
           (Demo.reply_of 0) 1%nat (mk_exn OSError (lit "Permission denied")) 1%nat
           eq_refl eq_refl).
Defined.

Lemma fetch_calls_the_callback_once_per_progress_report_witness :
  ui (http_get_to_file_progress (collab:=Demo.collab)
        (mk_QUrl WCS_BASE []) (tif_raw_path Demo.tmp_root 1)
        (Some (_cb true 1 1)) Demo.start).2 =
  fold_left (fun u r => _cb true 1 1 r.1 r.2 u)
    (progress_reports (signals (Demo.reply_of 0))) (ui Demo.start).
Proof.
  exact (fetch_calls_the_callback_once_per_progress_report (collab:=Demo.collab)
           (mk_QUrl WCS_BASE []) (tif_raw_path Demo.tmp_root 1)
           (Some (_cb true 1 1)) Demo.start (Demo.reply_of 0) 1%nat 1%nat
           eq_refl eq_refl).
Defined.

(** ** CoverageRequestBuilder and the text helpers *)

(** X4. The query builder returns a URL exactly for the five resolutions of
    [VALID_RES]; for every other resolution, and whatever the bounding box,
    it raises the invalid-resolution [ValueError] of the step table. *)
Theorem builder_accepts_exactly_the_valid_resolutions (bbox : bbox_t) (res_m : Z) :
  ((exists url, build_wcs_getcoverage_url bbox res_m = Ok url) <-> res_m ∈ VALID_RES) /\
  (build_wcs_getcoverage_url bbox res_m = Raise invalid_resolution_step
   <-> res_m ∉ VALID_RES).
Proof.
  destruct (decide (res_m ∈ VALID_RES)) as [Hin|Hout].
  - destruct (build_url_valid bbox res_m Hin) as [url Hurl]. rewrite Hurl.
    split; split; intros; try (now eauto); try discriminate; contradiction.
  - assert (Hraise : build_wcs_getcoverage_url bbox res_m = Raise invalid_resolution_step).
    { unfold build_wcs_getcoverage_url, meters_to_deg_step.
      destruct bbox as [[[? ?] ?] ?]. now rewrite (table_lookup_invalid _ Hout). }
    rewrite Hraise. split; split; intros; auto; try contradiction.
    destruct H as [url H]. discriminate H.
Qed.

Lemma count_digits_le (fuel : nat) (n : N) (k : nat) :
  (1 <= k)%nat -> (n < 10 ^ N.of_nat k)%N -> (count_digits fuel n <= k)%nat.
Proof.
  revert n k. induction fuel as [|fuel IH]; intros n k Hk Hn; cbn [count_digits]; [lia|].
  destruct (N.ltb_spec n 10) as [Hlt|Hge]; [lia|].
  destruct k as [|k]; [lia|]. destruct k as [|k].
  { cbn in Hn. lia. }
  apply le_n_S. apply IH; [lia|].
  rewrite Nat2N.inj_succ, N.pow_succ_r' in Hn.
  apply N.Div0.div_lt_upper_bound. exact Hn.
Qed.

(** X5. The index in a scratch file name is rendered with exactly four
    digits for every index from 0 to 9999, and with more than four digits,
    never truncated, from 10000 on; in both cases the digits read back as
    the index. *)
Theorem index_is_four_digits_up_to_9999 (i : Z) :
  0 <= i ->
  forallb is_digit (format_0wd 4 i) = true /\
  digits_value (format_0wd 4 i) = Z.to_N i /\
  (i <= 9999 -> length (format_0wd 4 i) = 4%nat) /\
  (9999 < i -> (4 < length (format_0wd 4 i))%nat).
Proof.
  intros Hi. split; [now apply format_0wd_digits_nonneg|].
  unfold format_0wd. destruct (Z.ltb_spec i 0) as [|_]; [lia|].
  rewrite length_fixed_digits.
  rewrite digits_value_fixed_wide by lia.
  split; [lia|]. split; intros Hle.
  - assert (num_digits (Z.abs_N i) <= 4)%nat; [|lia].
    apply count_digits_le; [lia|]. change (10 ^ N.of_nat 4)%N with 10000%N. lia.
  - pose proof (num_digits_bound (Z.abs_N i)) as Hb.
    destruct (le_lt_dec (num_digits (Z.abs_N i)) 4) as [Hsmall|Hbig]; [|lia].
    exfalso.
    assert (10 ^ N.of_nat (num_digits (Z.abs_N i)) <= 10 ^ 4)%N
      by (apply N.pow_le_mono_r; lia).
    change (10 ^ 4)%N with 10000%N in *. lia.
Qed.

Lemma index_is_four_digits_up_to_9999_witness :
  0 <= 12 /\
  forallb is_digit (format_0wd 4 12) = true /\
  digits_value (format_0wd 4 12) = Z.to_N 12 /\
  (12 <= 9999 -> length (format_0wd 4 12) = 4%nat) /\
  (9999 < 12 -> (4 < length (format_0wd 4 12))%nat).
Proof.
  assert (H : 0 <= 12) by lia. split; [exact H|].
  exact (index_is_four_digits_up_to_9999 12 H).
Defined.

(** X6. A byte count below 1024 is shown in bytes, as the count followed by
    ".0 B": no rounding and no unit change happens below one kilobyte. *)
Theorem human_size_below_one_kilobyte_is_exact (n : Z) :
  0 <= n < 1024 -> human_size n = str_of_int n ++ lit ".0 B".
Proof.
  intros Hn.
  pose (same := fun k : nat =>
          if List.list_eq_dec ascii_dec (human_size (Z.of_nat k))
               (str_of_int (Z.of_nat k) ++ lit ".0 B")
          then true else false).
  assert (Hall : forallb same (seq 0 1024) = true) by (vm_compute; reflexivity).
  rewrite forallb_forall in Hall.
  specialize (Hall (Z.to_nat n)). unfold same in Hall.
  rewrite Z2Nat.id in Hall by lia.
  destruct (List.list_eq_dec ascii_dec _ _) as [E|_]; [exact E|].
  discriminate Hall. apply in_seq. lia.
Qed.

Lemma human_size_below_one_kilobyte_is_exact_witness :
  0 <= 512 < 1024 /\ human_size 512 = lit "512.0 B".
Proof.
  assert (H : 0 <= 512 < 1024) by lia. split; [exact H|].
  exact (human_size_below_one_kilobyte_is_exact 512 H).
Defined.

(** ** Where the scratch files go *)

Lemma path_root_free (t : str) : slash_free t = true -> path_root t = [].
Proof.
  destruct t as [|a [|b [|c t]]]; cbn; intros H; try reflexivity;
    apply andb_prop in H as [Ha _]; apply negb_true_iff in Ha; now rewrite Ha.
Qed.

Lemma Path_of_single (t : str) :
  slash_free t = true -> (2 <= length t)%nat -> Path_of t = mk_Path [] [t].
Proof.
  intros Hfree Hlen. unfold Path_of.
  rewrite path_root_free, split_on_free by assumption.
  cbn [List.filter]. now rewrite keeps_part_long.
Qed.






(** ** The order of the external calls *)

Section CallOrder.
Context {World : Type}.

Lemma makes_ret {A : Type} (a : A) : makes_calls [] (ret (World:=World) a).
Proof. intros s. cbn. now rewrite app_nil_r. Qed.

Lemma makes_raise {A : Type} (e : exn) : makes_calls [] (raise (World:=World) (A:=A) e).
Proof. intros s. cbn. exists []. now rewrite app_nil_r. Qed.

Lemma makes_lift {A : Type} (r : result A) : makes_calls [] (lift (World:=World) r).
Proof.
  intros s. unfold lift. destruct r; [|exists []]; now rewrite app_nil_r.
Qed.

Lemma makes_on_ui (f : UI -> UI) : makes_calls [] (on_ui (World:=World) f).
Proof. intros s. cbn. now rewrite app_nil_r. Qed.

Lemma makes_on_files (f : gmap str File -> gmap str File) :
  makes_calls [] (on_files (World:=World) f).
Proof. intros s. cbn. now rewrite app_nil_r. Qed.

Lemma makes_when (b : bool) (m : M World unit) :
  makes_calls [] m -> makes_calls [] (when b m).
Proof. intros Hm. destruct b; [exact Hm|apply makes_ret]. Qed.

Lemma makes_call {A : Type} (ev : io_event) (f : World -> result A * World) :
  makes_calls [ev] (call ev f).
Proof.
  intros s. unfold call. destruct (f (world s)) as [[a|e] w]; cbn; [reflexivity|].
  now exists [ev].
Qed.

Lemma makes_bind {A B : Type} (d1 d2 : list io_event) (m : M World A)
    (k : A -> M World B) :
  makes_calls d1 m -> (forall a, makes_calls d2 (k a)) -> makes_calls (d1 ++ d2) (bind m k).
Proof.
  intros Hm Hk s. unfold bind. specialize (Hm s).
  destruct (m s) as [[a|e] s1].
  - specialize (Hk a s1). destruct (k a s1) as [[b|e] s2].
    + now rewrite Hk, Hm, app_assoc.
    + destruct Hk as (calls & E & Hpre). exists (d1 ++ calls).
      rewrite E, Hm, app_assoc. split; [reflexivity|]. now apply prefix_app.
  - destruct Hm as (calls & E & Hpre). exists calls. split; [exact E|].
    now apply prefix_app_r.
Qed.

Lemma makes_bind_nil {A B : Type} (d : list io_event) (m : M World A)
    (k : A -> M World B) :
  makes_calls [] m -> (forall a, makes_calls d (k a)) -> makes_calls d (bind m k).
Proof. intros Hm Hk. now apply (makes_bind [] d). Qed.

Lemma makes_event_loop (p : str) (cb : option (Z -> Z -> UI -> UI))
    (sigs : list reply_signal) (received : Z) :
  makes_calls [] (event_loop (World:=World) p cb sigs received).
Proof.
  revert received.
  induction sigs as [|[chunk|br bt] sigs IH]; intros received; cbn [event_loop].
  - apply makes_ret.
  - apply makes_bind_nil; [apply makes_on_files|intros _; apply IH].
  - apply makes_bind_nil; [|intros _; apply IH].
    destruct cb; [apply makes_on_ui|apply makes_ret].
Qed.

Lemma within_of_makes {A : Type} (d : list io_event) (m : M World A) :
  makes_calls d m -> stays_within d m.
Proof.
  intros Hm s. specialize (Hm s). destruct (m s) as [[a|e] s1]; cbn.
  - now exists d.
  - exact Hm.
Qed.

Lemma within_bind {A B : Type} (d d1 d2 : list io_event) (m : M World A)
    (k : A -> M World B) :
  makes_calls d1 m -> (forall a, stays_within d2 (k a)) -> d = d1 ++ d2 ->
  stays_within d (bind m k).
Proof.
  intros Hm Hk -> s. unfold bind. specialize (Hm s).
  destruct (m s) as [[a|e] s1]; cbn.
  - destruct (Hk a s1) as (calls & E & Hpre). exists (d1 ++ calls).
    rewrite E, Hm, app_assoc. split; [reflexivity|]. now apply prefix_app.
  - destruct Hm as (calls & E & Hpre). exists calls. split; [exact E|].
    now apply prefix_app_r.
Qed.
Lemma within_then_pure {A B : Type} (d : list io_event) (m : M World A)
    (k : A -> M World B) :
  stays_within d m -> (forall a, makes_calls [] (k a)) -> stays_within d (bind m k).
Proof.
  intros Hm Hk s. unfold bind. destruct (Hm s) as (calls & E & Hpre).
  destruct (m s) as [[a|e] s1]; cbn in E |- *; [|now exists calls].
  specialize (Hk a s1). destruct (k a s1) as [[b|e] s2]; cbn.
  - exists calls. now rewrite Hk, app_nil_r.
  - destruct Hk as (none & E2 & Hnil). apply prefix_nil_inv in Hnil as ->.
    exists calls. now rewrite E2, app_nil_r.
Qed.
End CallOrder.

(** One step of a proof that a computation makes exactly the given calls. *)
Ltac makes_step :=
  match goal with
  | |- makes_calls [] (bind _ _) => apply makes_bind_nil; [|intros ?]
  | |- makes_calls [] (when _ _) => apply makes_when
  | |- makes_calls [] (event_loop _ _ _ _) => apply makes_event_loop
  | |- makes_calls [] (ret _) => apply makes_ret
  | |- makes_calls [] (raise _) => apply makes_raise
  | |- makes_calls [] (lift _) => apply makes_lift
  | |- makes_calls [] (on_ui _) => apply makes_on_ui
  | |- makes_calls [] (log_append _) => apply makes_on_ui
  | |- makes_calls [] (on_files _) => apply makes_on_files
  | |- makes_calls [_] (call _ _) => apply makes_call
  | |- makes_calls _ (if ?b then _ else _) => destruct b
  | |- makes_calls _ (match ?x with _ => _ end) => destruct x
  end.

Section PolygonCalls.
Context {Geometry CRS World : Type} {collab : Collab Geometry CRS World}.
Implicit Types s : State World.

Lemma makes_bbox (geom : Geometry) (src_crs : CRS) :
  makes_calls [IoTransform] (_bbox_4326_from_geom geom src_crs).
Proof.
  unfold _bbox_4326_from_geom.
  apply (makes_bind [IoTransform] []); [apply makes_call|intros g; apply makes_ret].
Qed.

Lemma makes_write_mask (geom : Geometry) (src_crs : CRS) (out_path : Path) :
  makes_calls [IoTransform; IoWriteVector (path_str out_path)]
    (_write_single_polygon_geojson_4326 geom src_crs out_path).
Proof.
  unfold _write_single_polygon_geojson_4326.
  apply (makes_bind [IoTransform] [IoWriteVector _]); [apply makes_call|intros g].
  apply (makes_bind [IoWriteVector _] []); [apply makes_call|intros r].
  repeat makes_step.
Qed.

Lemma makes_http (url : QUrl) (out_path : Path) (cb : option (Z -> Z -> UI -> UI)) :
  makes_calls [IoGet (toString url); IoOpen (path_str out_path)]
    (http_get_to_file_progress url out_path cb).
Proof.
  unfold http_get_to_file_progress, file_close.
  apply (makes_bind [IoGet _] [IoOpen _]); [apply makes_call|intros reply].
  apply (makes_bind [IoOpen _] []); [apply makes_call|intros _].
  repeat makes_step.
Qed.

Lemma within_add_raster (path : Path) :
  stays_within [IoRasterLayer (path_str path); IoRender (path_str path)]
    (add_raster_gray_with_stats path).
Proof.
  unfold add_raster_gray_with_stats.
  eapply (within_bind _ [IoRasterLayer _] [IoRender _]);
    [apply makes_call| |reflexivity].
  intros valid. destruct valid; cbn [negb].
  - apply within_of_makes.
    apply (makes_bind [IoRender _] []); [apply makes_call|intros _; apply makes_ret].
  - intros s. exists []. cbn. rewrite app_nil_r. split; [reflexivity|].
    apply prefix_nil.
Qed.

Variable layer : QgsVectorLayer Geometry CRS.
Variable res_m : Z.
Variables status_label progressbar : bool.
Variable single : QgsVectorLayer Geometry CRS.
Variable tmp_root : Path.
Variable total : Z.

Lemma pipeline_within_protocol (i : Z) (f : QgsFeature Geometry) s :
  exists url calls,
    trace (polygon_pipeline layer res_m status_label single tmp_root total i f s).2
    = trace s ++ calls /\
    calls `prefix_of` polygon_protocol layer res_m tmp_root i url.
Proof.
  unfold polygon_pipeline. unfold bind at 1.
  pose proof (makes_bbox (geometry f) (crs single) s) as Hbbox.
  destruct (_bbox_4326_from_geom (geometry f) (crs single) s) as [[r|e] s1].
  2:{ destruct Hbbox as (calls & E & Hpre). exists [], calls. cbn [snd].
      split; [exact E|]. etrans; [exact Hpre|]. now exists
        (tl (polygon_protocol layer res_m tmp_root i [])). }
  destruct r as [[[minx miny] maxx] maxy].
  unfold bind at 1, lift at 1.
  destruct (meters_to_deg_step res_m) as [step|e].
  2:{ exists [], [IoTransform]. cbn [snd]. split; [exact Hbbox|].
      now exists (tl (polygon_protocol layer res_m tmp_root i [])). }
  unfold bind at 1, lift at 1.
  destruct (build_wcs_getcoverage_url _ res_m) as [url|e].
  2:{ exists [], [IoTransform]. cbn [snd]. split; [exact Hbbox|].
      now exists (tl (polygon_protocol layer res_m tmp_root i [])). }
  unfold bind at 1. unfold log_append at 1, on_ui at 1.
  match goal with |- context [(?m ?s0).2] =>
    assert (Hrest : stays_within (tl (polygon_protocol layer res_m tmp_root i (toString url))) m)
  end.
  { eapply within_bind; [apply makes_write_mask| |reflexivity]. intros _.
    eapply (within_bind _ []); [repeat makes_step| |reflexivity]. intros _.
    eapply within_bind; [apply makes_http| |reflexivity]. intros _.
    eapply (within_bind _ []); [repeat makes_step| |reflexivity]. intros _.
    eapply within_bind; [apply makes_call| |reflexivity]. intros _.
    apply within_then_pure; [apply within_add_raster|].
    intros ok. repeat makes_step. }
  destruct (Hrest (mk_State (world s1) (files s1) (trace s1)
                     (ui_append (tag i total ++ lit " WCS GetCoverage: " ++ toString url)
                        (ui s1)))) as (calls & E & Hpre).
  exists (toString url), (IoTransform :: calls). split.
  - rewrite E. cbn [trace]. rewrite Hbbox, <- app_assoc. reflexivity.
  - now apply prefix_cons.
Qed.
End PolygonCalls.

Lemma count_gets_app (a b : list io_event) :
  count_gets (a ++ b) = (count_gets a + count_gets b)%nat.
Proof. unfold count_gets. now rewrite List.filter_app, length_app. Qed.

Lemma count_gets_prefix (calls proto : list io_event) :
  calls `prefix_of` proto -> (count_gets calls <= count_gets proto)%nat.
Proof. intros [k ->]. rewrite count_gets_app. lia. Qed.

Section IterationCalls.
Context {Geometry CRS World : Type} {collab : Collab Geometry CRS World}.
Implicit Types s : State World.
Variable layer : QgsVectorLayer Geometry CRS.
Variable res_m : Z.
Variables status_label progressbar : bool.
Variable single : QgsVectorLayer Geometry CRS.
Variable tmp_root : Path.
Variable total : Z.

Local Abbreviation pipeline := (polygon_pipeline layer res_m status_label single tmp_root total).
Local Abbreviation step := (polygon_step layer res_m status_label progressbar single tmp_root total).

Lemma step_trace (i : Z) (f : QgsFeature Geometry) s :
  trace (step i f s).2 = trace (pipeline i f s).2.
Proof.
  unfold polygon_step, try_except_finally.
  destruct (pipeline i f s) as [[[]|e] s1]; [destruct progressbar; reflexivity|].
  destruct (is_Exception e), progressbar; reflexivity.
Qed.

(** X9. Whatever the collaborators do, the external calls of one iteration
    are the first calls of one fixed sequence: reprojection for the bounding
    box, reprojection for the mask, mask export, request, opening of the raw
    file, clip, raster load, styling.  So the mask is written before anything
    is requested, nothing is clipped before the download, and an iteration
    sends at most one request (no retry). *)
Theorem iteration_calls_follow_one_fixed_order (i : Z) (f : QgsFeature Geometry) s :
  exists url calls,
    trace (step i f s).2 = trace s ++ calls /\
    calls `prefix_of` polygon_protocol layer res_m tmp_root i url /\
    (count_gets calls <= 1)%nat.
Proof.
  destruct (pipeline_within_protocol layer res_m status_label single tmp_root total i f s)
    as (url & calls & E & Hpre).
  exists url, calls. rewrite step_trace. split; [exact E|]. split; [exact Hpre|].
  apply (count_gets_prefix _ _ Hpre).
Qed.

(** X10. A batch sends at most one request per polygon: the requests
    recorded during the loop never outnumber the polygons, whether the loop
    runs to its end or is aborted. *)
Theorem batch_sends_at_most_one_request_per_polygon s :
  exists calls,
    trace (batch_loop layer res_m status_label progressbar single tmp_root total s).2
    = trace s ++ calls /\
    (count_gets calls <= length (getFeatures single))%nat.
Proof.
  unfold batch_loop. generalize 1 at 1. revert s.
  induction (getFeatures single) as [|f feats IH]; intros s i; cbn [for_each length].
  - exists []. cbn. now rewrite app_nil_r.
  - unfold bind.
    destruct (pipeline_within_protocol layer res_m status_label single tmp_root total i f s)
      as (url & c1 & E1 & Hpre).
    rewrite <- step_trace in E1.
    apply count_gets_prefix in Hpre. change (count_gets (polygon_protocol _ _ _ _ _))
      with 1%nat in Hpre.
    destruct (step i f s) as [[[]|e] s1]; cbn [snd] in E1.
    + destruct (IH s1 (i + 1)) as (c2 & E2 & H2). exists (c1 ++ c2).
      rewrite E2, E1, <- app_assoc, count_gets_app. split; [reflexivity|lia].
    + exists c1. cbn [snd]. split; [exact E1|lia].
Qed.

(** X11. A keyboard interrupt, or any other exception outside [Exception],
    is not isolated: it leaves the iteration and ends the loop at that
    polygon, no error line is logged for it and the polygons after it are not
    processed; the progress bar, when there is one, is still moved to the
    index of the interrupted polygon. *)
Theorem interrupt_ends_the_batch (i : Z) (f : QgsFeature Geometry)
    (rest : list (QgsFeature Geometry)) s (e : exn) s1 :
  pipeline i f s = (Raise e, s1) ->
  is_Exception e = false ->
  let s' := mk_State (world s1) (files s1) (trace s1)
              (if progressbar then ui_setValue i (ui s1) else ui s1) in
  step i f s = (Raise e, s') /\
  for_each i (f :: rest) step s = (Raise e, s') /\
  log (ui s') = log (ui s1).
Proof.
  intros Hpipe Hexc s'.
  assert (Hstep : step i f s = (Raise e, s')).
  { unfold polygon_step, try_except_finally. rewrite Hpipe, Hexc. unfold s'.
    destruct progressbar; cbn; [reflexivity|]. now destruct s1. }
  split; [exact Hstep|]. split.
  - cbn [for_each]. now rewrite (bind_Raise _ _ _ _ _ Hstep).
  - unfold s'. now destruct progressbar.
Qed.

(** X12. A geometry that cannot be reprojected costs one external call and
    one log line: the iteration logs the error for its index and does nothing
    else -- no mask, no request, no file. *)
Theorem projection_failure_costs_one_call_and_one_line (i : Z) (f : QgsFeature Geometry)
    s (e : exn) (w : World) :
  transform (geometry f) (crs single) (world s) = (Raise e, w) ->
  is_Exception e = true ->
  step i f s =
  (Ok tt,
   mk_State w (files s) (trace s ++ [IoTransform])
     (let u := ui_append (error_line total i e) (ui s) in
      if progressbar then ui_setValue i u else u)).
Proof.
  intros Htr Hexc.
  assert (Hpipe : pipeline i f s
                  = (Raise e, mk_State w (files s) (trace s ++ [IoTransform]) (ui s))).
  { unfold polygon_pipeline, _bbox_4326_from_geom, bind, call. now rewrite Htr. }
  unfold polygon_step, try_except_finally. rewrite Hpipe, Hexc.
  destruct progressbar; reflexivity.
Qed.
End IterationCalls.

(** ** What the widgets show *)

Section UiRelated.
Context {World : Type}.
Variable R : UI -> UI -> Prop.
Hypothesis R_refl : forall u, R u u.
Hypothesis R_trans : forall u1 u2 u3, R u1 u2 -> R u2 u3 -> R u1 u3.

Lemma rel_ret {A : Type} (a : A) : ui_related R (ret (World:=World) a).
Proof. intros s. apply R_refl. Qed.

Lemma rel_raise {A : Type} (e : exn) : ui_related R (raise (World:=World) (A:=A) e).
Proof. intros s. apply R_refl. Qed.

Lemma rel_lift {A : Type} (r : result A) : ui_related R (lift (World:=World) r).
Proof. intros s. apply R_refl. Qed.

Lemma rel_call {A : Type} (ev : io_event) (f : World -> result A * World) :
  ui_related R (call ev f).
Proof. intros s. unfold call. destruct (f (world s)). apply R_refl. Qed.

Lemma rel_on_files (f : gmap str File -> gmap str File) :
  ui_related R (on_files (World:=World) f).
Proof. intros s. apply R_refl. Qed.

Lemma rel_on_ui (f : UI -> UI) : (forall u, R u (f u)) -> ui_related R (on_ui (World:=World) f).
Proof. intros Hf s. apply Hf. Qed.

Lemma rel_bind {A B : Type} (m : M World A) (k : A -> M World B) :
  ui_related R m -> (forall a, ui_related R (k a)) -> ui_related R (bind m k).
Proof.
  intros Hm Hk s. unfold bind. specialize (Hm s).
  destruct (m s) as [[a|e] s1]; [|exact Hm].
  eapply R_trans; [exact Hm|apply Hk].
Qed.

Lemma rel_when (b : bool) (m : M World unit) :
  (b = true -> ui_related R m) -> ui_related R (when b m).
Proof. intros Hm. destruct b; [now apply Hm|apply rel_ret]. Qed.

Lemma rel_try (body : M World unit) (handler : exn -> M World unit)
    (final : M World unit) :
  ui_related R body -> (forall e, ui_related R (handler e)) -> ui_related R final ->
  ui_related R (try_except_finally body handler final).
Proof.
  intros Hb Hh Hf s. unfold try_except_finally. specialize (Hb s).
  destruct (body s) as [[[]|e] s1]; cbn in Hb.
  - eapply R_trans; [exact Hb|apply Hf].
  - assert (Hmid : R (ui s1) (ui (if is_Exception e then handler e s1
                                  else (Raise e, s1)).2)).
    { destruct (is_Exception e); [apply Hh|apply R_refl]. }
    destruct (if is_Exception e then handler e s1 else (Raise e, s1)) as [r s2].
    cbn in Hmid. pose proof (Hf s2) as Hfin.
    assert (R (ui s) (ui (final s2).2)) by eauto.
    destruct r, (final s2) as [[[]|?] ?]; assumption.
Qed.

Lemma rel_for_each {A : Type} (body : Z -> A -> M World unit) (feats : list A) :
  (forall i f, ui_related R (body i f)) -> forall i, ui_related R (for_each i feats body).
Proof.
  intros Hb. induction feats as [|f feats IH]; intros i; cbn [for_each].
  - apply rel_ret.
  - apply rel_bind; [apply Hb|intros _; apply IH].
Qed.

Lemma rel_event_loop (p : str) (cb : option (Z -> Z -> UI -> UI))
    (sigs : list reply_signal) (received : Z) :
  (forall f br bt u, cb = Some f -> R u (f br bt u)) ->
  ui_related R (event_loop (World:=World) p cb sigs received).
Proof.
  intros Hcb. revert received.
  induction sigs as [|[chunk|br bt] sigs IH]; intros received; cbn [event_loop].
  - apply rel_ret.
  - apply rel_bind; [apply rel_on_files|intros _; apply IH].
  - apply rel_bind; [|intros _; apply IH].
    destruct cb as [f|]; [|apply rel_ret]. apply rel_on_ui. intros u. now apply Hcb.
Qed.
End UiRelated.

(** One structural step of a proof relating the widgets before and after. *)
Ltac rel_step :=
  match goal with
  | |- ui_related _ (bind _ _) => apply rel_bind; [assumption .. | | intros ?]
  | |- ui_related _ (ret _) => apply rel_ret; assumption
  | |- ui_related _ (raise _) => apply rel_raise; assumption
  | |- ui_related _ (lift _) => apply rel_lift; assumption
  | |- ui_related _ (call _ _) => apply rel_call; assumption
  | |- ui_related _ (on_files _) => apply rel_on_files; assumption
  | |- ui_related _ (if ?b then _ else _) => destruct b
  | |- ui_related _ (match ?x with _ => _ end) => destruct x
  end.

Section WidgetFacts.
Context {Geometry CRS World : Type} {collab : Collab Geometry CRS World}.
Implicit Types s : State World.
Variable layer : QgsVectorLayer Geometry CRS.
Variable res_m : Z.
Variables status_label progressbar : bool.
Variable R : UI -> UI -> Prop.
Hypothesis R_refl : forall u, R u u.
Hypothesis R_trans : forall u1 u2 u3, R u1 u2 -> R u2 u3 -> R u1 u3.
Hypothesis R_append : forall msg u, R u (ui_append msg u).
Hypothesis R_setText : status_label = true -> forall msg u, R u (ui_setText msg u).
Hypothesis R_setValue : progressbar = true -> forall v u, R u (ui_setValue v u).

Lemma rel_http (url : QUrl) (out_path : Path) (cb : option (Z -> Z -> UI -> UI)) :
  (forall f br bt u, cb = Some f -> R u (f br bt u)) ->
  ui_related R (http_get_to_file_progress url out_path cb).
Proof.
  intros Hcb. unfold http_get_to_file_progress, file_close.
  repeat first [apply rel_event_loop; assumption | rel_step].
Qed.

Lemma rel_cb (i total br bt : Z) (u : UI) : R u (_cb status_label i total br bt u).
Proof.
  unfold _cb. destruct status_label eqn:E; [|apply R_refl].
  destruct (bt <=? 0); now apply R_setText.
Qed.

Lemma rel_polygon_pipeline (single : QgsVectorLayer Geometry CRS) (tmp_root : Path)
    (total i : Z) (f : QgsFeature Geometry) :
  ui_related R (polygon_pipeline layer res_m status_label single tmp_root total i f).
Proof.
  unfold polygon_pipeline, _bbox_4326_from_geom, _write_single_polygon_geojson_4326,
    add_raster_gray_with_stats, log_append.
  repeat first
    [ apply rel_http; intros ? ? ? ? [= <-]; apply rel_cb
    | apply rel_when; [assumption|]; intros Hsl; apply rel_on_ui; now apply R_setText
    | apply rel_on_ui; now apply R_append
    | rel_step ].
Qed.

Lemma rel_polygon_step (single : QgsVectorLayer Geometry CRS) (tmp_root : Path)
    (total i : Z) (f : QgsFeature Geometry) :
  ui_related R (polygon_step layer res_m status_label progressbar single tmp_root total i f).
Proof.
  unfold polygon_step. apply rel_try; try assumption.
  - apply rel_polygon_pipeline.
  - intros e. apply rel_on_ui. apply R_append.
  - apply rel_when; [assumption|]. intros Hpb. apply rel_on_ui. now apply R_setValue.
Qed.

Lemma rel_batch_loop (single : QgsVectorLayer Geometry CRS) (tmp_root : Path) (total : Z) :
  ui_related R (batch_loop layer res_m status_label progressbar single tmp_root total).
Proof. apply rel_for_each; try assumption. intros i f. apply rel_polygon_step. Qed.

Hypothesis R_setRange :
  status_label && progressbar = true -> forall lo hi u, R u (ui_setRange lo hi u).

Lemma rel_download :
  ui_related R (download_poligono_wcs_split_per_polygon layer res_m status_label progressbar).
Proof.
  unfold download_poligono_wcs_split_per_polygon, _explode_to_singleparts, batch_setup,
    batch_finish, plugin_temp_dir, log_append.
  repeat first
    [ apply rel_batch_loop
    | apply rel_when; [assumption|]; intros Hboth;
      apply andb_prop in Hboth as [Hsl Hpb]
    | apply rel_on_ui; first [ now apply R_append | now apply R_setText
                             | now apply R_setValue
                             | apply R_setRange; now rewrite Hsl, Hpb ]
    | rel_step ].
Qed.
End WidgetFacts.

Section WidgetTheorems.
Context {Geometry CRS World : Type} {collab : Collab Geometry CRS World}.
Implicit Types s : State World.
Variable layer : QgsVectorLayer Geometry CRS.
Variable res_m : Z.
Variables status_label progressbar : bool.

Local Abbreviation download :=
  (download_poligono_wcs_split_per_polygon layer res_m status_label progressbar).

(** X13. A widget that was not given is never written: without a status
    label the status text stays as it was through the whole batch, and
    without a progress bar neither its value nor its range changes --
    whatever the collaborators do and however the batch ends. *)
Theorem absent_widgets_are_never_written s :
  let s' := (download_poligono_wcs_split_per_polygon layer res_m status_label
               progressbar s).2 in
  (status_label = false -> status (ui s') = status (ui s)) /\
  (progressbar = false ->
   progress_value (ui s') = progress_value (ui s) /\
   progress_range (ui s') = progress_range (ui s)).
Proof.
  cbv zeta. split; intros Hnone.
  - apply (rel_download layer res_m status_label progressbar same_status);
      unfold same_status; intros; subst; try reflexivity; try congruence.
  - apply (rel_download layer res_m status_label progressbar same_progress);
      unfold same_progress; intros; subst; try (split; reflexivity);
      try discriminate;
      repeat match goal with
             | H : _ /\ _ |- _ => destruct H
             | H : _ && _ = true |- _ => apply andb_prop in H
             end;
      try discriminate; split; congruence.
Qed.

(** X14. The batch only ever appends: the lines already in the log when it
    starts are still there, in place, when it ends, and so are the external
    calls already recorded -- for every input, valid or not, and every
    behaviour of the collaborators. *)
Theorem batch_only_appends_to_the_log s :
  let s' := (download_poligono_wcs_split_per_polygon layer res_m status_label
               progressbar s).2 in
  log (ui s) `prefix_of` log (ui s') /\
  trace s `prefix_of` trace s'.
Proof.
  cbv zeta.
  unfold download_poligono_wcs_split_per_polygon.
  destruct (negb (bool_decide (res_m ∈ VALID_RES))); [split; reflexivity|].
  assert (Hext : extends (single <~ _explode_to_singleparts layer ;;
                          let feats := getFeatures single in
                          let total := Z.of_nat (length feats) in
                          if total =? 0
                          then log_append (World:=World) (lit "La capa no contiene polígonos.")
                          else
                            tmp_root <~ batch_setup layer res_m status_label progressbar total ;;
                            batch_loop layer res_m status_label progressbar single tmp_root total ;;;
                            batch_finish status_label progressbar)).
  { apply extends_bind; [apply extends_call|].
    intros single. apply extends_after_explode. }
  exact (Hext s).
Qed.
End WidgetTheorems.

Lemma absent_widgets_are_never_written_witness :
  status (ui (download_poligono_wcs_split_per_polygon (collab:=Demo.collab)
                (Demo.layer_of [5; 7]) 30 false false Demo.start).2) = [] /\
  progress_value (ui (download_poligono_wcs_split_per_polygon (collab:=Demo.collab)
                        (Demo.layer_of [5; 7]) 30 false false Demo.start).2) = 0.
Proof.
  destruct (absent_widgets_are_never_written (collab:=Demo.collab)
              (Demo.layer_of [5; 7]) 30 false false Demo.start) as [Hs Hp].
  split; [exact (Hs eq_refl)|exact (proj1 (Hp eq_refl))].
Defined.

Section ProgressAndVerdict.
Context {Geometry CRS World : Type} {collab : Collab Geometry CRS World}.
Implicit Types s : State World.
Variable layer : QgsVectorLayer Geometry CRS.
Variable res_m : Z.
Variables status_label progressbar : bool.

Local Abbreviation pipeline := (polygon_pipeline layer res_m status_label).
Local Abbreviation step := (polygon_step layer res_m status_label progressbar).
Local Abbreviation download :=
  (download_poligono_wcs_split_per_polygon layer res_m status_label progressbar).

Lemma step_progress_value (single : QgsVectorLayer Geometry CRS) (tmp_root : Path)
    (total i : Z) (f : QgsFeature Geometry) s :
  progressbar = true ->
  progress_value (ui (step single tmp_root total i f s).2) = i.
Proof.
  intros ->. unfold polygon_step, try_except_finally.
  destruct (polygon_pipeline _ _ _ _ _ _ _ _ s) as [[[]|e] s1]; [reflexivity|].
  destruct (is_Exception e); reflexivity.
Qed.

Lemma loop_progress_value (Hcollab : raises_only_Exception)
    (single : QgsVectorLayer Geometry CRS) (tmp_root : Path) (total : Z)
    (feats : list (QgsFeature Geometry)) (i : Z) s :
  progressbar = true -> feats <> [] ->
  progress_value (ui (for_each i feats (step single tmp_root total) s).2)
  = i + Z.of_nat (length feats) - 1.
Proof.
  intros Hpb. revert i s. induction feats as [|f feats IH]; intros i s Hne;
    [contradiction|].
  cbn [for_each length].
  destruct (polygon_step_outcome layer res_m status_label progressbar single tmp_root
              total Hcollab i f s) as (s1 & Hs1 & _).
  rewrite (bind_Ok _ _ _ _ _ Hs1).
  destruct feats as [|f' feats].
  - cbn [for_each]. cbn [ret snd]. rewrite <- (step_progress_value single tmp_root total
      i f s Hpb), Hs1. cbn [snd length]. lia.
  - rewrite IH by discriminate. cbn [length]. lia.
Qed.

Lemma batch_setup_ui (total : Z) s (tmp_root : Path) s' :
  batch_setup layer res_m status_label progressbar total s = (Ok tmp_root, s') ->
  ui s' =
  if status_label && progressbar
  then ui_setValue 0 (ui_setRange 0 total
         (ui_setText (lit "Preparando " ++ str_of_int total ++ lit " polígonos…") (ui s)))
  else ui s.
Proof.
  unfold batch_setup, plugin_temp_dir, bind, call, when, on_ui, ret.
  destruct (status_label && progressbar); cbn [world files trace ui];
    repeat match goal with
           | |- context [mkdir ?p ?w] => destruct (mkdir p w) as [[[]|?] ?]
           end;
    intros [= _ <-]; reflexivity.
Qed.

(** X15. With a progress bar, a batch that reaches its loop ends with the
    bar at the number of polygons, failed polygons included; and when the
    status label is present too, the range of the bar is from 0 to that
    number. *)
Theorem progress_bar_ends_at_the_polygon_count s (single : QgsVectorLayer Geometry CRS) s1
    (tmp_root : Path) s2 :
  let feats := getFeatures single in
  let total := Z.of_nat (length feats) in
  raises_only_Exception ->
  res_m ∈ VALID_RES ->
  progressbar = true ->
  _explode_to_singleparts layer s = (Ok single, s1) ->
  feats <> [] ->
  batch_setup layer res_m status_label progressbar total s1 = (Ok tmp_root, s2) ->
  exists s_end,
    download s = (Ok tt, s_end) /\
    progress_value (ui s_end) = total /\
    (status_label = true -> progress_range (ui s_end) = (0, total)).
Proof.
  intros feats total Hcollab Hres Hpb Hexp Hne Hsetup.
  destruct (loop_runs_to_its_end layer res_m status_label progressbar single tmp_root
              total Hcollab feats 1 s2) as [s_loop Hloop].
  pose proof (loop_progress_value Hcollab single tmp_root total feats 1 s2 Hpb Hne)
    as Hvalue.
  pose proof (rel_batch_loop layer res_m status_label progressbar same_range
                ltac:(intros; reflexivity) ltac:(unfold same_range; intros; congruence)
                ltac:(intros; reflexivity) ltac:(intros; reflexivity)
                ltac:(intros; reflexivity) single tmp_root total s2) as Hrange.
  unfold batch_loop in Hrange. fold feats in Hrange.
  rewrite Hloop in Hvalue, Hrange. cbn [snd] in Hvalue, Hrange.
  unfold same_range in Hrange.
  exists (batch_finish status_label progressbar s_loop).2.
  split; [|split].
  - rewrite (download_from_loop_entry layer res_m status_label progressbar
               s single s1 tmp_root s2 s_loop); auto.
    unfold batch_finish. destruct (status_label && progressbar); reflexivity.
  - unfold batch_finish. destruct (status_label && progressbar); cbn;
      rewrite Hvalue; unfold total; lia.
  - intros Hsl. rewrite (batch_setup_ui _ _ _ _ Hsetup), Hsl, Hpb in Hrange.
    cbn in Hrange. unfold batch_finish. rewrite Hsl, Hpb. cbn. exact Hrange.
Qed.
End ProgressAndVerdict.

Section Verdict.
Context {Geometry CRS World : Type} {collab : Collab Geometry CRS World}.
Implicit Types s : State World.

Lemma ends_bind {A B : Type} (L : list str) (m : M World A) (k : A -> M World B) :
  (forall a, ends_with L (k a)) -> ends_with L (bind m k).
Proof.
  intros Hk s b s' E. unfold bind in E. destruct (m s) as [[a|e] s1]; [|discriminate E].
  eapply Hk, E.
Qed.

Lemma ends_log_append (L : list str) (msg : str) :
  msg ∈ L -> ends_with L (log_append (World:=World) msg).
Proof.
  intros Hin s a s' [= _ <-]. exists msg. cbn. split; [apply last_snoc|exact Hin].
Qed.

Variable layer : QgsVectorLayer Geometry CRS.
Variable res_m : Z.
Variables status_label progressbar : bool.
Variable single : QgsVectorLayer Geometry CRS.
Variable tmp_root : Path.
Variable total : Z.

Local Abbreviation pipeline := (polygon_pipeline layer res_m status_label single tmp_root total).
Local Abbreviation step := (polygon_step layer res_m status_label progressbar single tmp_root total).

Lemma pipeline_ends_with_a_verdict (i : Z) (f : QgsFeature Geometry) :
  ends_with [ok_line layer res_m tmp_root total i; invalid_line layer res_m tmp_root total i]
    (pipeline i f).
Proof.
  unfold polygon_pipeline.
  apply ends_bind; intros [[[minx miny] maxx] maxy].
  repeat (apply ends_bind; intros ?).
  match goal with |- ends_with _ (if ?b then _ else _) => destruct b end;
    apply ends_log_append; unfold ok_line, invalid_line.
  - rewrite elem_of_cons. now left.
  - rewrite !elem_of_cons. right. now left.
Qed.

(** X16. Every iteration ends normally and leaves a verdict as the last line
    of the log: the OK line or the invalid-file line when its pipeline
    returned, the error line of the raised exception otherwise.  A clipped
    file that does not load is reported, but is not a failure. *)
Theorem every_iteration_ends_with_a_verdict (Hcollab : raises_only_Exception)
    (i : Z) (f : QgsFeature Geometry) s :
  exists s' line,
    step i f s = (Ok tt, s') /\
    last (log (ui s')) = Some line /\
    match (pipeline i f s).1 with
    | Ok _ => line = ok_line layer res_m tmp_root total i \/
              line = invalid_line layer res_m tmp_root total i
    | Raise e => line = error_line total i e
    end.
Proof.
  destruct (polygon_step_outcome layer res_m status_label progressbar single tmp_root
              total Hcollab i f s) as (s' & Hstep & Hlog).
  exists s'. destruct (pipeline i f s) as [[[]|e] s1] eqn:Hpipe; cbn [fst snd] in *.
  - destruct (pipeline_ends_with_a_verdict i f s tt s1 Hpipe) as (line & Hlast & Hin).
    exists line. rewrite Hlog, app_nil_r. split; [exact Hstep|]. split; [exact Hlast|].
    rewrite !elem_of_cons, elem_of_nil in Hin. tauto.
  - exists (error_line total i e). rewrite Hlog. split; [exact Hstep|].
    split; [apply last_snoc|reflexivity].
Qed.
End Verdict.

Section FailedDownload.
Context {Geometry CRS World : Type} {collab : Collab Geometry CRS World}.
Implicit Types s : State World.

Lemma bbox_run (geom : Geometry) (src_crs : CRS) s (g : Geometry) (w : World) :
  transform geom src_crs (world s) = (Ok g, w) ->
  _bbox_4326_from_geom geom src_crs s
  = (Ok (boundingBox g), mk_State w (files s) (trace s ++ [IoTransform]) (ui s)).
Proof. intros H. unfold _bbox_4326_from_geom, bind, call. now rewrite H. Qed.

Lemma http_run (url : QUrl) (out_path : Path) (cb : option (Z -> Z -> UI -> UI)) s
    (reply : Reply) (w1 w2 : World) :
  nam_get url (world s) = (reply, w1) ->
  open_wb (path_str out_path) w1 = (Ok tt, w2) ->
  exists s',
    http_get_to_file_progress url out_path cb s =
    (if error reply =? 0 then Ok tt
     else Raise (mk_exn RuntimeError (lit "Error de red: " ++ errorString reply)), s') /\
    files s' !! path_str out_path
      = Some (mk_File (received_bytes (signals reply)) true) /\
    trace s' = trace s ++ [IoGet (toString url); IoOpen (path_str out_path)] /\
    world s' = w2.
Proof.
  intros Hget Hopen. unfold http_get_to_file_progress.
  set (p := path_str out_path) in *.
  unfold bind at 1. unfold call at 1. rewrite Hget.
  unfold bind at 1. unfold call at 1. cbn [world]. rewrite Hopen.
  unfold bind at 1. unfold on_files at 1. cbn [world files trace ui].
  set (s1 := mk_State w2 (<[p:=mk_File [] false]> (files s))
               ((trace s ++ [IoGet (toString url)]) ++ [IoOpen p]) (ui s)).
  destruct (event_loop_writes p cb (signals reply) 0 s1 [] false)
    as (n & s2 & Hrun & Hfile & _ & Hw & Ht).
  { apply lookup_insert_eq. }
  unfold bind at 1. rewrite Hrun. unfold bind, file_close, on_files.
  eexists. split.
  { destruct (error reply =? 0); cbn [negb]; reflexivity. }
  cbn [files trace world]. split; [|split].
  - rewrite lookup_alter_eq, Hfile. reflexivity.
  - rewrite Ht. unfold s1. cbn [trace]. now rewrite <- app_assoc.
  - rewrite Hw. reflexivity.
Qed.

Variable layer : QgsVectorLayer Geometry CRS.
Variable res_m : Z.
Variables status_label progressbar : bool.
Variable single : QgsVectorLayer Geometry CRS.
Variable tmp_root : Path.
Variable total : Z.

Local Abbreviation step := (polygon_step layer res_m status_label progressbar single tmp_root total).

(** X17. When the request of a polygon ends with a network error (after the
    bounding box, the mask and the opening of the raw file went well), the
    iteration logs the request line and then the error line with the
    network detail, and stops there: the bytes received stay on disk in the
    closed raw file, and nothing is clipped or loaded. *)
Theorem failed_download_leaves_the_raw_file_and_skips_the_clip
    (i : Z) (f : QgsFeature Geometry) s
    (g1 g2 : Geometry) (w1 w2 w3 w4 w5 : World) (minx miny maxx maxy pad : float)
    (url : QUrl) (ret : writer_return) (reply : Reply) :
  meters_to_deg_step res_m = Ok pad ->
  transform (geometry f) (crs single) (world s) = (Ok g1, w1) ->
  boundingBox g1 = (minx, miny, maxx, maxy) ->
  build_wcs_getcoverage_url (minx - pad, miny - pad, maxx + pad, maxy + pad)%float res_m
  = Ok url ->
  transform (geometry f) (crs single) w1 = (Ok g2, w2) ->
  writeAsVectorFormatV2 g2 (path_str (mask_geojson_path tmp_root i)) w2 = (Ok ret, w3) ->
  writer_code ret = NoError ->
  nam_get url w3 = (reply, w4) ->
  error reply <> 0 ->
  open_wb (path_str (tif_raw_path tmp_root i)) w4 = (Ok tt, w5) ->
  exists s',
    step i f s = (Ok tt, s') /\
    log (ui s') =
      log (ui s) ++
      [ tag i total ++ lit " WCS GetCoverage: " ++ toString url;
        error_line total i
          (mk_exn RuntimeError (lit "Error de red: " ++ errorString reply)) ] /\
    trace s' = trace s ++ take 5 (polygon_protocol layer res_m tmp_root i (toString url)) /\
    files s' !! path_str (tif_raw_path tmp_root i)
      = Some (mk_File (received_bytes (signals reply)) true) /\
    world s' = w5.
Proof.
  intros Hpad Htr1 Hbb Hurl Htr2 Hwr Hcode Hget Herr Hopen.
  set (line := tag i total ++ lit " WCS GetCoverage: " ++ toString url).
  set (sa := mk_State w1 (files s) (trace s ++ [IoTransform]) (ui_append line (ui s))).
  set (sb := mk_State w3 (files s)
               ((trace s ++ [IoTransform]) ++
                [IoTransform; IoWriteVector (path_str (mask_geojson_path tmp_root i))])
               (ui_append line (ui s))).
  set (sc := if status_label
             then mk_State w3 (files sb) (trace sb)
                    (ui_setText (tag i total ++ lit " Descargando WCS " ++
                                 str_of_int res_m ++ lit " m…") (ui sb))
             else sb).
  destruct (http_run url (tif_raw_path tmp_root i) (Some (_cb status_label i total)) sc
              reply w4 w5) as (sd & Hhttp & Hfile & Htrace & Hworld).
  { unfold sc. destruct status_label; exact Hget. }
  { exact Hopen. }
  assert (Hlogd : log (ui sd) = log (ui sc)).
  { pose proof (rel_http (fun u u' => log u' = log u) ltac:(intros; reflexivity)
                  ltac:(intros; congruence) url (tif_raw_path tmp_root i)
                  (Some (_cb status_label i total))
                  ltac:(intros ? ? ? ? [= <-]; apply _cb_keeps_log) sc) as H.
    rewrite Hhttp in H. exact H. }
  destruct (Z.eqb_spec (error reply) 0) as [|_]; [contradiction|].
  assert (Hpipe : polygon_pipeline layer res_m status_label single tmp_root total i f s
                  = (Raise (mk_exn RuntimeError (lit "Error de red: " ++ errorString reply)),
                     sd)).
  { unfold polygon_pipeline.
    rewrite (bind_Ok _ _ _ _ _ (bbox_run _ _ _ _ _ Htr1)). rewrite Hbb. cbv iota beta.
    unfold bind at 1. unfold lift at 1. rewrite Hpad.
    unfold bind at 1. unfold lift at 1. rewrite Hurl.
    unfold bind at 1. unfold log_append at 1, on_ui at 1. cbn [world files trace ui].
    fold line. fold sa.
    assert (Hmask : _write_single_polygon_geojson_4326 (geometry f) (crs single)
                      (mask_geojson_path tmp_root i) sa = (Ok tt, sb)).
    { rewrite (write_mask_run _ _ _ sa g2 w2 ret w3 Htr2 Hwr), Hcode. reflexivity. }
    rewrite (bind_Ok _ _ _ _ _ Hmask).
    assert (Hwhen : when status_label
                      (on_ui (ui_setText (tag i total ++ lit " Descargando WCS " ++
                                          str_of_int res_m ++ lit " m…"))) sb
                    = (Ok tt, sc)).
    { unfold sc. destruct status_label; [reflexivity|]. now destruct sb. }
    rewrite (bind_Ok _ _ _ _ _ Hwhen).
    now rewrite (bind_Raise _ _ _ _ _ Hhttp). }
  unfold polygon_step, try_except_finally. rewrite Hpipe. cbn [is_Exception exn_cls].
  exists (mk_State (world sd) (files sd) (trace sd)
            (let u := ui_append
                        (error_line total i
                           (mk_exn RuntimeError (lit "Error de red: " ++ errorString reply)))
                        (ui sd) in
             if progressbar then ui_setValue i u else u)).
  split.
  { destruct progressbar; reflexivity. }
  assert (Hlogc : log (ui sc) = log (ui s) ++ [line]).
  { unfold sc. destruct status_label; reflexivity. }
  assert (Htrc : trace sc = trace sb).
  { unfold sc. destruct status_label; reflexivity. }
  assert (Hlog : log (ui sd) ++
                 [error_line total i
                    (mk_exn RuntimeError (lit "Error de red: " ++ errorString reply))]
                 = log (ui s) ++
                   [line; error_line total i
                      (mk_exn RuntimeError (lit "Error de red: " ++ errorString reply))]).
  { now rewrite Hlogd, Hlogc, <- app_assoc. }
  assert (Htr : trace sd
                = trace s ++ take 5 (polygon_protocol layer res_m tmp_root i (toString url))).
  { rewrite Htrace, Htrc. unfold sb. cbn [trace]. now rewrite <- !app_assoc. }
  destruct progressbar; cbn [world files trace ui log ui_append ui_setValue];
    repeat split; assumption.
Qed.
End FailedDownload.

(** ** The extra properties on concrete runs *)

Lemma interrupt_ends_the_batch_witness :
  exists s',
    for_each 1 [mk_QgsFeature 5; mk_QgsFeature 7]
      (polygon_step (collab:=Faulty.collab (Faulty.mk_faults false false false true))
         (Demo.layer_of [5; 7]) 30 true true (Demo.layer_of [5; 7]) Demo.tmp_root 2)
      Demo.start
    = (Raise (mk_exn NonException (lit "KeyboardInterrupt")), s') /\
    progress_value (ui s') = 1.
Proof.
  assert (Hpipe : polygon_pipeline
                    (collab:=Faulty.collab (Faulty.mk_faults false false false true))
                    (Demo.layer_of [5; 7]) 30 true (Demo.layer_of [5; 7]) Demo.tmp_root 2 1
                    (mk_QgsFeature 5) Demo.start
                  = (Raise (mk_exn NonException (lit "KeyboardInterrupt")),
                     (polygon_pipeline
                        (collab:=Faulty.collab (Faulty.mk_faults false false false true))
                        (Demo.layer_of [5; 7]) 30 true (Demo.layer_of [5; 7])
                        Demo.tmp_root 2 1 (mk_QgsFeature 5) Demo.start).2)).
  { apply pair_with_fst. vm_compute. reflexivity. }
  destruct (interrupt_ends_the_batch
              (collab:=Faulty.collab (Faulty.mk_faults false false false true))
              (Demo.layer_of [5; 7]) 30 true true (Demo.layer_of [5; 7]) Demo.tmp_root 2 1
              (mk_QgsFeature 5) [mk_QgsFeature 7] Demo.start _ _ Hpipe eq_refl)
    as (_ & Hloop & _).
  eexists. split; [exact Hloop|]. reflexivity.
Defined.

Lemma projection_failure_costs_one_call_and_one_line_witness :
  polygon_step (collab:=Demo.collab) (Demo.layer_of [-7]) 30 true true
    (Demo.layer_of [-7]) Demo.tmp_root 1 1 (mk_QgsFeature (-7)) Demo.start =
  (Ok tt,
   mk_State 0%nat ∅ ([] ++ [IoTransform])
     (let u := ui_append
                 (error_line 1 1 (mk_exn OtherException (lit "cannot transform")))
                 (ui Demo.start) in
      if true then ui_setValue 1 u else u)).
Proof.
  exact (projection_failure_costs_one_call_and_one_line (collab:=Demo.collab)
           (Demo.layer_of [-7]) 30 true true (Demo.layer_of [-7]) Demo.tmp_root 1 1
           (mk_QgsFeature (-7)) Demo.start
           (mk_exn OtherException (lit "cannot transform")) 0%nat eq_refl eq_refl).
Defined.

Lemma progress_bar_ends_at_the_polygon_count_witness :
  raises_only_Exception (collab:=Demo.collab) /\
  exists s_end,
    DemoRuns.run [5; 7; 9] = (Ok tt, s_end) /\
    progress_value (ui s_end) = 3 /\
    (true = true -> progress_range (ui s_end) = (0, 3)).
Proof.
  split; [exact demo_raises_only_Exception|].
  assert (Hexp : _explode_to_singleparts (collab:=Demo.collab)
                   (Demo.layer_of [5; 7; 9]) Demo.start
                 = (Ok (Demo.layer_of [5; 7; 9]),
                    mk_State 0%nat ∅ [IoExplode (lit "parcels")] (ui Demo.start)))
    by reflexivity.
  assert (Hsetup : batch_setup (collab:=Demo.collab) (Demo.layer_of [5; 7; 9]) 30 true true
                     (Z.of_nat (length (getFeatures (Demo.layer_of [5; 7; 9]))))
                     (mk_State 0%nat ∅ [IoExplode (lit "parcels")] (ui Demo.start))
                   = (Ok Demo.tmp_root, DemoRuns.loop_entry [5; 7; 9]))
    by (vm_compute; reflexivity).
  exact (progress_bar_ends_at_the_polygon_count (collab:=Demo.collab)
           (Demo.layer_of [5; 7; 9]) 30 true true Demo.start (Demo.layer_of [5; 7; 9]) _
           Demo.tmp_root (DemoRuns.loop_entry [5; 7; 9])
           demo_raises_only_Exception demo_valid_resolution eq_refl Hexp
           ltac:(discriminate) Hsetup).
Defined.

Lemma every_iteration_ends_with_a_verdict_witness :
  raises_only_Exception (collab:=Demo.collab) /\
  exists s' line,
    polygon_step (collab:=Demo.collab) (Demo.layer_of [5]) 30 true true
      (Demo.layer_of [5]) Demo.tmp_root 1 1 (mk_QgsFeature 5) Demo.start = (Ok tt, s') /\
    last (log (ui s')) = Some line /\
    match (polygon_pipeline (collab:=Demo.collab) (Demo.layer_of [5]) 30 true
             (Demo.layer_of [5]) Demo.tmp_root 1 1 (mk_QgsFeature 5) Demo.start).1 with
    | Ok _ => line = ok_line (Demo.layer_of [5]) 30 Demo.tmp_root 1 1 \/
              line = invalid_line (Demo.layer_of [5]) 30 Demo.tmp_root 1 1
    | Raise e => line = error_line 1 1 e
    end.
Proof.
  split; [exact demo_raises_only_Exception|].
  exact (every_iteration_ends_with_a_verdict (collab:=Demo.collab)
           (Demo.layer_of [5]) 30 true true (Demo.layer_of [5]) Demo.tmp_root 1
           demo_raises_only_Exception 1 (mk_QgsFeature 5) Demo.start).
Defined.

Lemma failed_download_leaves_the_raw_file_and_skips_the_clip_witness :
  exists s',
    polygon_step (collab:=Demo.collab) (Demo.layer_of [5; 7]) 30 true true
      (Demo.layer_of [5; 7]) Demo.tmp_root 2 2 (mk_QgsFeature 7)
      (mk_State 1%nat ∅ [] (ui Demo.start)) = (Ok tt, s') /\
    files s' !! path_str (tif_raw_path Demo.tmp_root 2)
      = Some (mk_File [Byte.x49] true) /\
    world s' = 2%nat.
Proof.
  assert (Hurl : build_wcs_getcoverage_url
                   (7 - 1 / 3600, 7 - 1 / 3600, 8 + 1 / 3600, 8 + 1 / 3600)%float 30
                 = Ok (match build_wcs_getcoverage_url
                               (7 - 1 / 3600, 7 - 1 / 3600, 8 + 1 / 3600, 8 + 1 / 3600)%float
                               30 with
                       | Ok u => u
                       | Raise _ => mk_QUrl [] []
                       end))
    by (vm_compute; reflexivity).
  assert (Hbb : boundingBox (Collab:=Demo.collab) 7 = (7, 7, 8, 8)%float)
    by (vm_compute; reflexivity).
  destruct (failed_download_leaves_the_raw_file_and_skips_the_clip (collab:=Demo.collab)
              (Demo.layer_of [5; 7]) 30 true true (Demo.layer_of [5; 7]) Demo.tmp_root 2 2
              (mk_QgsFeature 7) (mk_State 1%nat ∅ [] (ui Demo.start))
              7 7 1%nat 1%nat 1%nat 2%nat 2%nat 7 7 8 8 (1 / 3600)%float _
              (WTuple NoError []) (Demo.reply_of 1)
              eq_refl eq_refl Hbb Hurl eq_refl eq_refl eq_refl eq_refl
              ltac:(discriminate) eq_refl)
    as (s' & Hstep & _ & _ & Hfile & Hworld).
  exists s'. split; [exact Hstep|]. split; [exact Hfile|exact Hworld].
Defined.

(** * The state downloader *)

(** ** The package requested from INEGI *)

Lemma str_of_int_as_format (i : Z) : str_of_int i = format_0wd 1 i.
Proof.
  unfold str_of_int, format_0wd, str_of_N.
  pose proof (num_digits_pos (Z.abs_N i)) as Hpos.
  destruct (i <? 0); [reflexivity|].
  now rewrite Nat.max_r by lia.
Qed.

Lemma str_of_int_inj (i j : Z) : str_of_int i = str_of_int j -> i = j.
Proof. rewrite !str_of_int_as_format. now apply format_0wd_inj. Qed.

Lemma str_of_int_no_underscore (i : Z) : "_"%char ∉ str_of_int i.
Proof.
  assert (Hd : forall w n, "_"%char ∉ fixed_digits w n).
  { intros w n Hin. apply list_elem_of_In in Hin.
    pose proof (forallb_fixed_digits w n) as Hall.
    rewrite forallb_forall in Hall. apply Hall in Hin. discriminate Hin. }
  unfold str_of_int, str_of_N. destruct (i <? 0); [|apply Hd].
  cbn. rewrite not_elem_of_cons. split; [discriminate|apply Hd].
Qed.

Lemma delimited_inj (c : ascii) (a1 a2 x1 x2 : str) :
  c ∉ a1 -> c ∉ a2 -> a1 ++ c :: x1 = a2 ++ c :: x2 -> a1 = a2 /\ x1 = x2.
Proof.
  revert a2. induction a1 as [|h a1 IH]; intros [|h2 a2] H1 H2 E; cbn in E.
  - now injection E as ->.
  - injection E as <- _. exfalso. apply H2. left.
  - injection E as -> _. exfalso. apply H1. left.
  - injection E as -> E.
    apply not_elem_of_cons in H1 as [_ H1]. apply not_elem_of_cons in H2 as [_ H2].
    now destruct (IH a2 H1 H2 E) as [-> ->].
Qed.

Lemma estado_fname_shape (c : str) (r : Z) :
  Estado.estado_fname c r =
  lit "CEM_V3_20170619_R" ++ str_of_int r ++
  "_"%char :: "E"%char :: c ++ (if r =? 15 then lit "_TIF.zip" else lit ".zip").
Proof. unfold Estado.estado_fname. destruct (r =? 15); reflexivity. Qed.

(** X18. The file name requested from INEGI identifies the state code and
    the resolution: two requests that differ in either ask for different
    files. *)
Theorem package_name_identifies_state_and_resolution (c1 c2 : str) (r1 r2 : Z) :
  (c1, r1) <> (c2, r2) -> Estado.estado_fname c1 r1 <> Estado.estado_fname c2 r2.
Proof.
  intros Hne E. apply Hne. rewrite !estado_fname_shape in E.
  apply app_inv_head in E.
  apply delimited_inj in E as [Hr E]; try apply str_of_int_no_underscore.
  apply str_of_int_inj in Hr as ->.
  injection E as E. now apply app_inv_tail in E as ->.
Qed.

Lemma package_name_identifies_state_and_resolution_witness :
  (lit "06", 15) <> (lit "06", 30) /\
  Estado.estado_fname (lit "06") 15 <> Estado.estado_fname (lit "06") 30.
Proof.
  assert (H : (lit "06", 15) <> (lit "06", 30)) by discriminate.
  split; [exact H|].
  exact (package_name_identifies_state_and_resolution (lit "06") (lit "06") 15 30 H).
Defined.

(** ** Which extracted files are rasters *)

Lemma lower_char_dot (c : ascii) :
  Ascii.eqb (Estado.lower_char c) "." = Ascii.eqb c ".".
Proof. destruct c as [[] [] [] [] [] [] [] []]; reflexivity. Qed.

Lemma rfind_lower (s : str) : Estado.rfind "." (Estado.lower s) = Estado.rfind "." s.
Proof.
  induction s as [|a s IH]; [reflexivity|].
  cbn [Estado.lower map Estado.rfind]. fold (Estado.lower s).
  now rewrite IH, lower_char_dot.
Qed.

Lemma rfind_bound (c : ascii) (s : str) (i : nat) :
  Estado.rfind c s = Some i -> (i < length s)%nat.
Proof.
  revert i. induction s as [|a s IH]; intros i; cbn [Estado.rfind length]; [discriminate|].
  destruct (Estado.rfind c s) as [j|].
  - intros [= <-]. specialize (IH j eq_refl). lia.
  - destruct (Ascii.eqb a c); [|discriminate]. intros [= <-]. lia.
Qed.

Lemma rfind_last (c : ascii) (a b : str) :
  Estado.rfind c b = None -> Estado.rfind c (a ++ c :: b) = Some (length a).
Proof.
  intros Hb. induction a as [|x a IH]; cbn [app Estado.rfind length].
  - now rewrite Hb, Ascii.eqb_refl.
  - now rewrite IH.
Qed.

(** A recognised extension is a dot followed by letters. *)
Lemma extension_shape (ext : str) :
  Estado.lower ext ∈ Estado.exts ->
  exists rest, ext = "."%char :: rest /\ rest <> [] /\ Estado.rfind "." rest = None.
Proof.
  intros Hin.
  assert (Hlow : exists L, Estado.lower ext = "."%char :: L /\ L <> [] /\
                           Estado.rfind "." L = None).
  { unfold Estado.exts in Hin. rewrite !elem_of_cons in Hin.
    destruct Hin as [-> | [-> | [-> | [-> | Hin]]]];
      [| | | |now apply elem_of_nil in Hin];
      eexists; (split; [reflexivity|split; [discriminate|reflexivity]]). }
  destruct Hlow as (L & HL & Hne & Hdot).
  destruct ext as [|c0 rest]; [discriminate HL|].
  cbn [Estado.lower map] in HL. fold (Estado.lower rest) in HL.
  injection HL as Hc0 Hrest.
  exists rest. split; [|split].
  - f_equal. apply Ascii.eqb_eq. rewrite <- lower_char_dot, Hc0. reflexivity.
  - intros ->. now apply Hne.
  - now rewrite <- rfind_lower, Hrest.
Qed.

Lemma path_name_single (fn : str) :
  slash_free fn = true -> (2 <= length fn)%nat -> Estado.path_name (Path_of fn) = fn.
Proof. intros Hfree Hlen. now rewrite Path_of_single. Qed.

Lemma short_name_has_no_suffix (fn : str) :
  slash_free fn = true -> (length fn < 2)%nat -> Estado.path_suffix (Path_of fn) = [].
Proof.
  intros Hfree Hlen. destruct fn as [|c [|d fn]]; [reflexivity| |cbn in Hlen; lia].
  unfold Path_of. rewrite path_root_free, split_on_free by assumption.
  unfold Estado.path_suffix, Estado.path_name.
  cbn [List.filter keeps_part].
  destruct (Ascii.eqb c ".") eqn:E; cbn; rewrite ?E; reflexivity.
Qed.

(** X19. Among the bare file names of the extracted tree, the ones taken
    for rasters are exactly a non-empty stem followed by [.tif], [.tiff],
    [.bil] or [.img] in any letter case. *)
Theorem rasters_are_a_stem_and_one_of_four_extensions (fn : str) :
  slash_free fn = true ->
  Estado.is_raster_name fn = true <->
  exists stem ext, fn = stem ++ ext /\ stem <> [] /\ Estado.lower ext ∈ Estado.exts.
Proof.
  intros Hfree. unfold Estado.is_raster_name. rewrite bool_decide_eq_true. split.
  - intros Hin.
    destruct (le_lt_dec 2 (length fn)) as [Hlen|Hlen].
    + unfold Estado.path_suffix in Hin. rewrite path_name_single in Hin by assumption.
      destruct (Estado.rfind "." fn) as [i|] eqn:Ei.
      * destruct ((0 <? i)%nat && (i <? length fn - 1)%nat) eqn:Ec.
        -- apply andb_prop in Ec as [Hpos Hend].
           apply Nat.ltb_lt in Hpos. apply Nat.ltb_lt in Hend.
           exists (take i fn), (drop i fn). split; [now rewrite take_drop|].
           split; [|exact Hin].
           intros Hnil. apply (f_equal length) in Hnil.
           rewrite length_take in Hnil. cbn in Hnil. lia.
        -- exfalso. revert Hin. unfold Estado.exts. cbn. rewrite !elem_of_cons.
           intros [H|[H|[H|[H|H]]]]; try discriminate H. now apply elem_of_nil in H.
      * exfalso. revert Hin. unfold Estado.exts. cbn. rewrite !elem_of_cons.
        intros [H|[H|[H|[H|H]]]]; try discriminate H. now apply elem_of_nil in H.
    + rewrite short_name_has_no_suffix in Hin by assumption.
      exfalso. revert Hin. unfold Estado.exts. cbn. rewrite !elem_of_cons.
      intros [H|[H|[H|[H|H]]]]; try discriminate H. now apply elem_of_nil in H.
  - intros (stem & ext & -> & Hstem & Hext).
    destruct (extension_shape ext Hext) as (rest & -> & Hrest & Hdot).
    assert (Hlen : (2 <= length (stem ++ "."%char :: rest))%nat).
    { rewrite length_app. cbn. destruct stem; [contradiction|cbn; lia]. }
    unfold Estado.path_suffix. rewrite path_name_single by assumption.
    rewrite rfind_last by assumption.
    assert (Hc : ((0 <? length stem)%nat &&
                  (length stem <? length (stem ++ "."%char :: rest) - 1)%nat) = true).
    { apply andb_true_intro. split; apply Nat.ltb_lt.
      - destruct stem; [contradiction|cbn; lia].
      - rewrite length_app. cbn. destruct rest; [contradiction|cbn; lia]. }
    rewrite Hc. now rewrite drop_app_length.
Qed.

Lemma rasters_are_a_stem_and_one_of_four_extensions_witness :
  slash_free (lit "cem_r15.TIF") = true /\
  (Estado.is_raster_name (lit "cem_r15.TIF") = true <->
   exists stem ext, lit "cem_r15.TIF" = stem ++ ext /\ stem <> [] /\
                    Estado.lower ext ∈ Estado.exts).
Proof.
  assert (H : slash_free (lit "cem_r15.TIF") = true) by reflexivity.
  split; [exact H|].
  exact (rasters_are_a_stem_and_one_of_four_extensions (lit "cem_r15.TIF") H).
Defined.

(** ** The download of a state package *)

Section EstadoFacts.
Context {Geometry CRS World : Type} {collab : Collab Geometry CRS World}
        {zips : ZipCollab World}.
Variable url_text : QUrl -> str.
Implicit Types s : State World.

Lemma safe_untraced {A : Type} (f : World -> result A * World) :
  only_Exception f -> safe (untraced f).
Proof.
  intros Hf s e s' E. unfold untraced in E.
  destruct (f (world s)) as [r w] eqn:Ef. injection E as -> _. eapply Hf, Ef.
Qed.

Lemma safe_for_each {A : Type} (body : Z -> A -> M World unit) (l : list A) (i : Z) :
  (forall j a, safe (body j a)) -> safe (for_each i l body).
Proof.
  intros Hb. revert i. induction l as [|a l IH]; intros i; cbn [for_each].
  - apply safe_ret.
  - apply safe_bind; [apply Hb|intros _; apply IH].
Qed.

Lemma safe_add_one_raster (i : Z) (rpath : Path) :
  Estado.raises_only_Exception -> safe (Estado.add_one_raster i rpath).
Proof.
  intros (_ & _ & _ & Hvalid & Hrender).
  unfold Estado.add_one_raster, add_raster_gray_with_stats.
  repeat first [safe_step | apply Hvalid | apply Hrender].
Qed.

Lemma safe_estado_pipeline (entidad cve : str) (res_m : Z) :
  Estado.raises_only_Exception ->
  safe (Estado.estado_pipeline url_text entidad cve res_m).
Proof.
  intros Hc. pose proof Hc as (Hmk & Hop & Hzip & _ & _).
  unfold Estado.estado_pipeline, plugin_temp_dir, http_get_to_file_progress, file_close,
    Estado.unzip_all.
  repeat first
    [ apply safe_event_loop
    | apply safe_untraced; apply Hzip
    | apply safe_for_each; intros; now apply safe_add_one_raster
    | (intros s e s' E; discriminate E)
    | safe_step
    | apply Hmk | apply Hop
    | (intros w e w' E; discriminate E)
    | (intros w e w' E; destruct (nam_get _ w); discriminate E) ].
Qed.

(** *** How a normal return leaves the widgets *)

Lemma leaves_bind {A B : Type} (P : UI -> Prop) (m : M World A) (k : A -> M World B) :
  (forall a, leaves P (k a)) -> leaves P (bind m k).
Proof.
  intros Hk s b s' E. unfold bind in E. destruct (m s) as [[a|e] s1]; [|discriminate E].
  eapply Hk, E.
Qed.

Lemma leaves_text_then_line (P : UI -> Prop) (t l : str) :
  (forall u, P (ui_append l (ui_setText t u))) ->
  leaves P (on_ui (World:=World) (ui_setText t) ;;; log_append l).
Proof. intros HP s a s' [= _ <-]. apply HP. Qed.

Lemma pipeline_leaves_a_verdict (entidad cve : str) (res_m : Z) :
  leaves Estado.verdict (Estado.estado_pipeline url_text entidad cve res_m).
Proof.
  unfold Estado.estado_pipeline.
  repeat (apply leaves_bind; intros ?).
  match goal with |- leaves _ (match ?l with _ => _ end) => destruct l end.
  - apply leaves_text_then_line. intros u.
    apply Estado.NoRasters; [apply last_snoc|reflexivity].
  - repeat first [apply leaves_text_then_line | apply leaves_bind; intros ?].
    intros u. apply Estado.Done; [apply last_snoc|reflexivity].
Qed.

(** X20. With collaborators that raise only instances of [Exception], the
    state download always returns normally, and it ends in one of three
    ways: the no-rasters message, the completion message, or the line
    [ERROR: ...] with the status [Error.] and the progress bar reset to 0
    of 100. *)
Theorem state_download_always_returns_with_a_verdict (entidad cve : str) (res_m : Z) s :
  Estado.raises_only_Exception ->
  exists s',
    Estado.download_estado_with_progress url_text entidad cve res_m s = (Ok tt, s') /\
    Estado.verdict (ui s').
Proof.
  intros Hc. unfold Estado.download_estado_with_progress, try_except_finally.
  destruct (Estado.estado_pipeline url_text entidad cve res_m s) as [[[]|e] s1] eqn:E.
  - exists s1. split; [reflexivity|]. eapply pipeline_leaves_a_verdict, E.
  - rewrite (safe_estado_pipeline _ _ _ Hc _ _ _ E).
    eexists. split; [reflexivity|].
    apply Estado.Failed with e; [apply last_snoc|reflexivity..].
Qed.

(** *** The loop over the rasters found *)

Lemma add_one_raster_outcome (i : Z) (rpath : Path) s s' :
  Estado.add_one_raster i rpath s = (Ok tt, s') ->
  exists ok, log (ui s') = log (ui s) ++ [Estado.raster_line rpath ok] /\
             progress_value (ui s') = i.
Proof.
  unfold Estado.add_one_raster, add_raster_gray_with_stats, bind, call.
  destruct (raster_isValid (path_str rpath) (world s)) as [[[|]|e] w]; cbn.
  - destruct (render_gray_and_add (path_str rpath) w) as [[[]|e] w1]; cbn;
      [|discriminate].
    intros [= <-]. exists true. split; reflexivity.
  - intros [= <-]. exists false. split; reflexivity.
  - discriminate.
Qed.

Lemma raster_loop_outcome (rasters : list Path) (i : Z) s s' :
  for_each i rasters Estado.add_one_raster s = (Ok tt, s') ->
  exists oks, length oks = length rasters /\
    log (ui s') = log (ui s) ++ zip_with Estado.raster_line rasters oks /\
    progress_value (ui s') =
      match rasters with
      | [] => progress_value (ui s)
      | _ => i + Z.of_nat (length rasters) - 1
      end.
Proof.
  revert i s. induction rasters as [|r rs IH]; intros i s; cbn [for_each].
  - intros [= <-]. exists []. split; [reflexivity|]. split; [|reflexivity].
    cbn. now rewrite app_nil_r.
  - unfold bind.
    destruct (Estado.add_one_raster i r s) as [[[]|e] s1] eqn:E1; [|discriminate].
    intros E. apply add_one_raster_outcome in E1 as (ok & Hlog1 & Hval1).
    apply IH in E as (oks & Hlen & Hlog & Hval).
    exists (ok :: oks). split; [cbn; now rewrite Hlen|]. split.
    + rewrite Hlog, Hlog1, <- app_assoc. reflexivity.
    + rewrite Hval. destruct rs as [|r2 rs]; cbn [length]; lia.
Qed.

(** X21. When the loop over the rasters found returns, the log has gained
    exactly one line per raster, in their order, each the added line or the
    not-loaded line of that raster, and the progress value is the number of
    rasters. *)
Theorem every_raster_gets_one_line_and_the_bar_fills (rasters : list Path) s s' :
  rasters <> [] ->
  for_each 1 rasters Estado.add_one_raster s = (Ok tt, s') ->
  exists oks, length oks = length rasters /\
    log (ui s') = log (ui s) ++ zip_with Estado.raster_line rasters oks /\
    progress_value (ui s') = Z.of_nat (length rasters).
Proof.
  intros Hne E. apply raster_loop_outcome in E as (oks & Hlen & Hlog & Hval).
  exists oks. split; [exact Hlen|]. split; [exact Hlog|].
  rewrite Hval. destruct rasters; [contradiction|lia].
Qed.
End EstadoFacts.

(** ** A network error during a state download *)

Section EstadoNetworkError.
Context {Geometry CRS World : Type} {collab : Collab Geometry CRS World}
        {zips : ZipCollab World}.
Variable url_text : QUrl -> str.
Implicit Types s : State World.

Lemma estado_cb_keeps_log (br bt : Z) : keeps_log (Estado._cb br bt).
Proof. intros u. unfold Estado._cb. destruct (bt <=? 0); reflexivity. Qed.

Lemma plugin_temp_dir_run s (w1 : World) :
  mkdir (path_str (path_div (Path_of (writableLocation (world s))) (lit "CEM_QGIS_Temp")))
    (world s) = (Ok tt, w1) ->
  plugin_temp_dir s =
  (Ok (path_div (Path_of (writableLocation (world s))) (lit "CEM_QGIS_Temp")),
   mk_State w1 (files s)
     (trace s ++
      [IoTempLocation;
       IoMkdir (path_str (path_div (Path_of (writableLocation (world s)))
                            (lit "CEM_QGIS_Temp")))])
     (ui s)).
Proof.
  intros H. unfold plugin_temp_dir, bind, call, ret. cbn [world files trace ui].
  rewrite H. now rewrite <- app_assoc.
Qed.

Local Abbreviation plugin_dir s :=
  (path_div (Path_of (writableLocation (world s))) (lit "CEM_QGIS_Temp")).

(** X22. When the request of a state package ends with a network error
    (after both directories were made and the archive file was opened), the
    download returns normally with the log extended by the URL line, the
    destination line and [ERROR: Error de red: ...], the status [Error.]
    and the bar at 0 of 100.  The bytes received stay in the closed archive
    file; nothing is extracted and no layer is created. *)
Theorem network_error_ends_the_state_download_before_extraction
    (entidad cve : str) (res_m : Z) s (w1 w2 w3 w4 : World) (reply : Reply) :
  mkdir (path_str (plugin_dir s)) (world s) = (Ok tt, w1) ->
  mkdir (path_str (Estado.estado_dir (plugin_dir s) cve res_m)) w1 = (Ok tt, w2) ->
  nam_get (Estado.build_estado_url entidad cve res_m) w2 = (reply, w3) ->
  open_wb (path_str (Estado.estado_zip (plugin_dir s) cve res_m)) w3 = (Ok tt, w4) ->
  error reply <> 0 ->
  exists s',
    Estado.download_estado_with_progress url_text entidad cve res_m s = (Ok tt, s') /\
    log (ui s') =
      log (ui s) ++
      [ lit "URL: " ++ url_text (Estado.build_estado_url entidad cve res_m);
        lit "Descargando ZIP a: " ++ path_str (Estado.estado_zip (plugin_dir s) cve res_m);
        lit "ERROR: Error de red: " ++ errorString reply ] /\
    status (ui s') = lit "Error." /\
    progress_range (ui s') = (0, 100) /\
    progress_value (ui s') = 0 /\
    trace s' =
      trace s ++
      [ IoTempLocation;
        IoMkdir (path_str (plugin_dir s));
        IoMkdir (path_str (Estado.estado_dir (plugin_dir s) cve res_m));
        IoGet (toString (Estado.build_estado_url entidad cve res_m));
        IoOpen (path_str (Estado.estado_zip (plugin_dir s) cve res_m)) ] /\
    files s' !! path_str (Estado.estado_zip (plugin_dir s) cve res_m)
      = Some (mk_File (received_bytes (signals reply)) true) /\
    world s' = w4.
Proof.
  intros Hmk1 Hmk2 Hget Hopen Herr.
  set (url := Estado.build_estado_url entidad cve res_m) in *.
  set (d := plugin_dir s) in *.
  set (dir := Estado.estado_dir d cve res_m) in *.
  set (zip := Estado.estado_zip d cve res_m) in *.
  set (sa := mk_State (world s) (files s) (trace s)
               (ui_append (lit "URL: " ++ url_text url) (ui s))).
  set (sc := mk_State w2 (files s)
               ((trace s ++ [IoTempLocation; IoMkdir (path_str d)]) ++
                [IoMkdir (path_str dir)])
               (ui_append (lit "Descargando ZIP a: " ++ path_str zip)
                  (ui_setValue 0 (ui_setRange 0 0
                     (ui_setText (lit "Conectando a INEGI…") (ui sa)))))).
  destruct (http_run url zip (Some Estado._cb) sc reply w3 w4 Hget Hopen)
    as (sd & Hhttp & Hfile & Htrace & Hworld).
  assert (Hlogd : log (ui sd) = log (ui sc)).
  { pose proof (rel_http (fun u u' => log u' = log u) ltac:(intros; reflexivity)
                  ltac:(intros; congruence) url zip (Some Estado._cb)
                  ltac:(intros ? ? ? ? [= <-]; apply estado_cb_keeps_log) sc) as H.
    rewrite Hhttp in H. exact H. }
  destruct (Z.eqb_spec (error reply) 0) as [|_]; [contradiction|].
  assert (Hpipe : Estado.estado_pipeline url_text entidad cve res_m s =
                  (Raise (mk_exn RuntimeError (lit "Error de red: " ++ errorString reply)),
                   sd)).
  { unfold Estado.estado_pipeline. fold url.
    rewrite (bind_Ok (log_append (lit "URL: " ++ url_text url)) _ s tt sa eq_refl).
    rewrite (bind_Ok _ _ sa _ _ (plugin_temp_dir_run sa w1 Hmk1)).
    cbv zeta. change (world sa) with (world s). fold d. fold dir. fold zip.
    unfold bind at 1. unfold call at 1. cbn [world files trace ui]. rewrite Hmk2.
    do 4 (unfold bind at 1; cbn [on_ui log_append world files trace ui]).
    exact (bind_Raise _ _ sc _ _ Hhttp). }
  unfold Estado.download_estado_with_progress, try_except_finally. rewrite Hpipe.
  cbn [is_Exception exn_cls]. eexists. split; [reflexivity|].
  cbn [ui log status progress_range progress_value trace files world
       ui_append ui_setText ui_setRange ui_setValue].
  repeat split.
  - rewrite Hlogd. unfold sc, sa. cbn [ui log ui_append ui_setValue ui_setRange ui_setText].
    rewrite <- !app_assoc. reflexivity.
  - rewrite Htrace. unfold sc. cbn [trace]. rewrite <- !app_assoc. reflexivity.
  - exact Hfile.
  - exact Hworld.
Qed.
End EstadoNetworkError.

(** ** The state downloader on concrete runs *)

Lemma demo_estado_raises_only_Exception :
  Estado.raises_only_Exception (collab:=Demo.collab) (zips:=DemoZip.zips).
Proof.
  repeat split; unfold only_Exception; intros;
    match goal with E : _ = (Raise _, _) |- _ => cbn in E; discriminate E end.
Qed.

Lemma state_download_always_returns_with_a_verdict_witness :
  Estado.raises_only_Exception (collab:=Demo.collab) (zips:=DemoZip.zips) /\
  exists s',
    Estado.download_estado_with_progress (collab:=Demo.collab) (zips:=DemoZip.zips)
      toString (lit "Colima") (lit "06") 15 Demo.start = (Ok tt, s') /\
    Estado.verdict (ui s').
Proof.
  split; [exact demo_estado_raises_only_Exception|].
  exact (state_download_always_returns_with_a_verdict (collab:=Demo.collab)
           (zips:=DemoZip.zips) toString (lit "Colima") (lit "06") 15 Demo.start
           demo_estado_raises_only_Exception).
Defined.

Lemma every_raster_gets_one_line_and_the_bar_fills_witness :
  exists s' oks,
    for_each 1 DemoZip.rasters (Estado.add_one_raster (collab:=Demo.collab)) Demo.start
      = (Ok tt, s') /\
    length oks = 2%nat /\
    log (ui s') = log (ui Demo.start) ++ zip_with Estado.raster_line DemoZip.rasters oks /\
    progress_value (ui s') = 2.
Proof.
  assert (Hne : DemoZip.rasters <> []) by discriminate.
  assert (Hrun : (for_each 1 DemoZip.rasters (Estado.add_one_raster (collab:=Demo.collab))
                    Demo.start).1 = Ok tt) by (vm_compute; reflexivity).
  apply pair_with_fst in Hrun.
  destruct (every_raster_gets_one_line_and_the_bar_fills (collab:=Demo.collab)
              DemoZip.rasters Demo.start _ Hne Hrun) as (oks & Hlen & Hlog & Hval).
  eexists. exists oks. split; [exact Hrun|]. split; [exact Hlen|]. split; [exact Hlog|].
  exact Hval.
Defined.

Lemma network_error_ends_the_state_download_before_extraction_witness :
  exists s',
    Estado.download_estado_with_progress (collab:=Demo.collab) (zips:=DemoZip.zips)
      toString (lit "Colima") (lit "06") 30 (mk_State 1%nat ∅ [] (ui Demo.start))
    = (Ok tt, s') /\
    last (log (ui s')) = Some (lit "ERROR: Error de red: Host not found") /\
    status (ui s') = lit "Error." /\
    world s' = 2%nat.
Proof.
  destruct (network_error_ends_the_state_download_before_extraction (collab:=Demo.collab)
              (zips:=DemoZip.zips) toString (lit "Colima") (lit "06") 30
              (mk_State 1%nat ∅ [] (ui Demo.start)) 1%nat 1%nat 2%nat 2%nat
              (Demo.reply_of 1) eq_refl eq_refl eq_refl eq_refl ltac:(discriminate))
    as (s' & Hrun & Hlog & Hstatus & _ & _ & _ & _ & Hworld).
  exists s'. split; [exact Hrun|]. split; [|split; [exact Hstatus|exact Hworld]].
  rewrite Hlog. reflexivity.
Defined.
